(** * keras-cv object-detection core: anchors, box deltas, recall metrics

    A shallow embedding of

      - [keras_cv/layers/object_detection/scale_based_anchor_generator.py]
      - [keras_cv/bounding_box/delta_encoding.py]
      - [keras_cv/metrics/coco/recall.py] and [benchmarks/recall/in_graph_recall.py]
      - [keras_cv/metrics/object_detection/mean_box_count_delta.py]

    Python exceptions are values of [exn]; a call that may raise returns a
    [outcome].  [float32] tensors of rank at most one are [tensor]s over [Q]:
    a finite float is read as the rational it denotes and arithmetic on
    finite values is exact (rounding is not modelled).  Where the source
    divides floats whose divisor may be zero (the metric results) the IEEE
    special values are kept explicit in [tf_float]. *)

From Stdlib Require Import List FinFun String Ascii Bool Arith ZArith NArith.
From Stdlib Require Import QArith Qround Qabs Qminmax Lia Lqa.
From Stdlib Require Import DecimalString DecimalNat.
From Stdlib Require Import Permutation.
From Stdlib Require OrderedTypeEx.
Import ListNotations.

Local Open Scope string_scope.
Local Open Scope Q_scope.

(** ** Exceptions and fallible computations *)

Inductive exn : Type :=
| ValueError (msg : string)
| NameError (name : string)
| AttributeError (msg : string)
| KeyError (key : string)
| IndexError (msg : string)
| InvalidArgumentError (msg : string).

Inductive outcome (A : Type) : Type :=
| Ok (a : A)
| Raise (e : exn).

Arguments Ok {A} a.
Arguments Raise {A} e.

Definition bind {A B : Type} (r : outcome A) (k : A -> outcome B) : outcome B :=
  match r with
  | Ok a => k a
  | Raise e => Raise e
  end.

Notation "x <- c1 ;; c2" := (bind c1 (fun x => c2))
  (at level 61, c1 at next level, right associativity).
Notation "' pat <- c1 ;; c2" := (bind c1 (fun x => match x with pat => c2 end))
  (at level 61, pat pattern, c1 at next level, right associativity).

(** [for x in xs: s = body(x, s)] with exceptions propagating. *)
Fixpoint for_each {X S : Type} (xs : list X) (body : X -> S -> outcome S) (s : S)
  : outcome S :=
  match xs with
  | [] => Ok s
  | x :: xs' => s' <- body x s ;; for_each xs' body s'
  end.

(** ** Tensors of rank 0 and 1 *)

Module Tensor.

Inductive tensor : Type :=
| Scalar (x : Q)
| Vector (xs : list Q).

Definition map (f : Q -> Q) (t : tensor) : tensor :=
  match t with
  | Scalar x => Scalar (f x)
  | Vector xs => Vector (List.map f xs)
  end.

Fixpoint zip_with (f : Q -> Q -> Q) (xs ys : list Q) : list Q :=
  match xs, ys with
  | x :: xs', y :: ys' => f x y :: zip_with f xs' ys'
  | _, _ => []
  end.

(** Element-wise binary operator with NumPy broadcasting: a scalar or a
    one-element vector stretches along the other operand; two vectors of
    different lengths, neither of length one, are incompatible. *)
Definition broadcast (f : Q -> Q -> Q) (a b : tensor) : outcome tensor :=
  match a, b with
  | Scalar x, Scalar y => Ok (Scalar (f x y))
  | Scalar x, Vector ys => Ok (Vector (List.map (f x) ys))
  | Vector xs, Scalar y => Ok (Vector (List.map (fun x => f x y) xs))
  | Vector xs, Vector ys =>
      match xs, ys with
      | [x], _ => Ok (Vector (List.map (f x) ys))
      | _, [y] => Ok (Vector (List.map (fun x => f x y) xs))
      | _, _ =>
          if Nat.eqb (List.length xs) (List.length ys)
          then Ok (Vector (zip_with f xs ys))
          else Raise (InvalidArgumentError "Incompatible shapes")
      end
  end.

Definition mul := broadcast Qmult.
Definition truediv := broadcast Qdiv.

(** [tf.reshape(t, [1, 1, -1])]: the entries along the last axis. *)
Definition entries (t : tensor) : list Q :=
  match t with
  | Scalar x => [x]
  | Vector xs => xs
  end.

(** The number of entries of a tensor along its last axis, a scalar
    counting for one. *)
Definition extent (t : tensor) : nat :=
  match t with
  | Scalar _ => 1
  | Vector xs => List.length xs
  end.

(** Two extents can be broadcast together when they are equal or one of
    them is 1; the result then has the extent that is not 1. *)
Definition broadcastable (m n : nat) : Prop := m = 1%nat \/ n = 1%nat \/ m = n.

Definition broadcast_extent (m n : nat) : nat := if Nat.eqb m 1 then n else m.

(** The range kernel reads its three arguments as scalars; it also
    accepts a vector of exactly one element. *)
Definition as_scalar (name : string) (t : tensor) : outcome Q :=
  match t with
  | Scalar x => Ok x
  | Vector [x] => Ok x
  | Vector _ => Raise (InvalidArgumentError (name ++ " must be a scalar"))
  end.

Definition Qltb (a b : Q) : bool := negb (Qle_bool b a).

(** Number of entries of [tf.range(start, limit, delta)] on floats:
    [ceil(abs((limit - start) / delta))]. *)
Definition range_size (start limit delta : Q) : nat :=
  Z.to_nat (Qceiling (Qabs ((limit - start) / delta))).

Definition range_values (start delta : Q) (n : nat) : list Q :=
  List.map (fun i => start + inject_Z (Z.of_nat i) * delta) (seq 0 n).

(** [tf.range(start, limit, delta)]. *)
Definition range (start limit delta : tensor) : outcome (list Q) :=
  s <- as_scalar "start" start ;;
  l <- as_scalar "limit" limit ;;
  d <- as_scalar "delta" delta ;;
  if Qeq_bool d 0 then Raise (InvalidArgumentError "Requires delta != 0")
  else if Qltb 0 d then
    if Qle_bool s l then Ok (range_values s d (range_size s l d))
    else Raise (InvalidArgumentError "Requires start <= limit when delta > 0")
  else
    if Qle_bool l s then Ok (range_values s d (range_size s l d))
    else Raise (InvalidArgumentError "Requires start >= limit when delta < 0").

End Tensor.

Import Tensor.

(** ** Python dictionaries keyed by strings, in insertion order *)

Module Dict.

Definition dict (V : Type) : Type := list (string * V).

Definition keys {V : Type} (d : dict V) : list string := List.map fst d.

Fixpoint get {V : Type} (d : dict V) (k : string) : option V :=
  match d with
  | [] => None
  | (k', v) :: d' => if String.eqb k k' then Some v else get d' k
  end.

(** [d[k]] *)
Definition getitem {V : Type} (d : dict V) (k : string) : outcome V :=
  match get d k with
  | Some v => Ok v
  | None => Raise (KeyError k)
  end.

(** [d[k] = v]: an existing key keeps its position. *)
Fixpoint set {V : Type} (d : dict V) (k : string) (v : V) : dict V :=
  match d with
  | [] => [(k, v)]
  | (k', v') :: d' =>
      if String.eqb k k' then (k', v) :: d' else (k', v') :: set d' k v
  end.

Fixpoint insert_sorted (k : string) (l : list string) : list string :=
  match l with
  | [] => [k]
  | x :: l' => if String.leb k x then k :: l else x :: insert_sorted k l'
  end.

(** [sorted(keys)] *)
Definition sorted (l : list string) : list string :=
  fold_right insert_sorted [] l.

Fixpoint keys_eqb (a b : list string) : bool :=
  match a, b with
  | [], [] => true
  | x :: a', y :: b' => String.eqb x y && keys_eqb a' b'
  | _, _ => false
  end.

End Dict.

(** ** scale_based_anchor_generator.py *)

Module ScaleBasedAnchorGenerator.

(** A box in [yxyx] corner format: one row [y_min, x_min, y_max, x_max]. *)
Record box : Type := Box { y_min : Q; x_min : Q; y_max : Q; x_max : Q }.

Definition box_eq (a b : box) : Prop :=
  y_min a == y_min b /\ x_min a == x_min b /\
  y_max a == y_max b /\ x_max a == x_max b.

(** [tf.concat([y_min, x_min, y_max, x_max], axis=-1)] of four columns. *)
Fixpoint concat_columns (ymins xmins ymaxs xmaxs : list Q) : list box :=
  match ymins, xmins, ymaxs, xmaxs with
  | a :: ymins', b :: xmins', c :: ymaxs', d :: xmaxs' =>
      Box a b c d :: concat_columns ymins' xmins' ymaxs' xmaxs'
  | _, _, _, _ => []
  end.

(** [tf.reshape(grid[H, W, 1] op half[1, 1, K], (-1,))] where [grid] is a
    mesh grid over rows [cy] and columns [cx]: row-major over the cells,
    then along the anchors of a cell.  [pick] selects the coordinate of
    the cell centre that the grid holds. *)
Definition grid_flat (pick : Q -> Q -> Q) (op : Q -> Q -> Q)
           (cy cx half : list Q) : list Q :=
  flat_map (fun y => flat_map (fun x => List.map (op (pick y x)) half) cx) cy.

Definition clip (bound : Q) (v : Q) : Q := Qmax (Qmin v bound) 0.

Record _SingleAnchorGenerator : Type := Build_SingleAnchorGenerator {
  scale : tensor;
  sizes : tensor;
  aspect_ratios : tensor;
  stride : tensor;
  clip_boxes : bool
}.

Section Generator.

(** [tf.sqrt] on [float32], left abstract: no property of it is used. *)
Variable tf_sqrt : Q -> Q.

(** Lines 233-244: half heights and half widths of the anchors of a cell. *)
Definition half_anchor_dims (g : _SingleAnchorGenerator)
  : outcome (list Q * list Q) :=
  let aspect_ratios := aspect_ratios g in
  let aspect_ratios_sqrt := Tensor.map tf_sqrt aspect_ratios in
  let anchor_sizes := sizes g in
  anchor_sizes_t <- Tensor.mul anchor_sizes (scale g) ;;
  anchor_heights <- Tensor.truediv anchor_sizes_t aspect_ratios_sqrt ;;
  anchor_widths <- Tensor.mul anchor_sizes_t aspect_ratios_sqrt ;;
  let half_anchor_heights :=
    entries (Tensor.map (Qmult 0.5) anchor_heights) in
  let half_anchor_widths :=
    entries (Tensor.map (Qmult 0.5) anchor_widths) in
  Ok (half_anchor_heights, half_anchor_widths).

(** Lines 247-251: the centres along one axis of extent [extent]. *)
Definition centers (g : _SingleAnchorGenerator) (extent : Q)
  : outcome (list Q) :=
  let stride := stride g in
  Tensor.range (Tensor.map (Qmult 0.5) stride) (Scalar extent) stride.

(** [_SingleAnchorGenerator.__call__], [image_size = [H, W, C]]. *)
Definition call (g : _SingleAnchorGenerator) (image_size : N * N)
  : outcome (list box) :=
  let image_height := inject_Z (Z.of_N (fst image_size)) in
  let image_width := inject_Z (Z.of_N (snd image_size)) in
  '(half_anchor_heights, half_anchor_widths) <- half_anchor_dims g ;;
  cx <- centers g image_width ;;
  cy <- centers g image_height ;;
  let y_min := grid_flat (fun y _ => y) Qminus cy cx half_anchor_heights in
  let y_max := grid_flat (fun y _ => y) Qplus cy cx half_anchor_heights in
  let x_min := grid_flat (fun _ x => x) Qminus cy cx half_anchor_widths in
  let x_max := grid_flat (fun _ x => x) Qplus cy cx half_anchor_widths in
  if clip_boxes g then
    let y_min := List.map (clip image_height) y_min in
    let y_max := List.map (clip image_height) y_max in
    let x_min := List.map (clip image_width) x_min in
    let x_max := List.map (clip image_width) x_max in
    Ok (concat_columns y_min x_min y_max x_max)
  else
    Ok (concat_columns y_min x_min y_max x_max).

End Generator.

(** *** What a level is expected to hold *)

Definition within_image (h w : N) (b : box) : Prop :=
  (0 <= y_min b /\ y_min b <= inject_Z (Z.of_N h)) /\
  (0 <= x_min b /\ x_min b <= inject_Z (Z.of_N w)) /\
  (0 <= y_max b /\ y_max b <= inject_Z (Z.of_N h)) /\
  (0 <= x_max b /\ x_max b <= inject_Z (Z.of_N w)).

(** Number of cell centres [s * (0.5 + i)] below [dim]:
    [ceil((dim - 0.5 * s) / s)]. *)
Definition cell_count (s : Q) (dim : N) : nat :=
  Z.to_nat (Qceiling ((inject_Z (Z.of_N dim) - 0.5 * s) / s)).

Definition cell_centers (s : Q) (dim : N) : list Q :=
  List.map (fun i => s * (0.5 + inject_Z (Z.of_nat i))) (seq 0 (cell_count s dim)).

(** The grid size of the claimed count, [ceil(dim / s)]. *)
Definition ceil_div (dim : N) (s : Q) : nat :=
  Z.to_nat (Qceiling (inject_Z (Z.of_N dim) / s)).

Definition clip_box (h w : N) (b : box) : box :=
  Box (clip (inject_Z (Z.of_N h)) (y_min b)) (clip (inject_Z (Z.of_N w)) (x_min b))
      (clip (inject_Z (Z.of_N h)) (y_max b)) (clip (inject_Z (Z.of_N w)) (x_max b)).

(** [c] is [v] clamped into [[0, bound]]: [v] itself when it lies in the
    interval, the nearer end of the interval otherwise. *)
Definition clamped (bound v c : Q) : Prop :=
  (v < 0 /\ c == 0) \/ (0 <= v /\ v <= bound /\ c == v) \/
  (bound < v /\ c == bound).

(** Each coordinate of [b] is the coordinate of [raw] clamped to the
    extent of its own axis. *)
Definition clamped_box (h w : N) (raw b : box) : Prop :=
  clamped (inject_Z (Z.of_N h)) (y_min raw) (y_min b) /\
  clamped (inject_Z (Z.of_N w)) (x_min raw) (x_min b) /\
  clamped (inject_Z (Z.of_N h)) (y_max raw) (y_max b) /\
  clamped (inject_Z (Z.of_N w)) (x_max raw) (x_max b).

Section Expected.

Variable tf_sqrt : Q -> Q.

(** The anchor of one (size, aspect ratio) pair at the centre [(cy, cx)]. *)
Definition anchor_at (size scale aspect_ratio cy cx : Q) : box :=
  let height := size * scale / tf_sqrt aspect_ratio in
  let width := size * scale * tf_sqrt aspect_ratio in
  Box (cy - height / 2) (cx - width / 2) (cy + height / 2) (cx + width / 2).

(** Row-major over the centres, then one anchor per (size, aspect ratio)
    pair, sizes first. *)
Definition cross_product_anchors (sizes : list Q) (scale : Q)
  (aspect_ratios cys cxs : list Q) : list box :=
  flat_map
    (fun cy =>
       flat_map
         (fun cx =>
            flat_map
              (fun size =>
                 List.map (fun ar => anchor_at size scale ar cy cx) aspect_ratios)
              sizes)
         cxs)
    cys.


End Expected.

(** A square root on the rationals that is exact on quotients of perfect
    squares, for evaluating the generator on aspect ratios such as 1, 4
    and 1/4. *)
Definition sqrt_exact (q : Q) : Q := Z.sqrt (Qnum q) # Pos.sqrt (Qden q).

Definition example_level : _SingleAnchorGenerator :=
  Build_SingleAnchorGenerator (Scalar 1) (Vector [32]) (Vector [1; 4]) (Vector [8]) true.

Definition example_level_one_ratio : _SingleAnchorGenerator :=
  Build_SingleAnchorGenerator (Scalar 1) (Vector [32]) (Vector [1]) (Vector [8]) false.

Definition example_two_sizes : _SingleAnchorGenerator :=
  Build_SingleAnchorGenerator (Scalar 1) (Vector [32; 64]) (Vector [1; 4]) (Scalar 8) false.

(** *** [AnchorGenerator] *)

(** The [scales] argument: a list or tuple with one scale per level, or a
    dictionary from level names to scales; anything else is [ScalesOther]. *)
Inductive scales_param : Type :=
| ScalesList (xs : list tensor)
| ScalesTuple (xs : list tensor)
| ScalesDict (d : Dict.dict tensor)
| ScalesOther.

(** The [sizes], [aspect_ratios] and [strides] arguments as the class
    docstring types them: a flat list of numbers, or a dictionary from level
    names to lists of numbers; any value that is neither a list nor a
    dictionary is [ParamOther].  A dictionary whose entries are not lists
    (on which [len] would raise a [TypeError]) is not a value of this
    type. *)
Inductive level_param : Type :=
| ParamList (xs : list Q)
| ParamDict (d : Dict.dict (list Q))
| ParamOther.

Record AnchorGenerator : Type := Build_AnchorGenerator {
  bounding_box_format : string;
  anchor_generators : Dict.dict _SingleAnchorGenerator
}.

(** [f"level_{i}"] *)
Definition level_name (i : nat) : string :=
  "level_" ++ NilEmpty.string_of_uint (Nat.to_uint i).

Section Constructor.

(** Formatting of interpolated values in error messages. *)
Variable repr_list : list Q -> string.
Variable repr_keys : list string -> string.
Variable repr_param : level_param -> string.

(** The f-string of its error names [sizes], which is not in scope in this
    static method. *)
Definition _pack_parameter_to_dict (param : scales_param) (param_name : string)
  : outcome (Dict.dict tensor) :=
  match param with
  | ScalesOther => Raise (NameError "sizes")
  | ScalesDict d => Ok d
  | ScalesList xs | ScalesTuple xs =>
      let result := [] in
      for_each (seq 0 (List.length xs))
        (fun i result =>
           match nth_error xs i with
           | Some x => Ok (Dict.set result (level_name i) x)
           | None => Raise (IndexError "list index out of range")
           end)
        result
  end.

Definition _broadcast_parameter_to_scales (param : level_param)
  (param_name : string) (scales : Dict.dict tensor)
  : outcome (Dict.dict (list Q)) :=
  match param with
  | ParamOther =>
      Raise (ValueError
        ("Expected `" ++ param_name ++ "` to be a list, or a dictionary mapping from "
         ++ "level names to lists of values.  Received `" ++ param_name ++ "="
         ++ repr_param param ++ "`."))
  | _ =>
      let param :=
        match param with
        | ParamList xs =>
            fold_left (fun result key => Dict.set result key xs)
                      (Dict.keys scales) []
        | ParamDict d => d
        | ParamOther => []
        end in
      if negb (Dict.keys_eqb (Dict.sorted (Dict.keys scales))
                             (Dict.sorted (Dict.keys param)))
      then
        Raise (ValueError
          ("Expected `" ++ param_name ++ "` to contain the same keys as `scales`. "
           ++ "Received `scales.keys()=" ++ repr_keys (Dict.keys scales) ++ "`, "
           ++ "`" ++ param_name ++ ".keys()=" ++ repr_keys (Dict.keys param) ++ "`."))
      else Ok param
  end.

Definition sizes_strides_message (level : string)
  (sizes_at_level strides_at_level : list Q) : string :=
  "Expected `sizes` and `strides` to be of the same length. At level "
  ++ "'" ++ level ++ "' sizes=" ++ repr_list sizes_at_level
  ++ ", strides=" ++ repr_list strides_at_level ++ ". "
  ++ "Please ensure that `sizes` and `strides` match all levels.".

Definition _validate_sizes_and_strides (sizes strides : Dict.dict (list Q))
  : outcome unit :=
  for_each (Dict.keys sizes)
    (fun level _ =>
       sizes_at_level <- Dict.getitem sizes level ;;
       strides_at_level <- Dict.getitem strides level ;;
       if negb (Nat.eqb (List.length sizes_at_level)
                        (List.length strides_at_level))
       then Raise (ValueError
                     (sizes_strides_message level sizes_at_level strides_at_level))
       else Ok tt)
    tt.

(** [AnchorGenerator.__init__] *)
Definition __init__ (bounding_box_format : string) (sizes : level_param)
  (scales : scales_param) (aspect_ratios strides : level_param)
  (clip_boxes : bool) : outcome AnchorGenerator :=
  scales <- _pack_parameter_to_dict scales "scales" ;;
  sizes <- _broadcast_parameter_to_scales sizes "sizes" scales ;;
  strides <- _broadcast_parameter_to_scales strides "strides" scales ;;
  _ <- _validate_sizes_and_strides sizes strides ;;
  aspect_ratios <-
    _broadcast_parameter_to_scales aspect_ratios "aspect_ratios" scales ;;
  anchor_generators <-
    for_each (Dict.keys scales)
      (fun level anchor_generators =>
         scale <- Dict.getitem scales level ;;
         sizes_at_level <- Dict.getitem sizes level ;;
         aspect_ratios_at_level <- Dict.getitem aspect_ratios level ;;
         strides_at_level <- Dict.getitem strides level ;;
         Ok (Dict.set anchor_generators level
               (Build_SingleAnchorGenerator scale (Vector sizes_at_level)
                  (Vector aspect_ratios_at_level) (Vector strides_at_level)
                  clip_boxes)))
      [] ;;
  Ok (Build_AnchorGenerator bounding_box_format anchor_generators).

End Constructor.

(** The generators that flat lists are expected to give: one level per
    scale, named [level_0], [level_1], ... in input order, each with its own
    scale and the whole [sizes], [aspect_ratios] and [strides] lists. *)
Definition flat_levels (scales : list tensor) (sizes aspect_ratios strides : list Q)
  (clip_boxes : bool) : Dict.dict _SingleAnchorGenerator :=
  List.map
    (fun '(i, scale) =>
       (level_name i,
        Build_SingleAnchorGenerator scale (Vector sizes) (Vector aspect_ratios)
          (Vector strides) clip_boxes))
    (combine (seq 0 (List.length scales)) scales).

(** An error message names a level when it quotes the level's key. *)
Definition names_level (msg level : string) : Prop :=
  exists pre post : string, msg = pre ++ "'" ++ level ++ "'" ++ post.

(** Printers used when the constructor is evaluated on examples. *)
Definition show_Q (q : Q) : string :=
  NilZero.string_of_int (Z.to_int (Qnum q)) ++ "/"
  ++ NilZero.string_of_uint (Pos.to_uint (Qden q)).

Definition show_list (l : list Q) : string :=
  "[" ++ String.concat ", " (List.map show_Q l) ++ "]".

Definition show_keys (l : list string) : string :=
  "dict_keys([" ++ String.concat ", " l ++ "])".

Definition show_param (p : level_param) : string := "<object>".

(** The configuration of [test_validate_sizes_and_strides] with explicit
    levels: [sizes = {"l1": [32, 64, 128, 256, 512]}],
    [strides = {"l1": [5, 10, 100]}], [scales = {"l1": 1.0}]. *)
Definition example_mismatch : outcome AnchorGenerator :=
  __init__ show_list show_keys show_param "yxyx"
    (ParamDict [("l1", [32; 64; 128; 256; 512])])
    (ScalesDict [("l1", Scalar 1)])
    (ParamList [0.5; 1; 2])
    (ParamDict [("l1", [5; 10; 100])])
    false.

(** Flat lists: three scales, one size, one stride, two aspect ratios. *)
Definition example_flat : outcome AnchorGenerator :=
  __init__ show_list show_keys show_param "yxyx"
    (ParamList [32]) (ScalesList [Scalar 1; Scalar 2; Scalar 4])
    (ParamList [1; 4]) (ParamList [8]) false.

(** Flat lists with two sizes and two strides. *)
Definition example_flat_two_sizes : outcome AnchorGenerator :=
  __init__ show_list show_keys show_param "yxyx"
    (ParamList [32; 64]) (ScalesList [Scalar 1])
    (ParamList [1; 4]) (ParamList [8; 8]) false.

(** The configuration of [test_relative_generation]: three scales, sizes,
    aspect ratios and strides, all as flat lists. *)
Definition example_relative_generation : outcome AnchorGenerator :=
  __init__ show_list show_keys show_param "rel_yxyx"
    (ParamList [32; 64; 128])
    (ScalesList [Scalar 1; Scalar 1.2599210498948732;
                 Scalar 1.5874010519681994])
    (ParamList [0.5; 1; 2]) (ParamList [8; 16; 32]) true.

(** Explicit levels with two sizes and two strides at level ["l1"]. *)
Definition example_levels_two_sizes : outcome AnchorGenerator :=
  __init__ show_list show_keys show_param "yxyx"
    (ParamDict [("l1", [32; 64])]) (ScalesDict [("l1", Scalar 1)])
    (ParamList [1; 4]) (ParamDict [("l1", [8; 8])]) false.

Section Call.

Variable tf_sqrt : Q -> Q.

(** [bounding_box.convert_format(boxes, source, target, images)], a
    collaborator outside these files. *)
Variable convert_format :
  list box -> string -> string -> N * N -> outcome (list box).

(** [AnchorGenerator.__call__]: [tf.nest.flatten] visits the generators in
    sorted key order; [tf.nest.pack_sequence_as] puts each result back under
    its key, in the order of [self.anchor_generators]. *)
Definition __call__ (self : AnchorGenerator) (image_shape : N * N)
  : outcome (Dict.dict (list box)) :=
  let flat := Dict.sorted (Dict.keys (anchor_generators self)) in
  results <-
    for_each flat
      (fun key results =>
         anchor_gen <- Dict.getitem (anchor_generators self) key ;;
         r <- call tf_sqrt anchor_gen image_shape ;;
         Ok (results ++ [(key, r)])%list)
      [] ;;
  results <-
    for_each (Dict.keys (anchor_generators self))
      (fun key packed =>
         r <- Dict.getitem results key ;;
         Ok (packed ++ [(key, r)])%list)
      [] ;;
  for_each (Dict.keys results)
    (fun key results =>
       r <- Dict.getitem results key ;;
       r' <- convert_format r "yxyx" (bounding_box_format self) image_shape ;;
       Ok (Dict.set results key r'))
    results.

End Call.

End ScaleBasedAnchorGenerator.

(** ** delta_encoding.py *)

Module DeltaEncoding.

(** A tensor of shape [[N, 4]] (or a slice [[N, 2]] of one): its rows. *)
Definition rows : Type := list (list Q).

(** [bounding_box.convert_format(boxes, source, target)] as a value. *)
Definition converter : Type := rows -> string -> string -> outcome rows.

(** The names that the two function bodies read and that are neither
    parameters nor locals of the functions: what the module binds them to. *)
Record module_namespace : Type := Build_module_namespace {
  ns_convert_format : option converter;
  ns_anchor_format : option string;
  ns_box_format : option string
}.

(** The module binds [List], [Optional], [Union], [tf], [keras],
    [encode_box_to_deltas] and [decode_deltas_to_boxes], and nothing else. *)
Definition module_globals : module_namespace :=
  Build_module_namespace None None None.

(** Reading a global name. *)
Definition load_global {A : Type} (name : string) (binding : option A)
  : outcome A :=
  match binding with
  | Some v => Ok v
  | None => Raise (NameError name)
  end.

(** [keras.backend.epsilon()] *)
Definition epsilon : Q := 1 # 10000000.

(** [t[..., :2]] and [t[..., 2:]] *)
Definition first2 (t : rows) : rows := List.map (firstn 2) t.
Definition from2 (t : rows) : rows := List.map (skipn 2) t.

(** Element-wise operator on two unbatched tensors of shapes [[N, k]] and
    [[M, k]], with the broadcasting of the rows: a tensor of one row is
    stretched along the other, otherwise the numbers of rows must agree.
    Tensors of rank 3 (batched boxes) are not values of [rows]. *)
Definition elementwise (f : Q -> Q -> Q) (a b : rows) : outcome rows :=
  match a, b with
  | [r], _ => Ok (List.map (fun s => Tensor.zip_with f r s) b)
  | _, [s] => Ok (List.map (fun r => Tensor.zip_with f r s) a)
  | _, _ =>
      if Nat.eqb (List.length a) (List.length b)
      then Ok (List.map (fun '(r, s) => Tensor.zip_with f r s) (combine a b))
      else Raise (InvalidArgumentError "Incompatible shapes")
  end.

(** [tf.concat([a, b], axis=-1)] *)
Fixpoint concat_last (a b : rows) : outcome rows :=
  match a, b with
  | [], [] => Ok []
  | r :: a', s :: b' => rest <- concat_last a' b' ;; Ok ((r ++ s)%list :: rest)
  | _, _ => Raise (InvalidArgumentError "Dimension mismatch in concat")
  end.

(** Broadcasting a 4-vector against every row. *)
Definition per_row (f : Q -> Q -> Q) (t : rows) (v : list Q) : rows :=
  List.map (fun r => Tensor.zip_with f r v) t.

Definition check_variance (variance : option (list Q)) : outcome unit :=
  match variance with
  | Some v =>
      let var_len := List.length v in
      if negb (Nat.eqb var_len 4)
      then Raise (ValueError "`variance` must be length 4")
      else Ok tt
  | None => Ok tt
  end.

(** Anchors and deltas are a single tensor or a dictionary of levels. *)
Inductive nest : Type :=
| Leaf (t : rows)
| Levels (d : Dict.dict rows).

(** [tf.nest.assert_same_structure] *)
Definition assert_same_structure (a b : nest) : outcome unit :=
  match a, b with
  | Leaf _, Leaf _ => Ok tt
  | Levels da, Levels db =>
      if Dict.keys_eqb (Dict.sorted (Dict.keys da)) (Dict.sorted (Dict.keys db))
      then Ok tt
      else Raise (ValueError "The two structures don't have the same nested structure.")
  | _, _ =>
      Raise (ValueError "The two structures don't have the same nested structure.")
  end.

Section Codec.

(** [tf.math.log] and [tf.math.exp] on [float32]. *)
Variable tf_log : Q -> Q.
Variable tf_exp : Q -> Q.

(** The namespace in which the function bodies run. *)
Variable globals : module_namespace.

Definition encode_box_to_deltas (anchors boxes : rows)
  (anchor_box_format bounding_box_format : string)
  (variance : option (list Q)) : outcome rows :=
  _ <- check_variance variance ;;
  convert_format <- load_global "convert_format" (ns_convert_format globals) ;;
  anchor_format <- load_global "anchor_format" (ns_anchor_format globals) ;;
  encoded_anchors <- convert_format anchors anchor_format "center_yxhw" ;;
  convert_format <- load_global "convert_format" (ns_convert_format globals) ;;
  box_format <- load_global "box_format" (ns_box_format globals) ;;
  boxes <- convert_format boxes box_format "center_yxhw" ;;
  let anchor_dimensions :=
    List.map (List.map (fun d => Qmax d epsilon)) (from2 encoded_anchors) in
  let box_dimensions :=
    List.map (List.map (fun d => Qmax d epsilon)) (from2 boxes) in
  centers <- elementwise Qminus (first2 boxes) (first2 encoded_anchors) ;;
  offsets <- elementwise Qdiv centers anchor_dimensions ;;
  ratios <- elementwise Qdiv box_dimensions anchor_dimensions ;;
  boxes_delta <- concat_last offsets (List.map (List.map tf_log) ratios) ;;
  match variance with
  | Some v => Ok (per_row Qdiv boxes_delta v)
  | None => Ok boxes_delta
  end.

Definition decode_single_level (variance : option (list Q))
  (anchor box_delta : rows) : outcome rows :=
  convert_format <- load_global "convert_format" (ns_convert_format globals) ;;
  anchor_format <- load_global "anchor_format" (ns_anchor_format globals) ;;
  encoded_anchor <- convert_format anchor anchor_format "center_yxhw" ;;
  let box_delta :=
    match variance with
    | Some v => per_row Qmult box_delta v
    | None => box_delta
    end in
  scaled <- elementwise Qmult (first2 box_delta) (from2 encoded_anchor) ;;
  centers <- elementwise Qplus scaled (first2 encoded_anchor) ;;
  dims <- elementwise Qmult (List.map (List.map tf_exp) (from2 box_delta))
            (from2 encoded_anchor) ;;
  box <- concat_last centers dims ;;
  convert_format <- load_global "convert_format" (ns_convert_format globals) ;;
  box_format <- load_global "box_format" (ns_box_format globals) ;;
  convert_format box "center_yxhw" box_format.

Definition decode_deltas_to_boxes (anchors boxes_delta : nest)
  (anchor_box_format bounding_box_format : string)
  (variance : option (list Q)) : outcome nest :=
  _ <- check_variance variance ;;
  _ <- assert_same_structure anchors boxes_delta ;;
  match anchors, boxes_delta with
  | Levels anchors, Levels boxes_delta =>
      boxes <-
        for_each anchors
          (fun '(lvl, anchor) boxes =>
             delta <- Dict.getitem boxes_delta lvl ;;
             b <- decode_single_level variance anchor delta ;;
             Ok (Dict.set boxes lvl b))
          [] ;;
      Ok (Levels boxes)
  | Leaf anchors, Leaf boxes_delta =>
      b <- decode_single_level variance anchors boxes_delta ;; Ok (Leaf b)
  | _, _ =>
      Raise (ValueError "The two structures don't have the same nested structure.")
  end.

End Codec.

(** *** The computation the bodies describe

    What the two functions compute in a namespace that binds the three
    names: [convert_format] to a converter, [anchor_format] and
    [box_format] to formats.  With both formats [center_yxhw] the
    conversions are the identity. *)
Definition same_format : converter :=
  fun t source target =>
    if String.eqb source target then Ok t
    else Raise (ValueError "conversion between different formats").

Definition intended_globals : module_namespace :=
  Build_module_namespace (Some same_format) (Some "center_yxhw")
    (Some "center_yxhw").

(** A row [[cy, cx, h, w]]. *)
Definition row_of (b : Q * Q * Q * Q) : list Q :=
  let '(cy, cx, h, w) := b in [cy; cx; h; w].

Definition dims_at_least_epsilon (b : Q * Q * Q * Q) : Prop :=
  let '(_, _, h, w) := b in epsilon <= h /\ epsilon <= w.

(** A row [[cy, cx, h, w]] has the centre of the box [b]. *)
Definition same_center (row : list Q) (b : Q * Q * Q * Q) : Prop :=
  let '(cy, cx, _, _) := b in
  match row with
  | [cy'; cx'; _; _] => cy' == cy /\ cx' == cx
  | _ => False
  end.

Definition nonzero_variance (variance : option (list Q)) : Prop :=
  match variance with
  | None => True
  | Some v =>
      exists v1 v2 v3 v4,
        v = [v1; v2; v3; v4] /\
        ~ v1 == 0 /\ ~ v2 == 0 /\ ~ v3 == 0 /\ ~ v4 == 0
  end.

Section Rows.

Variable tf_log : Q -> Q.
Variable tf_exp : Q -> Q.

(** The deltas of one box against one anchor, both [center_yxhw]. *)
Definition delta_row (variance : option (list Q)) (a b : Q * Q * Q * Q)
  : list Q :=
  let '(cya, cxa, ha, wa) := a in
  let '(cy, cx, h, w) := b in
  let d := [(cy - cya) / Qmax ha epsilon; (cx - cxa) / Qmax wa epsilon;
            tf_log (Qmax h epsilon / Qmax ha epsilon);
            tf_log (Qmax w epsilon / Qmax wa epsilon)] in
  match variance with
  | Some v => Tensor.zip_with Qdiv d v
  | None => d
  end.

(** The box of one delta row against one anchor. *)
Definition box_row (variance : option (list Q)) (a : Q * Q * Q * Q)
  (delta : list Q) : list Q :=
  let '(cya, cxa, ha, wa) := a in
  let delta :=
    match variance with
    | Some v => Tensor.zip_with Qmult delta v
    | None => delta
    end in
  (Tensor.zip_with Qplus
     (Tensor.zip_with Qmult (firstn 2 delta) [ha; wa]) [cya; cxa]
   ++ Tensor.zip_with Qmult (List.map tf_exp (skipn 2 delta)) [ha; wa])%list.

End Rows.

End DeltaEncoding.

(** ** [float32] values with the IEEE special values

    Finite values are exact rationals; the sign of a zero is not kept, so a
    non-zero value over zero takes the sign of the numerator. *)

Module Float.

Inductive tf_float : Type :=
| Finite (q : Q)
| PosInf
| NegInf
| NaN.

Definition is_zero (q : Q) : bool := Qeq_bool q 0.

Definition add (a b : tf_float) : tf_float :=
  match a, b with
  | NaN, _ | _, NaN => NaN
  | Finite x, Finite y => Finite (x + y)
  | PosInf, NegInf | NegInf, PosInf => NaN
  | PosInf, _ | _, PosInf => PosInf
  | NegInf, _ | _, NegInf => NegInf
  end.

(** [x / y]: a finite non-zero value over zero is an infinity, zero over
    zero is NaN. *)
Definition div (a b : tf_float) : tf_float :=
  match a, b with
  | NaN, _ | _, NaN => NaN
  | Finite x, Finite y =>
      if is_zero y then
        if is_zero x then NaN else if Qltb 0 x then PosInf else NegInf
      else Finite (x / y)
  | Finite _, _ => Finite 0
  | _, Finite y =>
      match a with
      | PosInf => if Qltb y 0 then NegInf else PosInf
      | _ => if Qltb y 0 then PosInf else NegInf
      end
  | _, _ => NaN
  end.

(** [tf.math.divide_no_nan(x, y)]: 0 wherever [y] is 0. *)
Definition divide_no_nan (a b : tf_float) : tf_float :=
  match b with
  | Finite y => if is_zero y then Finite 0 else div a b
  | _ => div a b
  end.

(** [tf.cast(n, float)] of an integer. *)
Definition of_int (n : Z) : tf_float := Finite (inject_Z n).

Definition reduce_sum (l : list tf_float) : tf_float :=
  fold_left add l (Finite 0).

(** [tf.math.reduce_mean]: the sum over the number of entries. *)
Definition reduce_mean (l : list tf_float) : tf_float :=
  div (reduce_sum l) (of_int (Z.of_nat (List.length l))).

End Float.

Import Float.

(** ** [int32] counters *)

Module Int32.

Definition wrap (z : Z) : Z := ((z + 2 ^ 31) mod 2 ^ 32 - 2 ^ 31)%Z.

Definition add (a b : Z) : Z := wrap (a + b).
Definition sub (a b : Z) : Z := wrap (a - b).
Definition abs (a : Z) : Z := wrap (Z.abs a).

Definition reduce_sum (l : list Z) : Z := fold_left add l 0%Z.

(** [tf.cast(b, tf.int32)] of a boolean. *)
Definition of_bool (b : bool) : Z := if b then 1%Z else 0%Z.

(** [tf.tensor_scatter_nd_add(v, [[i]], [x])] *)
Fixpoint scatter_add (v : list Z) (i : nat) (x : Z) : outcome (list Z) :=
  match v, i with
  | [], _ => Raise (InvalidArgumentError "indices are out of bounds")
  | a :: v', O => Ok (add a x :: v')
  | a :: v', S i' => r <- scatter_add v' i' x ;; Ok (a :: r)
  end.

(** [tf.tensor_scatter_nd_add(m, [[t, k]], [x])] *)
Fixpoint scatter_add2 (m : list (list Z)) (t k : nat) (x : Z)
  : outcome (list (list Z)) :=
  match m, t with
  | [], _ => Raise (InvalidArgumentError "indices are out of bounds")
  | row :: m', O => r <- scatter_add row k x ;; Ok (r :: m')
  | row :: m', S t' => r <- scatter_add2 m' t' k x ;; Ok (row :: r)
  end.

Fixpoint zip_add (a b : list Z) : list Z :=
  match a, b with
  | x :: a', y :: b' => add x y :: zip_add a' b'
  | _, _ => []
  end.

Fixpoint zip_add2 (a b : list (list Z)) : list (list Z) :=
  match a, b with
  | x :: a', y :: b' => zip_add x y :: zip_add2 a' b'
  | _, _ => []
  end.

End Int32.

(** ** metrics/coco/recall.py and benchmarks/recall/in_graph_recall.py *)

Module Recall.

(** The accumulators ([self.true_positives], [self.ground_truth_boxes]). *)
Record metric_state : Type := Build_metric_state {
  true_positives : list (list Z);
  ground_truth_boxes : list Z
}.

Record config : Type := Build_config {
  bounding_box_format : string;
  iou_thresholds : list Q;
  class_ids : list Z;
  area_range : option (Q * Q);
  max_detections : Z
}.

(** [[x / 100.0 for x in range(50, 100, 5)]] *)
Definition default_iou_thresholds : list Q :=
  List.map (fun x => inject_Z (Z.of_nat x) / 100) [50; 55; 60; 65; 70; 75; 80; 85; 90; 95]%nat.

Definition zeros (num_thresholds num_categories : nat) : metric_state :=
  Build_metric_state (repeat (repeat 0%Z num_categories) num_thresholds)
                     (repeat 0%Z num_categories).

(** [__init__], the same in [_BoxRecall] and [InGraphBoxRecall]: the
    configuration and the freshly created weights. *)
Definition __init__ (class_ids : list Z) (bounding_box_format : string)
  (iou_thresholds : option (list Q)) (area_range : option (Q * Q))
  (max_detections : Z) : outcome (config * metric_state) :=
  let iou_thresholds :=
    match iou_thresholds with
    | Some (t :: ts) => t :: ts
    | _ => default_iou_thresholds
    end in
  let num_thresholds := List.length iou_thresholds in
  let num_categories := List.length class_ids in
  if existsb (fun c => Z.ltb c 0) class_ids
  then Raise (ValueError "class_ids must be positive.")
  else Ok (Build_config bounding_box_format iou_thresholds class_ids
             area_range max_detections,
           zeros num_thresholds num_categories).

(** [tf.zeros_like] *)
Definition zeros_like (v : list Z) : list Z := List.map (fun _ => 0%Z) v.
Definition zeros_like2 (m : list (list Z)) : list (list Z) :=
  List.map zeros_like m.

Definition reset_state (st : metric_state) : metric_state :=
  Build_metric_state (zeros_like2 (true_positives st))
                     (zeros_like (ground_truth_boxes st)).

(** [result], the same in both classes. *)
Definition result (st : metric_state) : tf_float :=
  let present_values :=
    List.map (fun g => negb (Z.eqb g 0)) (ground_truth_boxes st) in
  let n_present_categories :=
    Int32.reduce_sum (List.map Int32.of_bool present_values) in
  let n_present_categories := of_int n_present_categories in
  match n_present_categories with
  | Finite n =>
      if is_zero n then Finite 0
      else
        let true_positives := List.map (List.map of_int) (true_positives st) in
        let ground_truth_boxes := List.map of_int (ground_truth_boxes st) in
        let recalls :=
          List.map
            (fun row =>
               List.map (fun '(tp, gt) => divide_no_nan tp gt)
                        (combine row ground_truth_boxes))
            true_positives in
        let recalls_per_threshold :=
          List.map (fun row => Float.div (reduce_sum row) n_present_categories)
                   recalls in
        reduce_mean recalls_per_threshold
  | _ => n_present_categories
  end.

(** *** The result in the words of the specification *)

Definition Qsum (l : list Q) : Q := fold_right Qplus 0 l.

Definition Qmean (l : list Q) : Q := Qsum l / inject_Z (Z.of_nat (List.length l)).

(** The recalls [true_positives / ground_truth_count] of one threshold,
    over the categories that have ground truth. *)
Definition present_recalls (row ground_truth : list Z) : list Q :=
  List.map (fun '(tp, gt) => inject_Z tp / inject_Z gt)
    (filter (fun '(_, gt) => negb (Z.eqb gt 0)) (combine row ground_truth)).

(** Mean over the thresholds of the mean over the present categories of the
    recall; 0 when no category has ground truth. *)
Definition mean_recall (st : metric_state) : Q :=
  if forallb (fun gt => Z.eqb gt 0) (ground_truth_boxes st) then 0
  else
    Qmean (List.map (fun row => Qmean (present_recalls row (ground_truth_boxes st)))
                    (true_positives st)).

(** The shapes that [__init__] gives the weights: at least one threshold,
    one column per category, and a category count that fits [int32]. *)
Definition well_shaped (st : metric_state) : Prop :=
  true_positives st <> [] /\
  Forall (fun row => List.length row = List.length (ground_truth_boxes st))
         (true_positives st) /\
  (Z.of_nat (List.length (ground_truth_boxes st)) < 2 ^ 31)%Z.

(** A [[T, K]] tensor of counters. *)
Definition shaped (T K : nat) (m : list (list Z)) : Prop :=
  List.length m = T /\ Forall (fun row => List.length row = K) m.

Definition example_state : metric_state :=
  Build_metric_state [[2; 0; 3]; [1; 0; 3]]%Z [4; 0; 3]%Z.

(** *** The collaborators of [update_state]

    [keras_cv.bounding_box], [keras_cv.bounding_box.iou] and the metric's
    [utils] module are not part of these files; they are taken as an
    interface.  [Boxes] is a bounding-box dictionary (keys ["boxes"],
    ["classes"], ...), [BoxTensor] the tensor under ["boxes"]. *)
Record collaborators : Type := Build_collaborators {
  Boxes : Type;
  BoxTensor : Type;
  IoU : Type;
  ensure_tensor : Boxes -> outcome Boxes;
  validate_format : Boxes -> string -> outcome unit;
  to_dense : Boxes -> outcome Boxes;
  convert_format : Boxes -> string -> string -> outcome Boxes;
  (** [d["boxes"].shape.rank], [None] when the rank is unknown *)
  boxes_rank : Boxes -> option nat;
  (** [d["boxes"]] and [tf.shape(d["classes"])] *)
  boxes_of : Boxes -> BoxTensor;
  classes_shape : Boxes -> list Z;
  XYXY_CLASS : Z;
  XYXY_CONFIDENCE : Z;
  compute_iou : BoxTensor -> BoxTensor -> string -> outcome IoU;
  sort_bounding_boxes : Boxes -> Z -> outcome Boxes;
  get_boxes_for_image : Boxes -> nat -> outcome Boxes;
  order_by_confidence : Boxes -> outcome Boxes;
  filter_boxes_by_area_range : Boxes -> Q -> Q -> outcome Boxes;
  filter_boxes : Boxes -> Q -> Z -> outcome Boxes;
  select_boxes_of_class : Boxes -> Q -> outcome Boxes;
  slice : Boxes -> Z -> outcome Boxes;
  match_boxes : IoU -> Q -> outcome (list Z)
}.

(** An argument of [tf.shape]: a tensor of known shape, or a Python
    dictionary, which cannot be converted to a tensor. *)
Inductive shape_arg (C : collaborators) : Type :=
| OfTensor (shape : list Z)
| OfDict (d : Boxes C).

Arguments OfTensor {C} shape.
Arguments OfDict {C} d.

Definition tf_shape {C : collaborators} (x : shape_arg C) : outcome (list Z) :=
  match x with
  | OfTensor shape => Ok shape
  | OfDict _ =>
      Raise (ValueError
        "Attempt to convert a value with an unsupported type (<class 'dict'>) to a Tensor.")
  end.

(** [shape[0]] *)
Definition dim0 (shape : list Z) : outcome Z :=
  match shape with
  | n :: _ => Ok n
  | [] => Raise (InvalidArgumentError "slice index 0 of dimension 0 out of bounds")
  end.

(** Attribute access on a [TensorShape] of the given rank. *)
Definition TensorShape_getattr (rank : option nat) (attr : string)
  : outcome (option nat) :=
  if String.eqb attr "rank" || String.eqb attr "ndims" then Ok rank
  else Raise (AttributeError
                ("'TensorShape' object has no attribute '" ++ attr ++ "'")).

Definition rank_is_3 (rank : option nat) : bool :=
  match rank with
  | Some 3%nat => true
  | _ => false
  end.

Definition repr_rank (r : option nat) : string :=
  match r with
  | Some n => NilEmpty.string_of_uint (Nat.to_uint n)
  | None => "None"
  end.

Definition not_batched_message (r1 r2 : option nat) : string :=
  "Expected `y_true` and `y_pred` to be batched. Received "
  ++ "`y_true['boxes'].shape.rank=" ++ repr_rank r1 ++ "` and "
  ++ "`y_pred['boxes'].shape.rank=" ++ repr_rank r2 ++ "`. "
  ++ "Expected both to be 3.".

(** [x[i]] on a Python list or a rank-1 tensor. *)
Definition item {A : Type} (l : list A) (i : nat) : outcome A :=
  match nth_error l i with
  | Some a => Ok a
  | None => Raise (InvalidArgumentError "index out of range")
  end.

Section UpdateState.

Variable C : collaborators.
Variable self : config.

(** How a variant selects the boxes of one category. *)
Variable boxes_of_class : Boxes C -> Q -> outcome (Boxes C).

(** The statements shared by both variants up to the conversion to the
    canonical format (lines 127-162 of recall.py, 84-119 of
    in_graph_recall.py). *)
Definition validate_and_convert (y_true y_pred : Boxes C)
  : outcome (Boxes C * Boxes C) :=
  y_true <- ensure_tensor C y_true ;;
  y_pred <- ensure_tensor C y_pred ;;
  _ <- validate_format C y_true "y_true" ;;
  _ <- validate_format C y_pred "y_pred" ;;
  rank_true <- TensorShape_getattr (boxes_rank C y_true) "rank" ;;
  rank_pred <- TensorShape_getattr (boxes_rank C y_pred) "rank" ;;
  _ <- (if negb (rank_is_3 rank_true) || negb (rank_is_3 rank_pred)
        then
          r1 <- TensorShape_getattr (boxes_rank C y_true) "ranks" ;;
          r2 <- TensorShape_getattr (boxes_rank C y_true) "ranks" ;;
          Raise (ValueError (not_batched_message r1 r2))
        else Ok tt) ;;
  y_true <- to_dense C y_true ;;
  y_pred <- to_dense C y_pred ;;
  y_true <- convert_format C y_true (bounding_box_format self) "xyxy" ;;
  y_pred <- convert_format C y_pred (bounding_box_format self) "xyxy" ;;
  Ok (y_true, y_pred).

(** The statements of the image loop before the category loop. *)
Definition image_prologue (y_true y_pred : Boxes C) (img : nat)
  : outcome (Boxes C * Boxes C) :=
  y_true_for_image <- get_boxes_for_image C y_true img ;;
  y_pred_for_image <- get_boxes_for_image C y_pred img ;;
  y_pred_for_image <- order_by_confidence C y_pred_for_image ;;
  match area_range self with
  | Some (lo, hi) =>
      y_true_for_image <- filter_boxes_by_area_range C y_true_for_image lo hi ;;
      y_pred_for_image <- filter_boxes_by_area_range C y_pred_for_image lo hi ;;
      Ok (y_true_for_image, y_pred_for_image)
  | None => Ok (y_true_for_image, y_pred_for_image)
  end.

(** The statements of the category loop before the threshold loop: the IoU
    matrix and the ground truths of the category. *)
Definition category_prologue (y_true_for_image y_pred_for_image : Boxes C)
  (k_i : nat) : outcome (IoU C * Boxes C) :=
  category <- item (List.map inject_Z (class_ids self)) k_i ;;
  category_filtered_y_pred <- boxes_of_class y_pred_for_image category ;;
  n_pred <- dim0 (classes_shape C category_filtered_y_pred) ;;
  detections <-
    (if Z.ltb (max_detections self) n_pred
     then slice C category_filtered_y_pred (max_detections self)
     else Ok category_filtered_y_pred) ;;
  ground_truths <- boxes_of_class y_true_for_image category ;;
  ious <- compute_iou C (boxes_of C ground_truths) (boxes_of C detections) "yxyx" ;;
  Ok (ious, ground_truths).

(** Number of predictions that [match_boxes] pairs with a ground truth. *)
Definition true_positives_sum (pred_matches : list Z) : Z :=
  Int32.reduce_sum
    (List.map (fun m => Int32.of_bool (negb (Z.eqb m (-1)))) pred_matches).

Definition threshold_loop (ious : IoU C) (k_i : nat)
  (true_positives_update : list (list Z)) : outcome (list (list Z)) :=
  for_each (seq 0 (List.length (iou_thresholds self)))
    (fun t_i true_positives_update =>
       threshold <- item (iou_thresholds self) t_i ;;
       pred_matches <- match_boxes C ious threshold ;;
       Int32.scatter_add2 true_positives_update t_i k_i
         (true_positives_sum pred_matches))
    true_positives_update.

Definition category_loop (y_true_for_image y_pred_for_image : Boxes C)
  (updates : list (list Z) * list Z) : outcome (list (list Z) * list Z) :=
  for_each (seq 0 (List.length (class_ids self)))
    (fun k_i '(true_positives_update, ground_truth_boxes_update) =>
       '(ious, ground_truths) <-
         category_prologue y_true_for_image y_pred_for_image k_i ;;
       true_positives_update <-
         threshold_loop ious k_i true_positives_update ;;
       n_true <- dim0 (classes_shape C ground_truths) ;;
       ground_truth_boxes_update <-
         Int32.scatter_add ground_truth_boxes_update k_i (Int32.wrap n_true) ;;
       Ok (true_positives_update, ground_truth_boxes_update))
    updates.

(** Lines 179-239 of recall.py, 132-187 of in_graph_recall.py. *)
Definition image_loop (y_true y_pred : Boxes C) (num_images : Z)
  (updates : list (list Z) * list Z) : outcome (list (list Z) * list Z) :=
  for_each (seq 0 (Z.to_nat num_images))
    (fun img updates =>
       '(y_true_for_image, y_pred_for_image) <-
         image_prologue y_true y_pred img ;;
       category_loop y_true_for_image y_pred_for_image updates)
    updates.

End UpdateState.

(** *** The metric as a stateful object *)

Definition M (A : Type) : Type := metric_state -> outcome A * metric_state.

Definition mbind {A B : Type} (c : M A) (k : A -> M B) : M B :=
  fun st =>
    match c st with
    | (Ok a, st') => k a st'
    | (Raise e, st') => (Raise e, st')
    end.

Definition lift {A : Type} (r : outcome A) : M A := fun st => (r, st).

Definition read : M metric_state := fun st => (Ok st, st).

Definition assign_add_true_positives (u : list (list Z)) : M unit :=
  fun st =>
    (Ok tt, Build_metric_state (Int32.zip_add2 (true_positives st) u)
                               (ground_truth_boxes st)).

Definition assign_add_ground_truth_boxes (u : list Z) : M unit :=
  fun st =>
    (Ok tt, Build_metric_state (true_positives st)
                               (Int32.zip_add (ground_truth_boxes st) u)).

Notation "x <~ c1 ;; c2" := (mbind c1 (fun x => c2))
  (at level 61, c1 at next level, right associativity).

(** [_BoxRecall.update_state] (recall.py); [sample_weight] only triggers a
    warning. *)
Definition update_state (C : collaborators) (self : config)
  (y_true y_pred : Boxes C) : M unit :=
  converted <~ lift (validate_and_convert C self y_true y_pred) ;;
  let '(y_true, y_pred) := converted in
  y_pred <~ lift (sort_bounding_boxes C y_pred (XYXY_CONFIDENCE C)) ;;
  num_images <~ lift (shape <- tf_shape (OfDict y_true) ;; dim0 shape) ;;
  st <~ read ;;
  let true_positives_update := zeros_like2 (true_positives st) in
  let ground_truth_boxes_update := zeros_like (ground_truth_boxes st) in
  updates <~ lift (image_loop C self
                     (fun d category => filter_boxes C d category (XYXY_CLASS C))
                     y_true y_pred num_images
                     (true_positives_update, ground_truth_boxes_update)) ;;
  _ <~ assign_add_true_positives (fst updates) ;;
  assign_add_ground_truth_boxes (snd updates).

(** [InGraphBoxRecall.update_state] (in_graph_recall.py). *)
Definition in_graph_update_state (C : collaborators) (self : config)
  (y_true y_pred : Boxes C) : M unit :=
  converted <~ lift (validate_and_convert C self y_true y_pred) ;;
  let '(y_true, y_pred) := converted in
  num_images <~ lift (shape <- tf_shape (C := C) (OfTensor (classes_shape C y_true)) ;;
                      dim0 shape) ;;
  st <~ read ;;
  let true_positives_update := zeros_like2 (true_positives st) in
  let ground_truth_boxes_update := zeros_like (ground_truth_boxes st) in
  updates <~ lift (image_loop C self (select_boxes_of_class C)
                     y_true y_pred num_images
                     (true_positives_update, ground_truth_boxes_update)) ;;
  _ <~ assign_add_true_positives (fst updates) ;;
  assign_add_ground_truth_boxes (snd updates).

End Recall.

(** ** metrics/object_detection/mean_box_count_delta.py *)

Module MeanBoxCountDelta.

Record metric_state : Type := Build_metric_state {
  delta_sum : tf_float;
  samples : tf_float
}.

(** The weights after [__init__]. *)
Definition __init__ : metric_state := Build_metric_state (Finite 0) (Finite 0).

Definition reset_state (st : metric_state) : metric_state :=
  Build_metric_state (Finite 0) (Finite 0).

(** [a - b] on [int32] vectors, with broadcasting of a one-element vector. *)
Definition subtract (a b : list Z) : outcome (list Z) :=
  match a, b with
  | [x], _ => Ok (List.map (fun y => Int32.sub x y) b)
  | _, [y] => Ok (List.map (fun x => Int32.sub x y) a)
  | _, _ =>
      if Nat.eqb (List.length a) (List.length b)
      then Ok (List.map (fun '(x, y) => Int32.sub x y) (combine a b))
      else Raise (InvalidArgumentError "Incompatible shapes")
  end.

(** Per image, the number of entries whose class is not the padding [-1]. *)
Definition count_boxes (classes : list (list Z)) : list Z :=
  List.map
    (fun row =>
       Int32.reduce_sum
         (List.map (fun c => Int32.of_bool (negb (Z.eqb c (-1)))) row))
    classes.

Section UpdateState.

(** [bounding_box.ensure_tensor], [bounding_box.to_dense] and the dense
    tensor under ["classes"], of shape [[batch, boxes]]. *)
Variable Boxes : Type.
Variable ensure_tensor : Boxes -> outcome Boxes.
Variable to_dense : Boxes -> outcome Boxes.
Variable classes : Boxes -> list (list Z).

(** The two weights are [float32]; their additions are exact, as modelled
    here, as long as the weights are whole numbers of at most [2 ^ 24]. *)
Definition update_state (y_true y_pred : Boxes) (st : metric_state)
  : outcome unit * metric_state :=
  let computed :=
    y_true <- ensure_tensor y_true ;;
    y_pred <- ensure_tensor y_pred ;;
    y_pred <- to_dense y_pred ;;
    y_true <- to_dense y_true ;;
    let ground_truth_boxes := count_boxes (classes y_true) in
    let predicted_boxes := count_boxes (classes y_pred) in
    difference <- subtract ground_truth_boxes predicted_boxes ;;
    let delta_sum := List.map Int32.abs difference in
    Ok (of_int (Int32.reduce_sum delta_sum),
        of_int (Z.of_nat (List.length (classes y_pred)))) in
  match computed with
  | Ok (d, n) =>
      (Ok tt, Build_metric_state (Float.add (delta_sum st) d)
                                 (Float.add (samples st) n))
  | Raise e => (Raise e, st)
  end.

End UpdateState.

Definition result (st : metric_state) : tf_float :=
  Float.div (delta_sum st) (samples st).

(** What holds of the weights after [__init__] and any number of updates:
    both are finite, [samples] is not negative, and as long as no sample
    was counted no delta was added. *)
Definition accumulated (st : metric_state) : Prop :=
  exists d n : Q,
    delta_sum st = Finite d /\ samples st = Finite n /\
    0 <= n /\ (n == 0 -> d == 0).

(** *** The update in the words of the docstring *)

(** The number of boxes of one image: its classes other than the padding
    [-1]. *)
Definition box_count (row : list Z) : Z :=
  Z.of_nat (List.length (filter (fun c => negb (Z.eqb c (-1))) row)).

(** The sum, over the images of a batch, of the absolute difference between
    the number of ground-truth boxes and the number of predicted boxes. *)
Definition count_deltas (truth prediction : list (list Z)) : Z :=
  fold_right Z.add 0%Z
    (List.map (fun '(t, p) => Z.abs (box_count t - box_count p))
              (combine truth prediction)).

End MeanBoxCountDelta.

(** ** Reference collaborators of the recall metric *)

Module Reference.

(** Modelled from the spec: the bounding-box collaborators of the recall
    metric ([bounding_box], [iou] and the metric's [utils]), whose sources
    are not among these files.  A box set holds, per image, boxes in corner
    format with a class (-1 for padding) and a confidence; IoU is the
    intersection area over the union area, 0 for degenerate boxes; matching
    is greedy over the predictions in order, each taking the unmatched
    ground truth of maximal IoU if that IoU reaches the threshold, and -1
    otherwise. *)
Record detection : Type := Build_detection {
  det_box : Q * Q * Q * Q;
  det_class : Z;
  det_confidence : Q
}.

(** A batch of images (["boxes"] of rank 3) or the boxes of one image
    (["boxes"] of rank 2). *)
Inductive box_set : Type :=
| Batch (images : list (list detection))
| Image (dets : list detection).

Definition rank (b : box_set) : option nat :=
  match b with
  | Batch _ => Some 3%nat
  | Image _ => Some 2%nat
  end.

Definition shape_of_classes (b : box_set) : list Z :=
  match b with
  | Batch images =>
      [Z.of_nat (List.length images);
       Z.of_nat (List.length (hd [] images))]
  | Image dets => [Z.of_nat (List.length dets)]
  end.

Definition corner_boxes (b : box_set) : list (Q * Q * Q * Q) :=
  match b with
  | Batch images => List.map det_box (List.concat images)
  | Image dets => List.map det_box dets
  end.

Definition area (b : Q * Q * Q * Q) : Q :=
  let '(x1, y1, x2, y2) := b in Qmax 0 (x2 - x1) * Qmax 0 (y2 - y1).

Definition iou (a b : Q * Q * Q * Q) : Q :=
  let '(ax1, ay1, ax2, ay2) := a in
  let '(bx1, by1, bx2, by2) := b in
  let intersection :=
    Qmax 0 (Qmin ax2 bx2 - Qmax ax1 bx1) * Qmax 0 (Qmin ay2 by2 - Qmax ay1 by1) in
  let union := area a + area b - intersection in
  if Qeq_bool union 0 then 0 else intersection / union.

(** One column of IoUs per prediction, one entry per ground truth. *)
Definition iou_columns (ground_truths predictions : list (Q * Q * Q * Q))
  : list (list Q) :=
  List.map (fun p => List.map (fun g => iou g p) ground_truths) predictions.

Fixpoint insert_by_confidence (d : detection) (l : list detection)
  : list detection :=
  match l with
  | [] => [d]
  | x :: l' =>
      if Qle_bool (det_confidence x) (det_confidence d)
      then d :: l else x :: insert_by_confidence d l'
  end.

Definition by_confidence (l : list detection) : list detection :=
  fold_right insert_by_confidence [] l.

Definition on_image (f : list detection -> list detection) (b : box_set)
  : outcome box_set :=
  match b with
  | Image dets => Ok (Image (f dets))
  | Batch _ => Raise (InvalidArgumentError "expected the boxes of one image")
  end.

Fixpoint best_row (column : list Q) (used : list bool) (i : nat)
  (best : option (nat * Q)) : option (nat * Q) :=
  match column, used with
  | v :: column', u :: used' =>
      let best' :=
        if u then best
        else match best with
             | Some (_, b) => if Qltb b v then Some (i, v) else best
             | None => Some (i, v)
             end in
      best_row column' used' (S i) best'
  | _, _ => best
  end.

Fixpoint mark (used : list bool) (i : nat) : list bool :=
  match used, i with
  | [], _ => []
  | _ :: used', O => true :: used'
  | u :: used', S i' => u :: mark used' i'
  end.

Fixpoint greedy (columns : list (list Q)) (used : list bool) (threshold : Q)
  : list Z :=
  match columns with
  | [] => []
  | column :: columns' =>
      match best_row column used 0 None with
      | Some (i, v) =>
          if Qle_bool threshold v
          then Z.of_nat i :: greedy columns' (mark used i) threshold
          else (-1)%Z :: greedy columns' used threshold
      | None => (-1)%Z :: greedy columns' used threshold
      end
  end.

Definition instance : Recall.collaborators :=
  Recall.Build_collaborators box_set (list (Q * Q * Q * Q)) (list (list Q))
    (fun b => Ok b)
    (fun _ _ => Ok tt)
    (fun b => Ok b)
    (fun b _ _ => Ok b)
    rank
    corner_boxes
    shape_of_classes
    4%Z 5%Z
    (fun ground_truths predictions _ => Ok (iou_columns ground_truths predictions))
    (fun b _ =>
       match b with
       | Batch images => Ok (Batch (List.map by_confidence images))
       | Image dets => Ok (Image (by_confidence dets))
       end)
    (fun b img =>
       match b with
       | Batch images =>
           match nth_error images img with
           | Some dets =>
               Ok (Image (filter (fun d => negb (Z.eqb (det_class d) (-1))) dets))
           | None => Raise (InvalidArgumentError "image index out of range")
           end
       | Image _ => Raise (InvalidArgumentError "expected a batch")
       end)
    (on_image by_confidence)
    (fun b lo hi =>
       on_image
         (filter (fun d => Qle_bool lo (area (det_box d))
                          && Qle_bool (area (det_box d)) hi)) b)
    (fun b value _ =>
       on_image (filter (fun d => Qeq_bool (inject_Z (det_class d)) value)) b)
    (fun b value =>
       on_image (filter (fun d => Qeq_bool (inject_Z (det_class d)) value)) b)
    (fun b n => on_image (firstn (Z.to_nat n)) b)
    (fun columns threshold =>
       Ok (greedy columns
                  (repeat false (List.length (hd [] columns))) threshold)).

(** Two images; classes 1 and 2; the second image has a padding entry. *)
Definition example_truth : box_set :=
  Batch
    [[Build_detection (0, 0, 10, 10) 1 1; Build_detection (20, 20, 30, 30) 2 1];
     [Build_detection (0, 0, 4, 4) 1 1; Build_detection (0, 0, 0, 0) (-1) 0]].

Definition example_prediction : box_set :=
  Batch
    [[Build_detection (0, 0, 10, 10) 1 0.9; Build_detection (20, 20, 30, 29) 2 0.8];
     [Build_detection (0, 0, 4, 2) 1 0.7; Build_detection (0, 0, 0, 0) (-1) 0]].

Definition example_config : Recall.config :=
  Recall.Build_config "xyxy" [0.5; 0.95] [1; 2]%Z None 100.

(** What the loops of the in-graph variant meet on the example batch. *)
Definition example_per_image (img : nat) : box_set * box_set :=
  match Recall.image_prologue instance example_config example_truth
          example_prediction img with
  | Ok p => p
  | Raise _ => (Image [], Image [])
  end.

Definition example_category (img k : nat) : list (list Q) * box_set :=
  match Recall.category_prologue instance example_config
          (Recall.select_boxes_of_class instance)
          (fst (example_per_image img)) (snd (example_per_image img)) k with
  | Ok p => p
  | Raise _ => ([], Image [])
  end.

Definition example_counts (img k : nat) : Z :=
  Z.of_nat (List.length (corner_boxes (snd (example_category img k)))).

Definition example_matches (img k t : nat) : list Z :=
  match nth_error (Recall.iou_thresholds example_config) t with
  | Some threshold =>
      match Recall.match_boxes instance (fst (example_category img k))
              threshold with
      | Ok m => m
      | Raise _ => []
      end
  | None => []
  end.

(** The boxes of one image, not batched. *)
Definition example_unbatched : box_set :=
  Image [Build_detection (0, 0, 10, 10) 1 1].

End Reference.

(** * Properties *)

Import ScaleBasedAnchorGenerator.

(** ** Anchors of one level *)

Section SingleGeneratorFacts.

Variable tf_sqrt : Q -> Q.

Lemma clip_bounds (bound v : Q) :
  0 <= bound -> 0 <= clip bound v /\ clip bound v <= bound.
Proof.
  intros Hb. unfold clip. split.
  - apply Q.le_max_r.
  - apply Q.max_lub; [apply Q.le_min_r | exact Hb].
Qed.

Lemma inject_N_nonneg (n : N) : 0 <= inject_Z (Z.of_N n).
Proof.
  change 0 with (inject_Z 0). rewrite <- Zle_Qle. lia.
Qed.

Lemma concat_columns_clipped (h w : N) (a b c d : list Q) :
  Forall (within_image h w)
    (concat_columns (List.map (clip (inject_Z (Z.of_N h))) a)
                    (List.map (clip (inject_Z (Z.of_N w))) b)
                    (List.map (clip (inject_Z (Z.of_N h))) c)
                    (List.map (clip (inject_Z (Z.of_N w))) d)).
Proof.
  revert b c d. induction a as [|x a IH]; intros [|y b] [|z c] [|t d];
    simpl; try constructor.
  - unfold within_image; simpl.
    repeat split; apply clip_bounds; apply inject_N_nonneg.
  - apply IH.
Qed.

Lemma clip_clamped (bound v : Q) :
  0 <= bound -> clamped bound v (clip bound v).
Proof.
  intros Hb. unfold clamped, clip.
  destruct (Qlt_le_dec v 0) as [Hneg | Hpos].
  - left. split; [exact Hneg|].
    rewrite Q.min_l by lra. apply Q.max_r. lra.
  - destruct (Qlt_le_dec bound v) as [Hbig | Hin].
    + right. right. split; [exact Hbig|].
      rewrite Q.min_r by lra. now apply Q.max_l.
    + right. left. split; [exact Hpos|]. split; [exact Hin|].
      rewrite Q.min_l by exact Hin. now apply Q.max_l.
Qed.

Lemma clip_box_clamped (h w : N) (raw : list box) :
  Forall2 (clamped_box h w) raw (List.map (clip_box h w) raw).
Proof.
  induction raw as [|b raw IH]; simpl; constructor; [|exact IH].
  unfold clamped_box, clip_box. cbn [y_min x_min y_max x_max].
  repeat split; apply clip_clamped; apply inject_N_nonneg.
Qed.

Lemma concat_columns_clip (h w : N) (a b c d : list Q) :
  concat_columns (List.map (clip (inject_Z (Z.of_N h))) a)
                 (List.map (clip (inject_Z (Z.of_N w))) b)
                 (List.map (clip (inject_Z (Z.of_N h))) c)
                 (List.map (clip (inject_Z (Z.of_N w))) d)
  = List.map (clip_box h w) (concat_columns a b c d).
Proof.
  revert b c d. induction a as [|x a IH]; intros [|y b] [|z c] [|t d];
    simpl; try reflexivity.
  now rewrite IH.
Qed.

(** C6. With [clip_boxes] enabled, every coordinate of every anchor that
    the generator of a level returns lies in [[0, height]] (y coordinates)
    or [[0, width]] (x coordinates), and it is the coordinate of the anchor
    that the level returns without [clip_boxes], clamped on its own: kept
    when it lies in the interval of its axis, moved to 0 when it is
    negative and to the extent of the axis when it exceeds it. *)
Theorem clipped_anchors_within_image (g : _SingleAnchorGenerator) (h w : N)
  (boxes : list box) :
  clip_boxes g = true ->
  call tf_sqrt g (h, w) = Ok boxes ->
  Forall (within_image h w) boxes /\
  exists raw,
    call tf_sqrt
      (Build_SingleAnchorGenerator (scale g) (sizes g) (aspect_ratios g)
         (stride g) false) (h, w) = Ok raw /\
    Forall2 (clamped_box h w) raw boxes.
Proof.
  intros Hclip Hcall. unfold call, centers, half_anchor_dims in *.
  cbn [scale sizes aspect_ratios stride clip_boxes fst snd] in *.
  destruct (Tensor.mul (sizes g) (scale g)) as [t|e]; [|discriminate].
  cbn [bind] in *.
  destruct (Tensor.truediv t (Tensor.map tf_sqrt (aspect_ratios g)))
    as [hs|e]; [|discriminate].
  cbn [bind] in *.
  destruct (Tensor.mul t (Tensor.map tf_sqrt (aspect_ratios g)))
    as [ws|e]; [|discriminate].
  cbn [bind] in *.
  destruct (Tensor.range (Tensor.map (Qmult 0.5) (stride g))
              (Scalar (inject_Z (Z.of_N w))) (stride g)) as [cx|e];
    [|discriminate].
  cbn [bind] in *.
  destruct (Tensor.range (Tensor.map (Qmult 0.5) (stride g))
              (Scalar (inject_Z (Z.of_N h))) (stride g)) as [cy|e];
    [|discriminate].
  cbn [bind] in *.
  rewrite Hclip in Hcall. injection Hcall as <-. split.
  - apply concat_columns_clipped.
  - eexists. split; [reflexivity|].
    rewrite concat_columns_clip. apply clip_box_clamped.
Qed.

Lemma length_concat_columns (a b c d : list Q) :
  List.length b = List.length a -> List.length c = List.length a ->
  List.length d = List.length a ->
  List.length (concat_columns a b c d) = List.length a.
Proof.
  revert b c d. induction a as [|x a IH]; intros [|y b] [|z c] [|t d];
    simpl; intros; try discriminate; auto.
Qed.

Lemma length_grid_row (f : Q -> Q -> Q) (cx half : list Q) :
  List.length (flat_map (fun x => List.map (f x) half) cx)
  = (List.length cx * List.length half)%nat.
Proof.
  induction cx as [|x cx IH]; simpl; [reflexivity|].
  rewrite length_app, length_map, IH. reflexivity.
Qed.

Lemma length_grid_flat (pick op : Q -> Q -> Q) (cy cx half : list Q) :
  List.length (grid_flat pick op cy cx half)
  = (List.length cy * List.length cx * List.length half)%nat.
Proof.
  unfold grid_flat. induction cy as [|y cy IH]; simpl; [reflexivity|].
  rewrite length_app, IH.
  rewrite (length_grid_row (fun x => op (pick y x))). lia.
Qed.

Lemma concat_columns_app (a1 b1 c1 d1 a2 b2 c2 d2 : list Q) :
  List.length b1 = List.length a1 -> List.length c1 = List.length a1 ->
  List.length d1 = List.length a1 ->
  concat_columns (a1 ++ a2) (b1 ++ b2) (c1 ++ c2) (d1 ++ d2)
  = (concat_columns a1 b1 c1 d1 ++ concat_columns a2 b2 c2 d2)%list.
Proof.
  revert b1 c1 d1. induction a1 as [|x a1 IH]; intros [|y b1] [|z c1] [|t d1];
    simpl; intros; try discriminate; auto.
  f_equal. apply IH; lia.
Qed.

Lemma concat_columns_map {A : Type} (fa fb fc fd : A -> Q) (l : list A) :
  concat_columns (List.map fa l) (List.map fb l) (List.map fc l) (List.map fd l)
  = List.map (fun a => Box (fa a) (fb a) (fc a) (fd a)) l.
Proof.
  induction l as [|a l IH]; simpl; [reflexivity|]. now rewrite IH.
Qed.

(** The four flattened grids, taken column-wise, enumerate the cells in
    row-major order and the anchors of a cell in the order of [l]. *)
Lemma concat_columns_grid {A : Type} (fh fw : A -> Q) (l : list A)
  (cy cx : list Q) :
  concat_columns
    (grid_flat (fun y _ => y) Qminus cy cx (List.map fh l))
    (grid_flat (fun _ x => x) Qminus cy cx (List.map fw l))
    (grid_flat (fun y _ => y) Qplus cy cx (List.map fh l))
    (grid_flat (fun _ x => x) Qplus cy cx (List.map fw l))
  = flat_map
      (fun y =>
         flat_map
           (fun x =>
              List.map (fun a => Box (y - fh a) (x - fw a) (y + fh a) (x + fw a)) l)
           cx)
      cy.
Proof.
  unfold grid_flat. induction cy as [|y cy IHy]; simpl; [reflexivity|].
  rewrite concat_columns_app.
  - rewrite IHy. f_equal. clear IHy.
    induction cx as [|x cx IHx]; simpl; [reflexivity|].
    rewrite concat_columns_app by (now rewrite !length_map).
    rewrite IHx. f_equal.
    rewrite !map_map. apply concat_columns_map.
  - rewrite (length_grid_row (fun x => Qminus x)),
            (length_grid_row (fun _ => Qminus y)), !length_map. reflexivity.
  - rewrite (length_grid_row (fun _ => Qplus y)),
            (length_grid_row (fun _ => Qminus y)), !length_map. reflexivity.
  - rewrite (length_grid_row (fun x => Qplus x)),
            (length_grid_row (fun _ => Qminus y)), !length_map. reflexivity.
Qed.

Lemma Qltb_true (a b : Q) : a < b -> Qltb a b = true.
Proof.
  intros H. unfold Qltb. destruct (Qle_bool b a) eqn:E; [|reflexivity].
  apply Qle_bool_iff in E. lra.
Qed.

Lemma Qeq_bool_false (a b : Q) : ~ a == b -> Qeq_bool a b = false.
Proof.
  intros H. destruct (Qeq_bool a b) eqn:E; [|reflexivity].
  apply Qeq_bool_iff in E. contradiction.
Qed.

Lemma range_size_cell_count (s : Q) (dim : N) :
  0 < s -> 0.5 * s <= inject_Z (Z.of_N dim) ->
  range_size (0.5 * s) (inject_Z (Z.of_N dim)) s = cell_count s dim.
Proof.
  intros Hs Hdim. unfold range_size, cell_count. f_equal.
  apply Qceiling_comp. apply Qabs_pos.
  revert Hdim. generalize (inject_Z (Z.of_N dim)). intros q Hq.
  apply Qle_shift_div_l; lra.
Qed.

(** The centres of a level with the single stride [s]. *)
Lemma centers_single_stride (g : _SingleAnchorGenerator) (s : Q) (dim : N) :
  stride g = Vector [s] \/ stride g = Scalar s ->
  0 < s -> 0.5 * s <= inject_Z (Z.of_N dim) ->
  centers g (inject_Z (Z.of_N dim))
  = Ok (range_values (0.5 * s) s (cell_count s dim)).
Proof.
  intros Hstride Hs Hdim. unfold centers, Tensor.range.
  assert (Hd : Qeq_bool s 0 = false) by (apply Qeq_bool_false; lra).
  assert (Hp : Qltb 0 s = true) by (apply Qltb_true; exact Hs).
  assert (Hl : Qle_bool (0.5 * s) (inject_Z (Z.of_N dim)) = true)
    by (apply Qle_bool_iff; exact Hdim).
  destruct Hstride as [-> | ->]; simpl; rewrite Hd, Hp, Hl;
    now rewrite range_size_cell_count.
Qed.

Lemma range_values_cell_centers (s : Q) (dim : N) :
  Forall2 Qeq (range_values (0.5 * s) s (cell_count s dim)) (cell_centers s dim).
Proof.
  unfold range_values, cell_centers.
  induction (seq 0 (cell_count s dim)) as [|i l IH]; simpl; constructor.
  - ring.
  - exact IH.
Qed.

(** The half heights and half widths of a level with one size. *)
Lemma half_anchor_dims_single_size (g : _SingleAnchorGenerator)
  (sc size : Q) (ars : list Q) :
  scale g = Scalar sc ->
  sizes g = Vector [size] \/ sizes g = Scalar size ->
  aspect_ratios g = Vector ars ->
  half_anchor_dims tf_sqrt g
  = Ok (List.map (fun ar => 0.5 * (size * sc / tf_sqrt ar)) ars,
        List.map (fun ar => 0.5 * (size * sc * tf_sqrt ar)) ars).
Proof.
  intros Hsc Hsz Har. unfold half_anchor_dims. rewrite Hsc, Har.
  destruct Hsz as [-> | ->]; simpl; rewrite ?map_map; reflexivity.
Qed.

Lemma Forall2_flat_map_same {A B : Type} (R : B -> B -> Prop)
  (f f' : A -> list B) (l : list A) :
  (forall a, Forall2 R (f a) (f' a)) ->
  Forall2 R (flat_map f l) (flat_map f' l).
Proof.
  intros H. induction l as [|a l IH]; simpl; [constructor|].
  apply Forall2_app; auto.
Qed.

Lemma Forall2_map_same {A B : Type} (R : B -> B -> Prop)
  (f f' : A -> B) (l : list A) :
  (forall a, R (f a) (f' a)) -> Forall2 R (List.map f l) (List.map f' l).
Proof.
  intros H. induction l as [|a l IH]; simpl; constructor; auto.
Qed.

Lemma clip_compat (bound a b : Q) : a == b -> clip bound a == clip bound b.
Proof.
  intros E. unfold clip. now rewrite E.
Qed.

Lemma clip_box_compat (h w : N) (a b : box) :
  box_eq a b -> box_eq (clip_box h w a) (clip_box h w b).
Proof.
  intros (E1 & E2 & E3 & E4). unfold box_eq, clip_box; simpl.
  repeat split; now apply clip_compat.
Qed.

Lemma Forall2_map_compat {A : Type} (R : A -> A -> Prop) (f : A -> A)
  (l l' : list A) :
  (forall a b, R a b -> R (f a) (f b)) ->
  Forall2 R l l' -> Forall2 R (List.map f l) (List.map f l').
Proof.
  intros Hf H. induction H; simpl; constructor; auto.
Qed.

Lemma length_flat_map_const {A B : Type} (f : A -> list B) (l : list A)
  (n : nat) :
  (forall a, List.length (f a) = n) ->
  List.length (flat_map f l) = (List.length l * n)%nat.
Proof.
  intros H. induction l as [|a l IH]; simpl; [reflexivity|].
  now rewrite length_app, H, IH.
Qed.

(** What [call] returns on a level with one size and one stride. *)
Lemma call_single_size (g : _SingleAnchorGenerator) (sc size s : Q)
  (ars : list Q) (h w : N) :
  scale g = Scalar sc ->
  sizes g = Vector [size] \/ sizes g = Scalar size ->
  aspect_ratios g = Vector ars ->
  stride g = Vector [s] \/ stride g = Scalar s ->
  0 < s -> 0.5 * s <= inject_Z (Z.of_N h) -> 0.5 * s <= inject_Z (Z.of_N w) ->
  let cy := range_values (0.5 * s) s (cell_count s h) in
  let cx := range_values (0.5 * s) s (cell_count s w) in
  let raw :=
    flat_map
      (fun y =>
         flat_map
           (fun x =>
              List.map
                (fun ar =>
                   Box (y - 0.5 * (size * sc / tf_sqrt ar))
                       (x - 0.5 * (size * sc * tf_sqrt ar))
                       (y + 0.5 * (size * sc / tf_sqrt ar))
                       (x + 0.5 * (size * sc * tf_sqrt ar)))
                ars)
           cx)
      cy in
  call tf_sqrt g (h, w)
  = Ok (if clip_boxes g then List.map (clip_box h w) raw else raw).
Proof.
  intros Hsc Hsz Har Hst Hs Hh Hw cy cx raw. unfold call.
  rewrite (half_anchor_dims_single_size g sc size ars Hsc Hsz Har).
  simpl fst; simpl snd; simpl bind.
  rewrite (centers_single_stride g s w Hst Hs Hw).
  rewrite (centers_single_stride g s h Hst Hs Hh).
  simpl bind.
  destruct (clip_boxes g).
  - rewrite concat_columns_clip, concat_columns_grid. reflexivity.
  - rewrite concat_columns_grid. reflexivity.
Qed.

(** C2 (amended). On a level with one size, one stride [s > 0] and an image
    that holds at least the first centre ([0.5 * s <= h, w]), the generator
    returns exactly
    [ceil((h - 0.5 s) / s) * ceil((w - 0.5 s) / s) * len(sizes) * len(aspect_ratios)]
    anchors, and its centres along each axis are [s * (0.5 + i)] for
    [i = 0 .. ceil((dim - 0.5 s) / s) - 1]. *)
Theorem anchor_count_of_level (g : _SingleAnchorGenerator) (sc size s : Q)
  (ars : list Q) (h w : N) :
  scale g = Scalar sc ->
  sizes g = Vector [size] \/ sizes g = Scalar size ->
  aspect_ratios g = Vector ars ->
  stride g = Vector [s] \/ stride g = Scalar s ->
  0 < s -> 0.5 * s <= inject_Z (Z.of_N h) -> 0.5 * s <= inject_Z (Z.of_N w) ->
  exists cy cx boxes,
    centers g (inject_Z (Z.of_N h)) = Ok cy /\ Forall2 Qeq cy (cell_centers s h) /\
    centers g (inject_Z (Z.of_N w)) = Ok cx /\ Forall2 Qeq cx (cell_centers s w) /\
    call tf_sqrt g (h, w) = Ok boxes /\
    List.length boxes
    = (cell_count s h * cell_count s w
       * (List.length [size] * List.length ars))%nat.
Proof.
  intros Hsc Hsz Har Hst Hs Hh Hw.
  eexists _, _, _.
  split; [exact (centers_single_stride g s h Hst Hs Hh)|].
  split; [apply range_values_cell_centers|].
  split; [exact (centers_single_stride g s w Hst Hs Hw)|].
  split; [apply range_values_cell_centers|].
  split; [apply (call_single_size g sc size s ars h w); assumption|].
  destruct (clip_boxes g); rewrite ?length_map;
    rewrite (length_flat_map_const _ _ (cell_count s w * List.length ars));
    unfold range_values; rewrite ?length_map, ?length_seq; simpl; try lia;
    intros y; rewrite (length_flat_map_const _ _ (List.length ars));
    rewrite ?length_map, ?length_seq; try reflexivity;
    intros x; apply length_map.
Qed.

(** On a level with one size, one stride [s > 0] and an image that holds
    the first centre, the generator emits, for every cell centre
    [(cy, cx)] in row-major order, one anchor per (size, aspect ratio) pair
    with [height = size * scale / sqrt(ratio)] and
    [width = size * scale * sqrt(ratio)], the box
    [[cy - height/2, cx - width/2, cy + height/2, cx + width/2]] in absolute
    image coordinates, each coordinate clamped when [clip_boxes] is set. *)
Theorem anchors_of_level (g : _SingleAnchorGenerator) (sc size s : Q)
  (ars : list Q) (h w : N) :
  scale g = Scalar sc ->
  sizes g = Vector [size] \/ sizes g = Scalar size ->
  aspect_ratios g = Vector ars ->
  stride g = Vector [s] \/ stride g = Scalar s ->
  0 < s -> 0.5 * s <= inject_Z (Z.of_N h) -> 0.5 * s <= inject_Z (Z.of_N w) ->
  exists cy cx boxes,
    centers g (inject_Z (Z.of_N h)) = Ok cy /\
    centers g (inject_Z (Z.of_N w)) = Ok cx /\
    call tf_sqrt g (h, w) = Ok boxes /\
    Forall2 box_eq boxes
      (let expected := cross_product_anchors tf_sqrt [size] sc ars cy cx in
       if clip_boxes g then List.map (clip_box h w) expected else expected).
Proof.
  intros Hsc Hsz Har Hst Hs Hh Hw.
  eexists _, _, _.
  split; [exact (centers_single_stride g s h Hst Hs Hh)|].
  split; [exact (centers_single_stride g s w Hst Hs Hw)|].
  split; [apply (call_single_size g sc size s ars h w); assumption|].
  cbv zeta.
  assert (Hraw : forall cy cx : list Q,
    Forall2 box_eq
      (flat_map
         (fun y =>
            flat_map
              (fun x =>
                 List.map
                   (fun ar =>
                      Box (y - 0.5 * (size * sc / tf_sqrt ar))
                          (x - 0.5 * (size * sc * tf_sqrt ar))
                          (y + 0.5 * (size * sc / tf_sqrt ar))
                          (x + 0.5 * (size * sc * tf_sqrt ar)))
                   ars)
              cx)
         cy)
      (cross_product_anchors tf_sqrt [size] sc ars cy cx)).
  { intros cy cx. unfold cross_product_anchors.
    apply Forall2_flat_map_same; intros y.
    apply Forall2_flat_map_same; intros x.
    simpl. rewrite app_nil_r.
    apply Forall2_map_same; intros ar.
    unfold box_eq, anchor_at; simpl.
    generalize (size * sc / tf_sqrt ar) (size * sc * tf_sqrt ar).
    intros height width. repeat split; field. }
  destruct (clip_boxes g).
  - apply Forall2_map_compat; [apply clip_box_compat | apply Hraw].
  - apply Hraw.
Qed.

(** [tf.range] takes one stride: a level that holds several raises on
    every image. *)
Lemma call_raises_on_several_strides (g : _SingleAnchorGenerator)
  (strides : list Q) (image_size : N * N) :
  stride g = Vector strides -> (2 <= List.length strides)%nat ->
  exists e, call tf_sqrt g image_size = Raise e.
Proof.
  intros Hst Hlen. unfold call.
  destruct (half_anchor_dims tf_sqrt g) as [[hh hw]|e]; cbn [bind];
    [|eexists; reflexivity].
  unfold centers. rewrite Hst.
  destruct strides as [|a [|b l]]; simpl in Hlen; try lia.
  eexists. reflexivity.
Qed.





End SingleGeneratorFacts.

(** ** Dictionaries *)

Lemma get_in_keys {V : Type} (d : Dict.dict V) (k : string) :
  In k (Dict.keys d) -> exists v, Dict.get d k = Some v.
Proof.
  induction d as [|[k' v'] d IH]; simpl; [tauto|].
  intros [-> | Hin].
  - rewrite String.eqb_refl. eauto.
  - destruct (String.eqb k k'); eauto.
Qed.

Lemma get_some_in_keys {V : Type} (d : Dict.dict V) (k : string) (v : V) :
  Dict.get d k = Some v -> In k (Dict.keys d).
Proof.
  induction d as [|[k' v'] d IH]; simpl; [discriminate|].
  destruct (String.eqb k k') eqn:E.
  - apply String.eqb_eq in E. subst. auto.
  - auto.
Qed.

Lemma get_some_in {V : Type} (d : Dict.dict V) (k : string) (v : V) :
  Dict.get d k = Some v -> In (k, v) d.
Proof.
  induction d as [|[k' v'] d IH]; simpl; [discriminate|].
  destruct (String.eqb k k') eqn:E.
  - apply String.eqb_eq in E. subst. intros [= ->]. now left.
  - auto.
Qed.

Lemma set_fresh {V : Type} (d : Dict.dict V) (k : string) (v : V) :
  ~ In k (Dict.keys d) -> Dict.set d k v = (d ++ [(k, v)])%list.
Proof.
  induction d as [|[k' v'] d IH]; simpl; [reflexivity|].
  intros Hnot. destruct (String.eqb k k') eqn:E.
  - apply String.eqb_eq in E. subst. tauto.
  - rewrite IH by tauto. reflexivity.
Qed.

Lemma get_app_fresh {V : Type} (d d' : Dict.dict V) (k : string) :
  ~ In k (Dict.keys d) -> Dict.get (d ++ d')%list k = Dict.get d' k.
Proof.
  induction d as [|[k' v'] d IH]; simpl; [reflexivity|].
  intros Hnot. destruct (String.eqb k k') eqn:E.
  - apply String.eqb_eq in E. subst. tauto.
  - apply IH. tauto.
Qed.

Lemma keys_eqb_refl (l : list string) : Dict.keys_eqb l l = true.
Proof.
  induction l as [|x l IH]; simpl; [reflexivity|].
  now rewrite String.eqb_refl, IH.
Qed.

Lemma keys_eqb_eq (a b : list string) : Dict.keys_eqb a b = true -> a = b.
Proof.
  revert b. induction a as [|x a IH]; intros [|y b]; simpl;
    try discriminate; [reflexivity|].
  intros H. apply andb_true_iff in H as [Hx Hab].
  apply String.eqb_eq in Hx. subst. f_equal. auto.
Qed.

Lemma in_insert_sorted (k x : string) (l : list string) :
  In x (Dict.insert_sorted k l) <-> x = k \/ In x l.
Proof.
  induction l as [|y l IH]; simpl.
  - intuition.
  - destruct (String.leb k y); simpl; rewrite ?IH; intuition.
Qed.

Lemma in_sorted (x : string) (l : list string) :
  In x (Dict.sorted l) <-> In x l.
Proof.
  unfold Dict.sorted. induction l as [|y l IH]; simpl; [tauto|].
  rewrite in_insert_sorted, IH. intuition.
Qed.

(** ** The constructor of [AnchorGenerator] *)

Section ConstructorFacts.

Variable repr_list : list Q -> string.
Variable repr_keys : list string -> string.
Variable repr_param : level_param -> string.

(** A successful broadcast has exactly the level keys of [scales]. *)
Lemma broadcast_keys (param : level_param) (name : string)
  (scales : Dict.dict tensor) (d : Dict.dict (list Q)) (k : string) :
  _broadcast_parameter_to_scales repr_keys repr_param param name scales = Ok d ->
  (In k (Dict.keys d) <-> In k (Dict.keys scales)).
Proof.
  unfold _broadcast_parameter_to_scales. intros H.
  assert (Hgen : forall p : Dict.dict (list Q),
    (if negb (Dict.keys_eqb (Dict.sorted (Dict.keys scales))
                            (Dict.sorted (Dict.keys p)))
     then Raise (ValueError
            ("Expected `" ++ name ++ "` to contain the same keys as `scales`. "
             ++ "Received `scales.keys()=" ++ repr_keys (Dict.keys scales) ++ "`, "
             ++ "`" ++ name ++ ".keys()=" ++ repr_keys (Dict.keys p) ++ "`."))
     else Ok p) = Ok d ->
    (In k (Dict.keys d) <-> In k (Dict.keys scales))).
  { intros p Hp.
    destruct (Dict.keys_eqb (Dict.sorted (Dict.keys scales))
                            (Dict.sorted (Dict.keys p))) eqn:E;
      simpl in Hp; [|discriminate].
    injection Hp as <-. apply keys_eqb_eq in E.
    rewrite <- (in_sorted k (Dict.keys p)), <- E. apply in_sorted. }
  destruct param; [apply (Hgen _ H) | apply (Hgen _ H) | discriminate].
Qed.

Lemma names_level_message (level : string) (a b : list Q) :
  names_level (sizes_strides_message repr_list level a b) level.
Proof.
  unfold names_level, sizes_strides_message.
  exists "Expected `sizes` and `strides` to be of the same length. At level ".
  exists (" sizes=" ++ repr_list a ++ ", strides=" ++ repr_list b ++ ". "
          ++ "Please ensure that `sizes` and `strides` match all levels.").
  reflexivity.
Qed.

(** The validation stops at the first level, in the order of [sizes], whose
    two lists differ in length. *)
Lemma validate_raises (sizes strides : Dict.dict (list Q)) :
  (forall k, In k (Dict.keys sizes) -> In k (Dict.keys strides)) ->
  (exists level a b,
      Dict.get sizes level = Some a /\ Dict.get strides level = Some b /\
      List.length a <> List.length b) ->
  exists level a b,
    _validate_sizes_and_strides repr_list sizes strides
    = Raise (ValueError (sizes_strides_message repr_list level a b)) /\
    Dict.get sizes level = Some a /\ Dict.get strides level = Some b /\
    List.length a <> List.length b.
Proof.
  intros Hkeys (level & a & b & Ha & Hb & Hneq).
  unfold _validate_sizes_and_strides.
  assert (Hin : In level (Dict.keys sizes)) by (eapply get_some_in_keys; eauto).
  assert (Hsub : forall k, In k (Dict.keys sizes) -> In k (Dict.keys sizes))
    by auto.
  revert Hin Hsub. generalize (Dict.keys sizes) at 1 2 4 as ks.
  induction ks as [|k ks IH]; intros Hin Hsub; [destruct Hin|].
  simpl for_each.
  destruct (get_in_keys sizes k (Hsub k (or_introl eq_refl))) as [a' Ha'].
  destruct (get_in_keys strides k (Hkeys k (Hsub k (or_introl eq_refl))))
    as [b' Hb'].
  unfold Dict.getitem at 1 2. rewrite Ha', Hb'. simpl bind.
  destruct (Nat.eqb (List.length a') (List.length b')) eqn:E; simpl.
  - apply Nat.eqb_eq in E. destruct Hin as [-> | Hin].
    + rewrite Ha in Ha'. rewrite Hb in Hb'.
      injection Ha' as <-. injection Hb' as <-. contradiction.
    + apply IH; [exact Hin | intros; apply Hsub; now right].
  - apply Nat.eqb_neq in E. exists k, a', b'. auto.
Qed.

(** C7. When, after broadcasting, some level has [len(sizes) != len(strides)],
    the constructor raises a [ValueError] and builds no generator; the
    message quotes the key of a level whose lengths differ. *)
Theorem mismatched_sizes_and_strides_rejected (fmt : string)
  (sizes : level_param) (scales : scales_param)
  (aspect_ratios strides : level_param) (clip : bool)
  (scales_d : Dict.dict tensor) (sizes_d strides_d : Dict.dict (list Q)) :
  _pack_parameter_to_dict scales "scales" = Ok scales_d ->
  _broadcast_parameter_to_scales repr_keys repr_param sizes "sizes" scales_d
  = Ok sizes_d ->
  _broadcast_parameter_to_scales repr_keys repr_param strides "strides" scales_d
  = Ok strides_d ->
  (exists level a b,
      Dict.get sizes_d level = Some a /\ Dict.get strides_d level = Some b /\
      List.length a <> List.length b) ->
  exists level a b msg,
    __init__ repr_list repr_keys repr_param fmt sizes scales aspect_ratios
             strides clip
    = Raise (ValueError msg) /\
    names_level msg level /\
    Dict.get sizes_d level = Some a /\ Dict.get strides_d level = Some b /\
    List.length a <> List.length b.
Proof.
  intros Hpack Hsizes Hstrides Hbad.
  destruct (validate_raises sizes_d strides_d) as (level & a & b & Hv & Ha & Hb & Hneq).
  - intros k Hk.
    apply (broadcast_keys _ _ _ _ k Hstrides).
    apply (broadcast_keys _ _ _ _ k Hsizes). exact Hk.
  - exact Hbad.
  - exists level, a, b, (sizes_strides_message repr_list level a b).
    split; [|split; [apply names_level_message | auto]].
    unfold __init__. rewrite Hpack. simpl bind.
    rewrite Hsizes. simpl bind. rewrite Hstrides. simpl bind.
    rewrite Hv. reflexivity.
Qed.

Lemma level_name_inj (i j : nat) : level_name i = level_name j -> i = j.
Proof.
  unfold level_name. intros H. simpl in H. injection H as H.
  apply (f_equal NilEmpty.uint_of_string) in H.
  rewrite !NilEmpty.usu in H. injection H as H.
  apply (f_equal Nat.of_uint) in H.
  now rewrite !DecimalNat.Unsigned.of_to in H.
Qed.

Lemma level_name_fresh (a : nat) :
  ~ In (level_name a) (List.map level_name (seq 0 a)).
Proof.
  intros Hin. apply in_map_iff in Hin as (i & Hi & Hseq).
  apply level_name_inj in Hi. subst. apply in_seq in Hseq. lia.
Qed.

Lemma nth_error_skipn_cons {A : Type} (xs : list A) (a : nat) (x : A) :
  nth_error xs a = Some x -> skipn a xs = x :: skipn (S a) xs.
Proof.
  revert a. induction xs as [|y xs IH]; intros [|a]; simpl;
    try discriminate.
  - now intros [= ->].
  - intros H. apply (IH a H).
Qed.

Lemma pack_loop (xs : list tensor) (m a : nat) (acc : Dict.dict tensor) :
  (a + m = List.length xs)%nat ->
  Dict.keys acc = List.map level_name (seq 0 a) ->
  for_each (seq a m)
    (fun i result =>
       match nth_error xs i with
       | Some x => Ok (Dict.set result (level_name i) x)
       | None => Raise (IndexError "list index out of range")
       end)
    acc
  = Ok (acc ++ List.map (fun '(i, x) => (level_name i, x))
                        (combine (seq a m) (skipn a xs)))%list.
Proof.
  revert a acc. induction m as [|m IH]; intros a acc Hlen Hkeys.
  - simpl. now rewrite app_nil_r.
  - simpl for_each.
    destruct (nth_error xs a) as [x|] eqn:Hx.
    + simpl bind. rewrite set_fresh
        by (rewrite Hkeys; apply level_name_fresh).
      rewrite IH.
      * rewrite (nth_error_skipn_cons xs a x Hx). simpl.
        now rewrite <- app_assoc.
      * lia.
      * unfold Dict.keys in *. rewrite map_app, Hkeys, seq_S, map_app.
        reflexivity.
    + apply nth_error_None in Hx. lia.
Qed.

(** Packing a list of scales names the levels [level_0 .. level_{n-1}]. *)
Lemma pack_list (xs : list tensor) (name : string) :
  _pack_parameter_to_dict (ScalesList xs) name
  = Ok (List.map (fun '(i, x) => (level_name i, x))
                 (combine (seq 0 (List.length xs)) xs)).
Proof.
  unfold _pack_parameter_to_dict.
  exact (pack_loop xs (List.length xs) 0 [] eq_refl eq_refl).
Qed.

Lemma keys_numbered {V W : Type} (f : nat -> V -> W) (xs : list V) (a : nat) :
  List.map fst (List.map (fun '(i, x) => (level_name i, f i x))
                         (combine (seq a (List.length xs)) xs))
  = List.map level_name (seq a (List.length xs)).
Proof.
  revert a. induction xs as [|x xs IH]; intros a; simpl; [reflexivity|].
  now rewrite IH.
Qed.

Lemma NoDup_level_names (a n : nat) : NoDup (List.map level_name (seq a n)).
Proof.
  apply Injective_map_NoDup; [|apply seq_NoDup].
  intros i j. apply level_name_inj.
Qed.

Lemma broadcast_loop (xs : list Q) (ks : list string)
  (acc : Dict.dict (list Q)) :
  NoDup ks -> (forall k, In k ks -> ~ In k (Dict.keys acc)) ->
  fold_left (fun result key => Dict.set result key xs) ks acc
  = (acc ++ List.map (fun k => (k, xs)) ks)%list.
Proof.
  revert acc. induction ks as [|k ks IH]; intros acc Hnd Hfresh; simpl.
  - now rewrite app_nil_r.
  - inversion Hnd as [|? ? Hk Hnd']; subst.
    rewrite set_fresh by (apply Hfresh; now left).
    rewrite IH; [now rewrite <- app_assoc | exact Hnd' |].
    intros k' Hk'. unfold Dict.keys. rewrite map_app, in_app_iff. simpl.
    intros [Hin | [-> | []]].
    + apply (Hfresh k'); [now right | exact Hin].
    + contradiction.
Qed.

(** Broadcasting a flat list hands the whole list to every level. *)
Lemma broadcast_list (xs : list Q) (name : string) (scales : Dict.dict tensor) :
  NoDup (Dict.keys scales) ->
  _broadcast_parameter_to_scales repr_keys repr_param (ParamList xs) name scales
  = Ok (List.map (fun k => (k, xs)) (Dict.keys scales)).
Proof.
  intros Hnd. unfold _broadcast_parameter_to_scales.
  rewrite broadcast_loop by (auto; intros ? ? []). simpl app.
  assert (Hk : Dict.keys (List.map (fun k => (k, xs)) (Dict.keys scales))
               = Dict.keys scales).
  { unfold Dict.keys. rewrite map_map. simpl. apply map_id. }
  rewrite Hk, keys_eqb_refl. reflexivity.
Qed.

Lemma get_constant {V : Type} (ks : list string) (v : V) (k : string) :
  In k ks -> Dict.get (List.map (fun k => (k, v)) ks) k = Some v.
Proof.
  induction ks as [|k' ks IH]; simpl; [tauto|].
  intros [-> | Hin].
  - now rewrite String.eqb_refl.
  - destruct (String.eqb k k'); auto.
Qed.

Lemma validate_flat (ks : list string) (sizes strides : list Q) :
  List.length sizes = List.length strides ->
  _validate_sizes_and_strides repr_list
    (List.map (fun k => (k, sizes)) ks) (List.map (fun k => (k, strides)) ks)
  = Ok tt.
Proof.
  intros Hlen. unfold _validate_sizes_and_strides.
  assert (Hk : Dict.keys (List.map (fun k => (k, sizes)) ks) = ks).
  { unfold Dict.keys. rewrite map_map. simpl. apply map_id. }
  rewrite Hk.
  assert (Hsub : forall k, In k ks -> In k ks) by auto.
  revert Hsub. generalize ks at 1 3 as todo.
  induction todo as [|k todo IH]; intros Hsub; [reflexivity|].
  simpl for_each. unfold Dict.getitem.
  rewrite !get_constant by (apply Hsub; now left). simpl bind.
  rewrite Hlen, Nat.eqb_refl. simpl. apply IH.
  intros; apply Hsub; now right.
Qed.

Lemma build_loop (scales : Dict.dict tensor) (sizes ars strides : list Q)
  (clip : bool) (todo done : Dict.dict tensor) :
  let F := fun '(k, s) =>
    (k, Build_SingleAnchorGenerator s (Vector sizes) (Vector ars)
          (Vector strides) clip) in
  scales = (done ++ todo)%list -> NoDup (Dict.keys scales) ->
  for_each (Dict.keys todo)
    (fun level anchor_generators =>
       scale <- Dict.getitem scales level ;;
       sizes_at_level <-
         Dict.getitem (List.map (fun k => (k, sizes)) (Dict.keys scales)) level ;;
       aspect_ratios_at_level <-
         Dict.getitem (List.map (fun k => (k, ars)) (Dict.keys scales)) level ;;
       strides_at_level <-
         Dict.getitem (List.map (fun k => (k, strides)) (Dict.keys scales)) level ;;
       Ok (Dict.set anchor_generators level
             (Build_SingleAnchorGenerator scale (Vector sizes_at_level)
                (Vector aspect_ratios_at_level) (Vector strides_at_level) clip)))
    (List.map F done)
  = Ok (List.map F scales).
Proof.
  intros F. revert done. induction todo as [|[k s] todo IH];
    intros done Heq Hnd.
  - simpl. rewrite app_nil_r in Heq. now subst.
  - simpl for_each.
    assert (Hkeys : Dict.keys scales
                    = (Dict.keys done ++ k :: Dict.keys todo)%list).
    { subst scales. unfold Dict.keys. now rewrite map_app. }
    assert (Hfresh : ~ In k (Dict.keys done)).
    { rewrite Hkeys in Hnd. apply NoDup_remove_2 in Hnd.
      rewrite in_app_iff in Hnd. tauto. }
    assert (Hin : In k (Dict.keys scales)).
    { rewrite Hkeys, in_app_iff. right. now left. }
    unfold Dict.getitem.
    rewrite !get_constant by exact Hin.
    assert (Hget : Dict.get scales k = Some s).
    { subst scales. rewrite get_app_fresh by exact Hfresh.
      simpl. now rewrite String.eqb_refl. }
    rewrite Hget. simpl bind.
    rewrite set_fresh.
    + replace (List.map F done ++ [(k, Build_SingleAnchorGenerator s
                 (Vector sizes) (Vector ars) (Vector strides) clip)])%list
        with (List.map F (done ++ [(k, s)])%list)
        by (now rewrite map_app).
      apply IH; [|exact Hnd]. rewrite <- app_assoc. exact Heq.
    + unfold Dict.keys. rewrite map_map.
      assert (E : List.map (fun x => fst (F x)) done = List.map fst done).
      { apply map_ext. now intros [? ?]. }
      rewrite E. exact Hfresh.
Qed.

(** With flat-list parameters whose [sizes] and [strides] have the same
    length, the constructor builds one level per entry of [scales], named
    [level_0 .. level_{n-1}] in input order; the generator of level [i]
    holds the single scale [scales[i]] and the whole [sizes],
    [aspect_ratios] and [strides] lists. *)
Theorem flat_lists_give_one_level_per_scale (fmt : string)
  (scales : list tensor) (sizes aspect_ratios strides : list Q) (clip : bool) :
  List.length sizes = List.length strides ->
  __init__ repr_list repr_keys repr_param fmt (ParamList sizes)
    (ScalesList scales) (ParamList aspect_ratios) (ParamList strides) clip
  = Ok (Build_AnchorGenerator fmt
          (flat_levels scales sizes aspect_ratios strides clip)).
Proof.
  intros Hlen. unfold __init__. rewrite pack_list. cbn [bind].
  set (scales_d := List.map (fun '(i, x) => (level_name i, x))
                            (combine (seq 0 (List.length scales)) scales)).
  assert (Hkeys : Dict.keys scales_d
                  = List.map level_name (seq 0 (List.length scales))).
  { unfold scales_d, Dict.keys.
    apply (keys_numbered (fun _ x => x) scales 0). }
  assert (Hnd : NoDup (Dict.keys scales_d)).
  { rewrite Hkeys. apply NoDup_level_names. }
  rewrite !broadcast_list by exact Hnd. cbn [bind].
  rewrite validate_flat by exact Hlen. cbn [bind].
  pose proof (build_loop scales_d sizes aspect_ratios strides clip scales_d []
                eq_refl Hnd) as Hbuild.
  cbv zeta in Hbuild. change (@List.map (string * tensor) _ _ []) with
    (@nil (string * _SingleAnchorGenerator)) in Hbuild.
  rewrite Hbuild. cbn [bind]. f_equal. f_equal. unfold flat_levels, scales_d.
  rewrite map_map. apply map_ext. now intros [i s].
Qed.

(** C10. Flat lists are packed as the claim says: one level per entry of
    [scales], named [level_0 .. level_{n-1}] in input order, each holding
    the whole [sizes], [aspect_ratios] and [strides] lists.  With two or
    more sizes (and so as many strides) the generator of every level then
    raises on every image: no level generates the cross product of its
    sizes and aspect ratios. *)
Theorem flat_list_levels_raise_on_several_strides (tf_sqrt : Q -> Q)
  (fmt : string) (scales : list tensor) (sizes aspect_ratios strides : list Q)
  (clip : bool) :
  List.length sizes = List.length strides ->
  (2 <= List.length strides)%nat ->
  exists ag,
    __init__ repr_list repr_keys repr_param fmt (ParamList sizes)
      (ScalesList scales) (ParamList aspect_ratios) (ParamList strides) clip
    = Ok ag /\
    Dict.keys (anchor_generators ag)
    = List.map level_name (seq 0 (List.length scales)) /\
    forall (level : string) (g : _SingleAnchorGenerator) (image_size : N * N),
      Dict.get (anchor_generators ag) level = Some g ->
      ScaleBasedAnchorGenerator.sizes g = Vector sizes /\
      ScaleBasedAnchorGenerator.aspect_ratios g = Vector aspect_ratios /\
      stride g = Vector strides /\
      exists e, call tf_sqrt g image_size = Raise e.
Proof.
  intros Hlen Hmany. eexists.
  split; [apply flat_lists_give_one_level_per_scale; exact Hlen|].
  cbn [anchor_generators]. split.
  - unfold flat_levels, Dict.keys.
    apply (keys_numbered
             (fun _ scale =>
                Build_SingleAnchorGenerator scale (Vector sizes)
                  (Vector aspect_ratios) (Vector strides) clip)
             scales 0).
  - intros level g image_size Hget.
    apply get_some_in in Hget. unfold flat_levels in Hget.
    apply in_map_iff in Hget. destruct Hget as ([i scale] & Heq & _).
    injection Heq as _ <-. cbn.
    repeat (split; [reflexivity|]).
    apply (call_raises_on_several_strides tf_sqrt _ strides); [reflexivity|].
    exact Hmany.
Qed.

End ConstructorFacts.

(** ** The generator on examples *)

Lemma clipped_anchors_within_image_witness :
  exists boxes,
    call sqrt_exact example_level (16%N, 16%N) = Ok boxes /\
    boxes <> [] /\
    Forall (within_image 16 16) boxes /\
    exists raw,
      call sqrt_exact
        (Build_SingleAnchorGenerator (Scalar 1) (Vector [32]) (Vector [1; 4])
           (Vector [8]) false) (16%N, 16%N) = Ok raw /\
      Forall2 (clamped_box 16 16) raw boxes.
Proof.
  eexists. split; [vm_compute; reflexivity|]. split; [discriminate|].
  apply (clipped_anchors_within_image sqrt_exact example_level 16 16);
    reflexivity.
Defined.

Lemma anchor_count_of_level_witness :
  exists boxes,
    call sqrt_exact example_level (16%N, 16%N) = Ok boxes /\
    List.length boxes = 8%nat.
Proof.
  destruct (anchor_count_of_level sqrt_exact example_level 1 32 8 [1; 4] 16 16
              eq_refl (or_introl eq_refl) eq_refl (or_introl eq_refl))
    as (cy & cx & boxes & _ & _ & _ & _ & Hcall & Hlen);
    try reflexivity; try (vm_compute; discriminate).
  exists boxes. split; [exact Hcall|]. rewrite Hlen. reflexivity.
Defined.

(** At 12 x 12 with stride 8 the only centre below 12 is 4: one anchor,
    where [ceil(12/8) * ceil(12/8) * 1 * 1] is 4. *)
Lemma anchor_count_claim_fails :
  exists boxes,
    call sqrt_exact example_level_one_ratio (12%N, 12%N) = Ok boxes /\
    List.length boxes
    <> (ceil_div 12 8 * ceil_div 12 8
        * (List.length [32] * List.length [1]))%nat.
Proof.
  eexists. split; [vm_compute; reflexivity|]. vm_compute. discriminate.
Qed.

Lemma anchors_of_level_witness :
  exists cy cx boxes,
    centers example_level 16 = Ok cy /\ centers example_level 16 = Ok cx /\
    call sqrt_exact example_level (16%N, 16%N) = Ok boxes /\
    Forall2 box_eq boxes
      (List.map (clip_box 16 16)
         (cross_product_anchors sqrt_exact [32] 1 [1; 4] cy cx)).
Proof.
  apply (anchors_of_level sqrt_exact example_level 1 32 8 [1; 4] 16 16
           eq_refl (or_introl eq_refl) eq_refl (or_introl eq_refl));
    try reflexivity; vm_compute; discriminate.
Defined.


(** Two sizes against two aspect ratios are paired entry by entry: the cell
    at centre (4, 4) gets the anchors of (32, 1) and (64, 4) and none for
    the pair (32, 4).  Through the constructor, a level with two sizes has
    two strides, and its generator raises instead of emitting anchors. *)
Lemma anchors_claim_fails :
  (exists boxes,
      call sqrt_exact example_two_sizes (8%N, 8%N) = Ok boxes /\
      List.length boxes = 2%nat /\
      ~ Exists (box_eq (anchor_at sqrt_exact 32 1 4 4 4)) boxes) /\
  (exists ag g e,
      example_levels_two_sizes = Ok ag /\
      Dict.get (anchor_generators ag) "l1" = Some g /\
      call sqrt_exact g (8%N, 8%N) = Raise e).
Proof.
  split.
  - eexists. split; [vm_compute; reflexivity|]. split; [reflexivity|].
    rewrite !Exists_cons, Exists_nil. unfold box_eq, anchor_at. simpl.
    intros [H | [H | []]]; destruct H as (H & _); vm_compute in H;
      discriminate.
  - eexists _, _, _. split; [vm_compute; reflexivity|].
    split; [vm_compute; reflexivity|]. vm_compute. reflexivity.
Qed.

Lemma mismatched_sizes_and_strides_rejected_witness :
  exists level msg,
    example_mismatch = Raise (ValueError msg) /\ names_level msg level.
Proof.
  destruct (mismatched_sizes_and_strides_rejected show_list show_keys show_param
              "yxyx"
              (ParamDict [("l1", [32; 64; 128; 256; 512])])
              (ScalesDict [("l1", Scalar 1)])
              (ParamList [0.5; 1; 2])
              (ParamDict [("l1", [5; 10; 100])])
              false
              [("l1", Scalar 1)]
              [("l1", [32; 64; 128; 256; 512])]
              [("l1", [5; 10; 100])])
    as (level & a & b & msg & Hraise & Hnames & _).
  - reflexivity.
  - reflexivity.
  - reflexivity.
  - exists "l1", [32; 64; 128; 256; 512], [5; 10; 100].
    repeat split. simpl. discriminate.
  - exists level, msg. split; assumption.
Defined.

Lemma flat_lists_give_one_level_per_scale_witness :
  example_flat
  = Ok (Build_AnchorGenerator "yxyx"
          (flat_levels [Scalar 1; Scalar 2; Scalar 4] [32] [1; 4] [8] false)).
Proof.
  apply (flat_lists_give_one_level_per_scale show_list show_keys show_param).
  reflexivity.
Defined.

(** Flat lists with two sizes (and so two strides): the level is built, but
    its generator raises on every image, so it generates no anchors, let
    alone the four per cell of the cross product. *)
Lemma flat_lists_cross_product_fails :
  exists ag g,
    example_flat_two_sizes = Ok ag /\
    Dict.get (anchor_generators ag) "level_0" = Some g /\
    sizes g = Vector [32; 64] /\ aspect_ratios g = Vector [1; 4] /\
    forall h w boxes, call sqrt_exact g (h, w) <> Ok boxes.
Proof.
  eexists _, _. split; [vm_compute; reflexivity|].
  split; [vm_compute; reflexivity|].
  split; [reflexivity|]. split; [reflexivity|].
  intros h w boxes. unfold call. simpl. discriminate.
Qed.

(** The configuration of [test_relative_generation] on its 512 x 512
    image: three levels, and each of them raises. *)
Lemma flat_list_levels_raise_on_several_strides_witness :
  exists ag,
    example_relative_generation = Ok ag /\
    Dict.keys (anchor_generators ag) = ["level_0"; "level_1"; "level_2"] /\
    forall (level : string) (g : _SingleAnchorGenerator),
      Dict.get (anchor_generators ag) level = Some g ->
      exists e, call sqrt_exact g (512%N, 512%N) = Raise e.
Proof.
  destruct (flat_list_levels_raise_on_several_strides
              show_list show_keys show_param sqrt_exact "rel_yxyx"
              [Scalar 1; Scalar 1.2599210498948732; Scalar 1.5874010519681994]
              [32; 64; 128] [0.5; 1; 2] [8; 16; 32] true eq_refl)
    as (ag & Hinit & Hkeys & Hcall).
  - simpl. lia.
  - exists ag. split; [exact Hinit|]. split; [exact Hkeys|].
    intros level g Hget.
    destruct (Hcall level g (512%N, 512%N) Hget) as (_ & _ & _ & Hraise).
    exact Hraise.
Defined.

(** ** The recall accumulators and their result *)

Import Recall.

Lemma wrap_small (z : Z) :
  (- 2 ^ 31 <= z < 2 ^ 31)%Z -> Int32.wrap z = z.
Proof.
  intros H. unfold Int32.wrap. rewrite Z.mod_small; lia.
Qed.

(** Counting the present categories stays within [int32]. *)
Lemma count_present_loop (gts : list Z) (acc : Z) :
  (0 <= acc)%Z -> (acc + Z.of_nat (List.length gts) < 2 ^ 31)%Z ->
  fold_left Int32.add
    (List.map Int32.of_bool (List.map (fun g => negb (Z.eqb g 0)) gts)) acc
  = (acc + Z.of_nat
             (List.length (filter (fun g => negb (Z.eqb g 0)) gts)))%Z.
Proof.
  revert acc. induction gts as [|g gts IH]; intros acc H0 Hlt; simpl.
  - lia.
  - simpl List.length in Hlt.
    destruct (Z.eqb g 0); simpl.
    + unfold Int32.add at 2. rewrite wrap_small by lia.
      rewrite IH by lia. lia.
    + unfold Int32.add at 2. rewrite wrap_small by lia.
      rewrite IH by lia. simpl List.length. lia.
Qed.

Lemma fold_left_Qplus (l : list Q) (a : Q) :
  fold_left Qplus l a == a + Qsum l.
Proof.
  revert a. induction l as [|x l IH]; intros a; simpl.
  - ring.
  - rewrite IH. ring.
Qed.

Lemma reduce_sum_finite (l : list Q) (a : Q) :
  fold_left Float.add (List.map Finite l) (Finite a)
  = Finite (fold_left Qplus l a).
Proof.
  revert a. induction l as [|x l IH]; intros a; simpl; [reflexivity|].
  apply IH.
Qed.

Lemma is_zero_inject_Z (z : Z) : is_zero (inject_Z z) = Z.eqb z 0.
Proof.
  unfold is_zero, Qeq_bool. simpl. rewrite Z.mul_1_r. reflexivity.
Qed.

Lemma divide_no_nan_counts (tp gt : Z) :
  divide_no_nan (of_int tp) (of_int gt)
  = Finite (if Z.eqb gt 0 then 0 else inject_Z tp / inject_Z gt).
Proof.
  unfold divide_no_nan, of_int, Float.div.
  rewrite is_zero_inject_Z. destruct (Z.eqb gt 0); reflexivity.
Qed.

(** The recalls of one threshold as the code computes them: a quotient per
    category, 0 where the category has no ground truth. *)
Lemma recalls_row (row gts : list Z) :
  List.map (fun '(tp, gt) => divide_no_nan tp gt)
           (combine (List.map of_int row) (List.map of_int gts))
  = List.map Finite
      (List.map (fun '(tp, gt) =>
                   if Z.eqb gt 0 then 0 else inject_Z tp / inject_Z gt)
                (combine row gts)).
Proof.
  revert gts. induction row as [|tp row IH]; intros [|gt gts];
    cbn [List.map combine]; try reflexivity.
  now rewrite divide_no_nan_counts, IH.
Qed.

(** Categories without ground truth add nothing to the sum of a row. *)
Lemma Qsum_present (row gts : list Z) :
  Qsum (List.map (fun '(tp, gt) =>
                    if Z.eqb gt 0 then 0 else inject_Z tp / inject_Z gt)
                 (combine row gts))
  == Qsum (present_recalls row gts).
Proof.
  unfold present_recalls.
  induction (combine row gts) as [|[tp gt] l IH]; simpl; [reflexivity|].
  destruct (Z.eqb gt 0); simpl; rewrite IH; ring.
Qed.

Lemma length_present_recalls (row gts : list Z) :
  List.length row = List.length gts ->
  List.length (present_recalls row gts)
  = List.length (filter (fun g => negb (Z.eqb g 0)) gts).
Proof.
  unfold present_recalls. rewrite length_map.
  revert gts. induction row as [|tp row IH]; intros [|gt gts]; simpl;
    try discriminate; [reflexivity|].
  intros [= Hlen]. destruct (Z.eqb gt 0); simpl; now rewrite IH.
Qed.

Lemma no_present_categories (gts : list Z) :
  forallb (fun gt => Z.eqb gt 0) gts = true <->
  List.length (filter (fun g => negb (Z.eqb g 0)) gts) = 0%nat.
Proof.
  induction gts as [|g gts IH]; simpl; [tauto|].
  destruct (Z.eqb g 0); simpl; [exact IH|]. split; discriminate.
Qed.

Lemma Qsum_compat (l l' : list Q) : Forall2 Qeq l l' -> Qsum l == Qsum l'.
Proof.
  induction 1 as [|x y l l' Hxy _ IH]; simpl; [reflexivity|].
  now rewrite Hxy, IH.
Qed.

Lemma Forall2_map_Forall {A B : Type} (P : A -> Prop) (R : B -> B -> Prop)
  (f g : A -> B) (l : list A) :
  Forall P l -> (forall a, P a -> R (f a) (g a)) ->
  Forall2 R (List.map f l) (List.map g l).
Proof.
  intros HP H. induction HP; simpl; constructor; auto.
Qed.

Lemma count_absent (gts : list Z) :
  forallb (fun gt => Z.eqb gt 0) gts = true ->
  Int32.reduce_sum
    (List.map Int32.of_bool (List.map (fun g => negb (Z.eqb g 0)) gts)) = 0%Z.
Proof.
  unfold Int32.reduce_sum. induction gts as [|g gts IH]; simpl;
    [reflexivity|].
  destruct (Z.eqb g 0); simpl; [exact IH | discriminate].
Qed.

(** Without ground truth in any category the result is the constant 0. *)
Lemma result_without_ground_truth (st : metric_state) :
  forallb (fun gt => Z.eqb gt 0) (ground_truth_boxes st) = true ->
  result st = Finite 0.
Proof.
  intros H. unfold result. rewrite (count_absent _ H). reflexivity.
Qed.

Lemma forallb_zeros_like (v : list Z) :
  forallb (fun gt => Z.eqb gt 0) (zeros_like v) = true.
Proof.
  induction v; simpl; auto.
Qed.

Lemma forallb_repeat_zero (n : nat) :
  forallb (fun gt => Z.eqb gt 0) (repeat 0%Z n) = true.
Proof.
  induction n; simpl; auto.
Qed.

(** The value of [result] when some category has ground truth. *)
Lemma result_with_ground_truth (st : metric_state) :
  well_shaped st ->
  forallb (fun gt => Z.eqb gt 0) (ground_truth_boxes st) = false ->
  exists q, result st = Finite q /\ q == mean_recall st.
Proof.
  intros (Hrows & Hshape & Hfit) Hsome.
  set (gts := ground_truth_boxes st) in *.
  set (n := Z.of_nat (List.length (filter (fun g => negb (Z.eqb g 0)) gts))).
  assert (Hn : n <> 0%Z).
  { unfold n. intros E.
    assert (E' : List.length (filter (fun g => negb (Z.eqb g 0)) gts) = 0%nat)
      by lia.
    apply no_present_categories in E'. congruence. }
  unfold result. fold gts. unfold Int32.reduce_sum.
  rewrite count_present_loop by lia. rewrite Z.add_0_l. fold n.
  unfold of_int at 1. rewrite is_zero_inject_Z.
  destruct (Z.eqb n 0) eqn:En; [apply Z.eqb_eq in En; contradiction|].
  change (of_int n) with (Finite (inject_Z n)).
  rewrite (map_map (List.map of_int)), map_map.
  assert (Hrow : forall row,
    Float.div
      (reduce_sum
         (List.map (fun '(tp, gt) => divide_no_nan tp gt)
                   (combine (List.map of_int row) (List.map of_int gts))))
      (Finite (inject_Z n))
    = Finite
        (fold_left Qplus
           (List.map (fun '(tp, gt) =>
                        if Z.eqb gt 0 then 0 else inject_Z tp / inject_Z gt)
                     (combine row gts)) 0
         / inject_Z n)).
  { intros row. rewrite recalls_row. unfold reduce_sum.
    rewrite reduce_sum_finite. unfold Float.div.
    rewrite is_zero_inject_Z, En. reflexivity. }
  rewrite (map_ext _ _ Hrow). rewrite <- (map_map _ Finite).
  unfold reduce_mean, reduce_sum. rewrite reduce_sum_finite, !length_map.
  unfold of_int, Float.div. rewrite is_zero_inject_Z.
  destruct (Z.eqb (Z.of_nat (List.length (true_positives st))) 0) eqn:ET.
  { apply Z.eqb_eq in ET. destruct (true_positives st); [congruence|].
    simpl in ET. lia. }
  eexists. split; [reflexivity|].
  unfold mean_recall. fold gts. rewrite Hsome. unfold Qmean at 1.
  rewrite length_map, fold_left_Qplus, Qplus_0_l.
  apply Qdiv_comp; [|reflexivity].
  apply Qsum_compat.
  apply (Forall2_map_Forall
           (fun row => List.length row = List.length gts) Qeq); [exact Hshape|].
  intros row Hlen. unfold Qmean.
  rewrite fold_left_Qplus, Qplus_0_l, Qsum_present.
  rewrite (length_present_recalls row gts Hlen). reflexivity.
Qed.

(** C5. [result()] is the mean over the IoU thresholds of the mean, over the
    categories with ground truth, of [true_positives / ground_truth_count];
    categories without ground truth contribute nothing and are not counted
    in the denominator.  When no category has ground truth the result is
    exactly 0; this is the case after [reset_state] and for the weights
    that [__init__] creates. *)
Theorem result_is_mean_recall (st : metric_state) :
  well_shaped st ->
  (exists q, result st = Finite q /\ q == mean_recall st) /\
  (forallb (fun gt => Z.eqb gt 0) (ground_truth_boxes st) = true ->
   result st = Finite 0) /\
  result (reset_state st) = Finite 0 /\
  (forall ids fmt thresholds range detections cfg st0,
      __init__ ids fmt thresholds range detections = Ok (cfg, st0) ->
      result st0 = Finite 0).
Proof.
  intros Hwf. split; [|split; [|split]].
  - destruct (forallb (fun gt => Z.eqb gt 0) (ground_truth_boxes st)) eqn:E.
    + exists 0. split; [now apply result_without_ground_truth|].
      unfold mean_recall. now rewrite E.
    + now apply result_with_ground_truth.
  - apply result_without_ground_truth.
  - apply result_without_ground_truth. apply forallb_zeros_like.
  - intros ids fmt thresholds range detections cfg st0 Hinit.
    unfold __init__ in Hinit.
    destruct (existsb (fun c => Z.ltb c 0) ids); [discriminate|].
    injection Hinit as _ <-.
    apply result_without_ground_truth. apply forallb_repeat_zero.
Qed.

Lemma result_is_mean_recall_witness :
  exists q, result example_state = Finite q /\ q == mean_recall example_state.
Proof.
  apply (result_is_mean_recall example_state).
  unfold well_shaped. split; [discriminate|].
  split; [repeat constructor | reflexivity].
Defined.

(** ** Zero denominators *)

Lemma inject_nat_nonneg (n : nat) : 0 <= inject_Z (Z.of_nat n).
Proof.
  change 0 with (inject_Z 0). rewrite <- Zle_Qle. lia.
Qed.

Section MeanBoxCountDeltaFacts.

Variable Boxes : Type.
Variable ensure_tensor : Boxes -> outcome Boxes.
Variable to_dense : Boxes -> outcome Boxes.
Variable classes : Boxes -> list (list Z).

Lemma accumulated_init : MeanBoxCountDelta.accumulated MeanBoxCountDelta.__init__.
Proof.
  exists 0, 0. split; [reflexivity|]. split; [reflexivity|].
  split; [apply Qle_refl | intros _; apply Qeq_refl].
Qed.

Lemma subtract_nothing (a : list Z) (d : list Z) :
  MeanBoxCountDelta.subtract a [] = Ok d -> d = [].
Proof.
  unfold MeanBoxCountDelta.subtract.
  destruct a as [|x [|y a]]; simpl; try congruence.
Qed.

(** [update_state] keeps the weights [accumulated]. *)
Lemma accumulated_update (y_true y_pred : Boxes)
  (st st' : MeanBoxCountDelta.metric_state) (r : outcome unit) :
  MeanBoxCountDelta.accumulated st ->
  MeanBoxCountDelta.update_state Boxes ensure_tensor to_dense classes
    y_true y_pred st = (r, st') ->
  MeanBoxCountDelta.accumulated st'.
Proof.
  intros (d & n & Hd & Hn & Hpos & Hzero) Hupd.
  unfold MeanBoxCountDelta.update_state in Hupd.
  destruct (ensure_tensor y_true) as [yt|e]; simpl in Hupd;
    [|injection Hupd as _ <-; exists d, n; auto].
  destruct (ensure_tensor y_pred) as [yp|e]; simpl in Hupd;
    [|injection Hupd as _ <-; exists d, n; auto].
  destruct (to_dense yp) as [yp'|e]; simpl in Hupd;
    [|injection Hupd as _ <-; exists d, n; auto].
  destruct (to_dense yt) as [yt'|e]; simpl in Hupd;
    [|injection Hupd as _ <-; exists d, n; auto].
  destruct (MeanBoxCountDelta.subtract
              (MeanBoxCountDelta.count_boxes (classes yt'))
              (MeanBoxCountDelta.count_boxes (classes yp'))) as [diff|e] eqn:Hsub;
    simpl in Hupd; [|injection Hupd as _ <-; exists d, n; auto].
  injection Hupd as _ <-. simpl. rewrite Hd, Hn. simpl.
  eexists _, _. split; [reflexivity|]. split; [reflexivity|].
  pose proof (inject_nat_nonneg (List.length (classes yp'))) as Hlen.
  split; [lra|]. intros Hsum.
  assert (Hn0 : n == 0) by lra.
  assert (Hl0 : inject_Z (Z.of_nat (List.length (classes yp'))) == 0) by lra.
  assert (Hempty : classes yp' = []).
  { destruct (classes yp'); [reflexivity|].
    unfold Qeq in Hl0. simpl in Hl0. lia. }
  rewrite Hempty in Hsub. simpl in Hsub. apply subtract_nothing in Hsub.
  subst diff. simpl. rewrite (Hzero Hn0). reflexivity.
Qed.

End MeanBoxCountDeltaFacts.

(** C9 (amended). In the box recall metric a zero denominator yields 0: the
    quotient of a category without ground truth is 0, the result without
    any present category is 0, and the result of well-shaped weights is
    always a finite number.  [MeanBoxCountDelta.result()] is the unguarded
    quotient [delta_sum / samples]: it is the finite mean once samples were
    counted, and with zero accumulated samples it is [0 / 0 = NaN]. *)
Theorem zero_denominators (st : Recall.metric_state)
  (m : MeanBoxCountDelta.metric_state) :
  well_shaped st -> MeanBoxCountDelta.accumulated m ->
  (forall tp, divide_no_nan (of_int tp) (of_int 0) = Finite 0) /\
  (forallb (fun gt => Z.eqb gt 0) (ground_truth_boxes st) = true ->
   result st = Finite 0) /\
  (exists q, result st = Finite q) /\
  (forall d n, MeanBoxCountDelta.delta_sum m = Finite d ->
               MeanBoxCountDelta.samples m = Finite n ->
               (~ n == 0 -> MeanBoxCountDelta.result m = Finite (d / n)) /\
               (n == 0 -> MeanBoxCountDelta.result m = NaN)) /\
  MeanBoxCountDelta.result (MeanBoxCountDelta.reset_state m) = NaN.
Proof.
  intros Hwf (d & n & Hd & Hn & Hpos & Hzero).
  split; [intros tp; apply divide_no_nan_counts|].
  split; [apply result_without_ground_truth|].
  split.
  { destruct (forallb (fun gt => Z.eqb gt 0) (ground_truth_boxes st)) eqn:E.
    - exists 0. now apply result_without_ground_truth.
    - destruct (result_with_ground_truth st Hwf E) as (q & Hq & _). eauto. }
  split; [|reflexivity].
  intros d' n' Hd' Hn'. rewrite Hd in Hd'. rewrite Hn in Hn'.
  injection Hd' as <-. injection Hn' as <-.
  unfold MeanBoxCountDelta.result. rewrite Hd, Hn. unfold Float.div, is_zero.
  split.
  - intros Hne. now rewrite (Qeq_bool_false n 0 Hne).
  - intros He. specialize (Hzero He).
    apply Qeq_bool_iff in He, Hzero. now rewrite He, Hzero.
Qed.

Lemma zero_denominators_witness :
  MeanBoxCountDelta.result
    (MeanBoxCountDelta.Build_metric_state (Finite 2) (Finite 1))
  = Finite (2 / 1) /\
  MeanBoxCountDelta.result MeanBoxCountDelta.__init__ = NaN.
Proof.
  assert (Hwf : well_shaped example_state).
  { unfold well_shaped. split; [discriminate|].
    split; [repeat constructor | reflexivity]. }
  assert (Hacc : MeanBoxCountDelta.accumulated
                   (MeanBoxCountDelta.Build_metric_state (Finite 2) (Finite 1))).
  { exists 2, 1. split; [reflexivity|]. split; [reflexivity|].
    split; [discriminate | intros H; discriminate H]. }
  split.
  - destruct (zero_denominators example_state _ Hwf Hacc)
      as (_ & _ & _ & Hm & _).
    apply (Hm 2 1 eq_refl eq_refl). intros H; discriminate H.
  - destruct (zero_denominators example_state _ Hwf accumulated_init)
      as (_ & _ & _ & Hm & _).
    apply (Hm 0 0 eq_refl eq_refl). reflexivity.
Defined.

(** A metric that has counted no sample returns NaN, not 0. *)
Lemma mean_box_count_delta_without_samples :
  MeanBoxCountDelta.result MeanBoxCountDelta.__init__ = NaN /\
  MeanBoxCountDelta.result MeanBoxCountDelta.__init__ <> Finite 0.
Proof.
  split; [reflexivity | discriminate].
Qed.

(** ** The accumulation loops of [update_state] *)

Lemma scatter_add_nth (v : list Z) (i : nat) (x : Z) :
  (i < List.length v)%nat ->
  exists v',
    Int32.scatter_add v i x = Ok v' /\ List.length v' = List.length v /\
    forall j, nth j v' 0%Z
              = if Nat.eqb j i then Int32.add (nth j v 0%Z) x else nth j v 0%Z.
Proof.
  revert i. induction v as [|a v IH]; intros i Hi; simpl in Hi; [lia|].
  destruct i as [|i]; simpl.
  - eexists. split; [reflexivity|]. split; [reflexivity|].
    intros [|j]; reflexivity.
  - destruct (IH i) as (v' & Hv' & Hlen & Hnth); [lia|].
    rewrite Hv'. simpl. eexists. split; [reflexivity|].
    split; [simpl; now rewrite Hlen|].
    intros [|j]; simpl; [reflexivity | apply Hnth].
Qed.

Lemma shaped_row (T K : nat) (m : list (list Z)) (t : nat) :
  shaped T K m -> (t < T)%nat -> List.length (nth t m []) = K.
Proof.
  intros [Hlen Hrows] Ht. rewrite Forall_forall in Hrows.
  apply Hrows, nth_In. lia.
Qed.

Lemma scatter_add2_nth (T K : nat) (m : list (list Z)) (t k : nat) (x : Z) :
  shaped T K m -> (t < T)%nat -> (k < K)%nat ->
  exists m',
    Int32.scatter_add2 m t k x = Ok m' /\ shaped T K m' /\
    forall t' k',
      nth k' (nth t' m' []) 0%Z
      = if Nat.eqb t' t && Nat.eqb k' k
        then Int32.add (nth k' (nth t' m []) 0%Z) x
        else nth k' (nth t' m []) 0%Z.
Proof.
  revert T t. induction m as [|row m IH]; intros T t [Hlen Hrows] Ht Hk;
    simpl in Hlen; [lia|].
  inversion Hrows as [|? ? Hrow Hrows']; subst.
  destruct t as [|t]; simpl.
  - destruct (scatter_add_nth row k x) as (row' & Hr & Hlen' & Hnth); [lia|].
    rewrite Hr. simpl. eexists. split; [reflexivity|]. split.
    + split; [reflexivity|]. constructor; [exact Hlen' | exact Hrows'].
    + intros [|t'] k'; simpl; [apply Hnth | reflexivity].
  - destruct (IH (List.length m) t) as (m' & Hm' & [Hlen' Hrows''] & Hnth);
      [split; [reflexivity | exact Hrows'] | lia | exact Hk |].
    rewrite Hm'. simpl. eexists. split; [reflexivity|]. split.
    + split; [simpl; now rewrite Hlen'|].
      constructor; [reflexivity | assumption].
    + intros [|t'] k'; simpl; [reflexivity | apply Hnth].
Qed.

Section LoopFacts.

Variable C : collaborators.
Variable self : config.
Variable boxes_of_class : Boxes C -> Q -> outcome (Boxes C).

Let T := List.length (iou_thresholds self).
Let K := List.length (class_ids self).

(** The threshold loop adds, for every threshold, the number of matched
    predictions to the cell of that threshold and the category. *)
Lemma threshold_loop_adds (ious : IoU C) (k : nat) (matches : nat -> list Z)
  (tp : list (list Z)) :
  shaped T K tp -> (k < K)%nat ->
  (forall t thr, nth_error (iou_thresholds self) t = Some thr ->
                 match_boxes C ious thr = Ok (matches t)) ->
  exists tp',
    threshold_loop C self ious k tp = Ok tp' /\ shaped T K tp' /\
    forall t k', (t < T)%nat ->
      nth k' (nth t tp' []) 0%Z
      = if Nat.eqb k' k
        then Int32.add (nth k' (nth t tp []) 0%Z)
                       (true_positives_sum (matches t))
        else nth k' (nth t tp []) 0%Z.
Proof.
  intros Hshape Hk Hmatch. unfold threshold_loop. fold T.
  assert (Hgen : forall len a tp0,
    (a + len = T)%nat -> shaped T K tp0 ->
    exists tp',
      for_each (seq a len)
        (fun t_i true_positives_update =>
           threshold <- item (iou_thresholds self) t_i ;;
           pred_matches <- match_boxes C ious threshold ;;
           Int32.scatter_add2 true_positives_update t_i k
             (true_positives_sum pred_matches))
        tp0 = Ok tp' /\ shaped T K tp' /\
      forall t k', (t < T)%nat ->
        nth k' (nth t tp' []) 0%Z
        = if Nat.eqb k' k && (Nat.leb a t)
          then Int32.add (nth k' (nth t tp0 []) 0%Z)
                         (true_positives_sum (matches t))
          else nth k' (nth t tp0 []) 0%Z).
  { induction len as [|len IH]; intros a tp0 Ha Hs.
    - simpl. exists tp0. split; [reflexivity|]. split; [exact Hs|].
      intros t k' Ht. replace (Nat.leb a t) with false
        by (symmetry; apply Nat.leb_gt; lia).
      now rewrite andb_false_r.
    - simpl for_each. unfold item.
      destruct (nth_error (iou_thresholds self) a) as [thr|] eqn:Hthr.
      2:{ apply nth_error_None in Hthr. fold T in Hthr. lia. }
      cbn [bind]. rewrite (Hmatch a thr Hthr). cbn [bind].
      destruct (scatter_add2_nth T K tp0 a k (true_positives_sum (matches a)))
        as (tp1 & Hs1 & Hshape1 & Hnth1); [exact Hs | lia | exact Hk |].
      rewrite Hs1. cbn [bind].
      destruct (IH (S a) tp1) as (tp' & Hfor & Hshape' & Hnth');
        [lia | exact Hshape1 |].
      exists tp'. split; [exact Hfor|]. split; [exact Hshape'|].
      intros t k' Ht. rewrite (Hnth' t k' Ht), (Hnth1 t k').
      rewrite (Nat.eqb_sym t a).
      destruct (Nat.eqb k' k); cbn [andb]; rewrite ?andb_false_r;
        [|reflexivity].
      destruct (Nat.leb_spec (S a) t), (Nat.leb_spec a t), (Nat.eqb_spec a t);
        cbn [andb]; try lia; subst; reflexivity. }
  destruct (Hgen T 0%nat tp eq_refl Hshape) as (tp' & Hfor & Hshape' & Hnth).
  exists tp'. split; [exact Hfor|]. split; [exact Hshape'|].
  intros t k' Ht. rewrite (Hnth t k' Ht). simpl. now rewrite andb_true_r.
Qed.

(** The category loop adds, for every category, the ground-truth count once
    and the matched predictions once per threshold. *)
Lemma category_loop_adds (y_true_for_image y_pred_for_image : Boxes C)
  (ious : nat -> IoU C) (ground_truths : nat -> Boxes C)
  (counts : nat -> Z) (matches : nat -> nat -> list Z)
  (tp : list (list Z)) (gt : list Z) :
  shaped T K tp -> List.length gt = K ->
  (forall k, (k < K)%nat ->
     category_prologue C self boxes_of_class y_true_for_image
       y_pred_for_image k = Ok (ious k, ground_truths k)) ->
  (forall k, (k < K)%nat ->
     dim0 (classes_shape C (ground_truths k)) = Ok (counts k)) ->
  (forall k t thr, (k < K)%nat ->
     nth_error (iou_thresholds self) t = Some thr ->
     match_boxes C (ious k) thr = Ok (matches k t)) ->
  exists tp' gt',
    category_loop C self boxes_of_class y_true_for_image y_pred_for_image
      (tp, gt) = Ok (tp', gt') /\
    shaped T K tp' /\ List.length gt' = K /\
    (forall k, (k < K)%nat ->
       nth k gt' 0%Z = Int32.add (nth k gt 0%Z) (Int32.wrap (counts k))) /\
    (forall t k, (t < T)%nat -> (k < K)%nat ->
       nth k (nth t tp' []) 0%Z
       = Int32.add (nth k (nth t tp []) 0%Z)
                   (true_positives_sum (matches k t))).
Proof.
  intros Hshape Hgt Hpro Hcount Hmatch. unfold category_loop. fold K.
  assert (Hgen : forall len a tp0 gt0,
    (a + len = K)%nat -> shaped T K tp0 -> List.length gt0 = K ->
    exists tp' gt',
      for_each (seq a len)
        (fun k_i '(true_positives_update, ground_truth_boxes_update) =>
           '(ious, ground_truths) <-
             category_prologue C self boxes_of_class y_true_for_image
               y_pred_for_image k_i ;;
           true_positives_update <-
             threshold_loop C self ious k_i true_positives_update ;;
           n_true <- dim0 (classes_shape C ground_truths) ;;
           ground_truth_boxes_update <-
             Int32.scatter_add ground_truth_boxes_update k_i
               (Int32.wrap n_true) ;;
           Ok (true_positives_update, ground_truth_boxes_update))
        (tp0, gt0) = Ok (tp', gt') /\
      shaped T K tp' /\ List.length gt' = K /\
      (forall k, (k < K)%nat ->
         nth k gt' 0%Z
         = if Nat.leb a k
           then Int32.add (nth k gt0 0%Z) (Int32.wrap (counts k))
           else nth k gt0 0%Z) /\
      (forall t k, (t < T)%nat -> (k < K)%nat ->
         nth k (nth t tp' []) 0%Z
         = if Nat.leb a k
           then Int32.add (nth k (nth t tp0 []) 0%Z)
                          (true_positives_sum (matches k t))
           else nth k (nth t tp0 []) 0%Z)).
  { induction len as [|len IH]; intros a tp0 gt0 Ha Hs Hl.
    - simpl. exists tp0, gt0. split; [reflexivity|].
      split; [exact Hs|]. split; [exact Hl|].
      split; intros; replace (Nat.leb a k) with false
        by (symmetry; apply Nat.leb_gt; lia); reflexivity.
    - simpl for_each. rewrite (Hpro a) by lia. cbn [bind].
      destruct (threshold_loop_adds (ious a) a (matches a) tp0)
        as (tp1 & Hthr & Hshape1 & Hnth1);
        [exact Hs | lia | intros t thr; apply Hmatch; lia |].
      rewrite Hthr. cbn [bind]. rewrite (Hcount a) by lia. cbn [bind].
      destruct (scatter_add_nth gt0 a (Int32.wrap (counts a)))
        as (gt1 & Hsc & Hlen1 & Hg1); [lia|].
      rewrite Hsc. cbn [bind].
      destruct (IH (S a) tp1 gt1) as (tp' & gt' & Hfor & Hs' & Hl' & Hg' & Ht');
        [lia | exact Hshape1 | congruence |].
      exists tp', gt'. split; [exact Hfor|]. split; [exact Hs'|].
      split; [exact Hl'|]. split.
      + intros k Hk. rewrite (Hg' k Hk), (Hg1 k).
        destruct (Nat.leb_spec (S a) k), (Nat.leb_spec a k),
          (Nat.eqb_spec k a); try lia; subst; reflexivity.
      + intros t k Ht Hk. rewrite (Ht' t k Ht Hk), (Hnth1 t k Ht).
        destruct (Nat.leb_spec (S a) k), (Nat.leb_spec a k),
          (Nat.eqb_spec k a); try lia; subst; reflexivity. }
  destruct (Hgen K 0%nat tp gt eq_refl Hshape Hgt)
    as (tp' & gt' & Hfor & Hs' & Hl' & Hg' & Ht').
  exists tp', gt'. split; [exact Hfor|]. split; [exact Hs'|].
  split; [exact Hl'|]. split.
  - intros k Hk. now rewrite (Hg' k Hk).
  - intros t k Ht Hk. now rewrite (Ht' t k Ht Hk).
Qed.

(** The image loop: every image adds the ground-truth count of a category
    once, whatever the number of thresholds, and its matched predictions
    once per threshold. *)
Lemma image_loop_adds (y_true y_pred : Boxes C) (n : nat)
  (per_image : nat -> Boxes C * Boxes C)
  (ious : nat -> nat -> IoU C) (ground_truths : nat -> nat -> Boxes C)
  (counts : nat -> nat -> Z) (matches : nat -> nat -> nat -> list Z)
  (tp : list (list Z)) (gt : list Z) :
  shaped T K tp -> List.length gt = K ->
  (forall img, (img < n)%nat ->
     image_prologue C self y_true y_pred img = Ok (per_image img)) ->
  (forall img k, (img < n)%nat -> (k < K)%nat ->
     category_prologue C self boxes_of_class (fst (per_image img))
       (snd (per_image img)) k = Ok (ious img k, ground_truths img k)) ->
  (forall img k, (img < n)%nat -> (k < K)%nat ->
     dim0 (classes_shape C (ground_truths img k)) = Ok (counts img k)) ->
  (forall img k t thr, (img < n)%nat -> (k < K)%nat ->
     nth_error (iou_thresholds self) t = Some thr ->
     match_boxes C (ious img k) thr = Ok (matches img k t)) ->
  exists tp' gt',
    image_loop C self boxes_of_class y_true y_pred (Z.of_nat n) (tp, gt)
    = Ok (tp', gt') /\
    shaped T K tp' /\ List.length gt' = K /\
    (forall k, (k < K)%nat ->
       nth k gt' 0%Z
       = fold_left Int32.add
           (List.map (fun img => Int32.wrap (counts img k)) (seq 0 n))
           (nth k gt 0%Z)) /\
    (forall t k, (t < T)%nat -> (k < K)%nat ->
       nth k (nth t tp' []) 0%Z
       = fold_left Int32.add
           (List.map (fun img => true_positives_sum (matches img k t)) (seq 0 n))
           (nth k (nth t tp []) 0%Z)).
Proof.
  intros Hshape Hgt Himg Hpro Hcount Hmatch. unfold image_loop.
  rewrite Nat2Z.id.
  assert (Hgen : forall len a tp0 gt0,
    (a + len = n)%nat -> shaped T K tp0 -> List.length gt0 = K ->
    exists tp' gt',
      for_each (seq a len)
        (fun img updates =>
           '(y_true_for_image, y_pred_for_image) <-
             image_prologue C self y_true y_pred img ;;
           category_loop C self boxes_of_class y_true_for_image
             y_pred_for_image updates)
        (tp0, gt0) = Ok (tp', gt') /\
      shaped T K tp' /\ List.length gt' = K /\
      (forall k, (k < K)%nat ->
         nth k gt' 0%Z
         = fold_left Int32.add
             (List.map (fun img => Int32.wrap (counts img k)) (seq a len))
             (nth k gt0 0%Z)) /\
      (forall t k, (t < T)%nat -> (k < K)%nat ->
         nth k (nth t tp' []) 0%Z
         = fold_left Int32.add
             (List.map (fun img => true_positives_sum (matches img k t))
                       (seq a len))
             (nth k (nth t tp0 []) 0%Z))).
  { induction len as [|len IH]; intros a tp0 gt0 Ha Hs Hl.
    - simpl. exists tp0, gt0. auto.
    - simpl for_each. rewrite (Himg a) by lia.
      destruct (per_image a) as [yt yp] eqn:Hper. cbn [bind].
      destruct (category_loop_adds yt yp (ious a) (ground_truths a)
                  (counts a) (matches a) tp0 gt0)
        as (tp1 & gt1 & Hcat & Hs1 & Hl1 & Hg1 & Ht1);
        [exact Hs | exact Hl | | | |].
      + intros k Hk. specialize (Hpro a k). rewrite Hper in Hpro.
        apply Hpro; [lia | exact Hk].
      + intros k Hk. apply Hcount; [lia | exact Hk].
      + intros k t thr Hk. apply Hmatch; [lia | exact Hk].
      + rewrite Hcat.
        destruct (IH (S a) tp1 gt1)
          as (tp' & gt' & Hfor & Hs' & Hl' & Hg' & Ht');
          [lia | exact Hs1 | exact Hl1 |].
        exists tp', gt'. split; [exact Hfor|]. split; [exact Hs'|].
        split; [exact Hl'|]. split.
        * intros k Hk. rewrite (Hg' k Hk). simpl. now rewrite (Hg1 k Hk).
        * intros t k Ht Hk. rewrite (Ht' t k Ht Hk). simpl.
          now rewrite (Ht1 t k Ht Hk). }
  apply (Hgen n 0%nat tp gt eq_refl Hshape Hgt).
Qed.

End LoopFacts.

(** ** [update_state] as a whole *)

Lemma zip_add_nth (a b : list Z) (k : nat) :
  (k < List.length a)%nat -> List.length b = List.length a ->
  nth k (Int32.zip_add a b) 0%Z = Int32.add (nth k a 0%Z) (nth k b 0%Z).
Proof.
  revert b k. induction a as [|x a IH]; intros [|y b] k Hk Hlen;
    simpl in *; try lia.
  destruct k as [|k]; [reflexivity|]. apply IH; lia.
Qed.

Lemma zip_add2_nth (T K : nat) (a b : list (list Z)) (t k : nat) :
  shaped T K a -> shaped T K b -> (t < T)%nat -> (k < K)%nat ->
  nth k (nth t (Int32.zip_add2 a b) []) 0%Z
  = Int32.add (nth k (nth t a []) 0%Z) (nth k (nth t b []) 0%Z).
Proof.
  revert T b t. induction a as [|x a IH];
    intros T [|y b] t [Hla Hra] [Hlb Hrb] Ht Hk; simpl in *; try lia.
  inversion Hra; inversion Hrb; subst.
  destruct t as [|t].
  - apply zip_add_nth; congruence.
  - apply (IH (List.length a)); try split; auto; lia.
Qed.

Lemma shaped_zeros_like2 (T K : nat) (m : list (list Z)) :
  shaped T K m -> shaped T K (zeros_like2 m).
Proof.
  intros [Hlen Hrows]. split.
  - unfold zeros_like2. now rewrite length_map.
  - unfold zeros_like2. apply Forall_map.
    eapply Forall_impl; [|exact Hrows]. intros row Hrow.
    unfold zeros_like. now rewrite length_map.
Qed.

Lemma nth_zeros_like (v : list Z) (k : nat) : nth k (zeros_like v) 0%Z = 0%Z.
Proof.
  revert k. induction v as [|x v IH]; intros [|k]; simpl; auto.
Qed.

Lemma nth_zeros_like2 (m : list (list Z)) (t k : nat) :
  nth k (nth t (zeros_like2 m) []) 0%Z = 0%Z.
Proof.
  revert t. induction m as [|x m IH]; intros [|t]; simpl.
  - now destruct k.
  - now destruct k.
  - apply nth_zeros_like.
  - apply IH.
Qed.

(** X10. Whatever raises in [update_state], in either variant, the
    accumulators keep the values they had before the call: both are
    assigned only by the two final statements. *)
Lemma update_all_or_nothing (C : collaborators) (self : config)
  (y_true y_pred : Boxes C) (st st' : metric_state) (e : exn) :
  (update_state C self y_true y_pred st = (Raise e, st') -> st' = st) /\
  (in_graph_update_state C self y_true y_pred st = (Raise e, st') -> st' = st).
Proof.
  unfold update_state, in_graph_update_state, mbind, lift, read,
    assign_add_true_positives, assign_add_ground_truth_boxes.
  split.
  - destruct (validate_and_convert C self y_true y_pred) as [[yt yp]|e0];
      [|now intros [= _ <-]].
    destruct (sort_bounding_boxes C yp (XYXY_CONFIDENCE C)) as [yp'|e0];
      [|now intros [= _ <-]].
    simpl. now intros [= _ <-].
  - destruct (validate_and_convert C self y_true y_pred) as [[yt yp]|e0];
      [|now intros [= _ <-]].
    simpl.
    destruct (dim0 (classes_shape C yt)) as [n|e0]; [|now intros [= _ <-]].
    destruct (image_loop C self (select_boxes_of_class C) yt yp n
                (zeros_like2 (true_positives st),
                 zeros_like (ground_truth_boxes st))) as [u|e0];
      [discriminate | now intros [= _ <-]].
Qed.

(** C4 (the code at the failing inputs). [_BoxRecall.update_state] hands the
    dictionary [y_true] itself to [tf.shape]: when the statements before it
    do not raise, that call does, so no call ever reaches the loops and the
    accumulators are never changed: no ground-truth count and no true
    positive is added. *)
Theorem box_recall_update_never_accumulates (C : collaborators) (self : config)
  (y_true y_pred : Boxes C) (st : metric_state) :
  exists e, update_state C self y_true y_pred st = (Raise e, st).
Proof.
  unfold update_state, mbind, lift.
  destruct (validate_and_convert C self y_true y_pred) as [[yt yp]|e0];
    [|eauto].
  destruct (sort_bounding_boxes C yp (XYXY_CONFIDENCE C)) as [yp'|e0];
    [|eauto].
  simpl. eauto.
Qed.

(** X11. [InGraphBoxRecall.update_state] on a batch of [n] images for which
    the collaborators succeed returns, and the ground-truth total of a
    category grows by the category's count in each image, once per image
    whatever the number of thresholds, and each (threshold, category) cell
    by the matched predictions of each image ([int32] sums). *)
Lemma in_graph_update_accumulates (C : collaborators) (self : config)
  (y_true y_pred converted_true converted_pred : Boxes C) (n : nat)
  (per_image : nat -> Boxes C * Boxes C)
  (ious : nat -> nat -> IoU C) (ground_truths : nat -> nat -> Boxes C)
  (counts : nat -> nat -> Z) (matches : nat -> nat -> nat -> list Z)
  (st : metric_state) :
  let T := List.length (iou_thresholds self) in
  let K := List.length (class_ids self) in
  shaped T K (true_positives st) -> List.length (ground_truth_boxes st) = K ->
  validate_and_convert C self y_true y_pred
  = Ok (converted_true, converted_pred) ->
  dim0 (classes_shape C converted_true) = Ok (Z.of_nat n) ->
  (forall img, (img < n)%nat ->
     image_prologue C self converted_true converted_pred img
     = Ok (per_image img)) ->
  (forall img k, (img < n)%nat -> (k < K)%nat ->
     category_prologue C self (select_boxes_of_class C) (fst (per_image img))
       (snd (per_image img)) k = Ok (ious img k, ground_truths img k)) ->
  (forall img k, (img < n)%nat -> (k < K)%nat ->
     dim0 (classes_shape C (ground_truths img k)) = Ok (counts img k)) ->
  (forall img k t thr, (img < n)%nat -> (k < K)%nat ->
     nth_error (iou_thresholds self) t = Some thr ->
     match_boxes C (ious img k) thr = Ok (matches img k t)) ->
  exists st',
    in_graph_update_state C self y_true y_pred st = (Ok tt, st') /\
    (forall k, (k < K)%nat ->
       nth k (ground_truth_boxes st') 0%Z
       = Int32.add (nth k (ground_truth_boxes st) 0%Z)
           (fold_left Int32.add
              (List.map (fun img => Int32.wrap (counts img k)) (seq 0 n)) 0%Z)) /\
    (forall t k, (t < T)%nat -> (k < K)%nat ->
       nth k (nth t (true_positives st') []) 0%Z
       = Int32.add (nth k (nth t (true_positives st) []) 0%Z)
           (fold_left Int32.add
              (List.map (fun img => true_positives_sum (matches img k t))
                        (seq 0 n)) 0%Z)).
Proof.
  intros T K Hshape Hgt Hconv Hn Himg Hpro Hcount Hmatch.
  destruct (image_loop_adds C self (select_boxes_of_class C)
              converted_true converted_pred n per_image ious ground_truths
              counts matches (zeros_like2 (true_positives st))
              (zeros_like (ground_truth_boxes st)))
    as (tp' & gt' & Hloop & Hs' & Hl' & Hg' & Ht'); auto.
  { now apply shaped_zeros_like2. }
  { unfold zeros_like. now rewrite length_map. }
  unfold in_graph_update_state, mbind, lift, read,
    assign_add_true_positives, assign_add_ground_truth_boxes.
  rewrite Hconv. simpl. rewrite Hn. rewrite Hloop. simpl.
  eexists. split; [reflexivity|]. simpl. split.
  - intros k Hk. rewrite zip_add_nth by (fold K; lia).
    rewrite (Hg' k Hk), nth_zeros_like. reflexivity.
  - intros t k Ht Hk. rewrite (zip_add2_nth T K) by assumption.
    rewrite (Ht' t k Ht Hk), nth_zeros_like2. reflexivity.
Qed.

(** *** The shapes of the accumulators are invariant *)

Lemma scatter_add_length (v v' : list Z) (i : nat) (x : Z) :
  Int32.scatter_add v i x = Ok v' -> List.length v' = List.length v.
Proof.
  revert i v'. induction v as [|a v IH]; intros [|i] v'; simpl;
    try discriminate.
  - now intros [= <-].
  - destruct (Int32.scatter_add v i x) as [r|] eqn:E; simpl;
      [|discriminate].
    intros [= <-]. simpl. f_equal. eapply IH, E.
Qed.

Lemma scatter_add2_shaped (T K : nat) (m m' : list (list Z)) (t k : nat)
  (x : Z) :
  shaped T K m -> Int32.scatter_add2 m t k x = Ok m' -> shaped T K m'.
Proof.
  revert T t m'. induction m as [|row m IH]; intros T [|t] m' [Hlen Hrows];
    simpl; try discriminate.
  - destruct (Int32.scatter_add row k x) as [r|] eqn:E; simpl;
      [|discriminate].
    intros [= <-]. apply scatter_add_length in E.
    inversion Hrows; subst. split; [reflexivity|].
    constructor; [exact E | assumption].
  - destruct (Int32.scatter_add2 m t k x) as [r|] eqn:E; simpl;
      [|discriminate].
    intros [= <-]. inversion Hrows; subst.
    destruct (IH (List.length m) t r) as [Hl Hr];
      [split; [reflexivity | assumption] | exact E |].
    split; [simpl; now rewrite Hl|].
    constructor; [reflexivity | assumption].
Qed.

Lemma for_each_invariant {X S : Type} (P : S -> Prop) (xs : list X)
  (body : X -> S -> outcome S) (s s' : S) :
  (forall x a b, P a -> body x a = Ok b -> P b) ->
  P s -> for_each xs body s = Ok s' -> P s'.
Proof.
  intros Hbody. revert s. induction xs as [|x xs IH]; intros s Hs; simpl.
  - now intros [= <-].
  - destruct (body x s) as [s1|] eqn:E; simpl; [|discriminate].
    apply IH. eapply Hbody; eauto.
Qed.

(** The updates computed by the loops keep the shape of the zero tensors
    they start from. *)
Lemma image_loop_shaped (C : collaborators) (self : config)
  (boxes_of_class : Boxes C -> Q -> outcome (Boxes C))
  (y_true y_pred : Boxes C) (num_images : Z) (T K : nat)
  (tp tp' : list (list Z)) (gt gt' : list Z) :
  shaped T K tp -> List.length gt = K ->
  image_loop C self boxes_of_class y_true y_pred num_images (tp, gt)
  = Ok (tp', gt') ->
  shaped T K tp' /\ List.length gt' = K.
Proof.
  intros Hs Hl Hloop. unfold image_loop in Hloop.
  apply (for_each_invariant
           (fun u => shaped T K (fst u) /\ List.length (snd u) = K))
    in Hloop; [exact Hloop | | split; assumption].
  intros img [tp0 gt0] [tp1 gt1] Hinv Hbody.
  destruct (image_prologue C self y_true y_pred img) as [[yt yp]|];
    simpl in Hbody; [|discriminate].
  unfold category_loop in Hbody.
  apply (for_each_invariant
           (fun u => shaped T K (fst u) /\ List.length (snd u) = K))
    in Hbody; [exact Hbody | | exact Hinv].
  clear. intros k [tp0 gt0] [tp1 gt1] [Hs Hl] Hbody. simpl in Hs, Hl.
  destruct (category_prologue C self boxes_of_class yt yp k) as [[io g]|];
    simpl in Hbody; [|discriminate].
  destruct (threshold_loop C self io k tp0) as [tp2|] eqn:Ethr;
    simpl in Hbody; [|discriminate].
  destruct (dim0 (classes_shape C g)) as [n|]; simpl in Hbody;
    [|discriminate].
  destruct (Int32.scatter_add gt0 k (Int32.wrap n)) as [gt2|] eqn:Esc;
    simpl in Hbody; [|discriminate].
  injection Hbody as <- <-. simpl. split.
  - unfold threshold_loop in Ethr.
    apply (for_each_invariant (shaped T K)) in Ethr;
      [exact Ethr | | exact Hs].
    intros t a b Ha Hb.
    destruct (item (iou_thresholds self) t) as [thr|]; simpl in Hb;
      [|discriminate].
    destruct (match_boxes C io thr) as [pm|]; simpl in Hb; [|discriminate].
    eapply scatter_add2_shaped; eauto.
  - apply scatter_add_length in Esc. congruence.
Qed.

Lemma length_zip_add (a b : list Z) :
  List.length b = List.length a ->
  List.length (Int32.zip_add a b) = List.length a.
Proof.
  revert b. induction a as [|x a IH]; intros [|y b] Hlen; simpl in *;
    try discriminate; auto.
Qed.

Lemma shaped_zip_add2 (T K : nat) (a b : list (list Z)) :
  shaped T K a -> shaped T K b -> shaped T K (Int32.zip_add2 a b).
Proof.
  revert T b. induction a as [|x a IH]; intros T [|y b] [Hla Hra] [Hlb Hrb];
    simpl in *; try (split; [assumption | constructor]); try lia.
  inversion Hra; inversion Hrb; subst.
  destruct (IH (List.length a) b) as [Hl Hr];
    try (split; [reflexivity || lia | assumption]).
  split; [simpl; now rewrite Hl|].
  constructor; [|exact Hr]. rewrite length_zip_add; congruence.
Qed.

(** The weights that [__init__] creates are well shaped, and every call of
    the in-graph [update_state] keeps them so. *)
Lemma init_well_shaped (ids : list Z) (fmt : string)
  (thresholds : option (list Q)) (range : option (Q * Q)) (detections : Z)
  (cfg : config) (st : metric_state) :
  (Z.of_nat (List.length ids) < 2 ^ 31)%Z ->
  __init__ ids fmt thresholds range detections = Ok (cfg, st) ->
  well_shaped st /\
  shaped (List.length (iou_thresholds cfg)) (List.length (class_ids cfg))
         (true_positives st) /\
  List.length (ground_truth_boxes st) = List.length (class_ids cfg).
Proof.
  intros Hfit. unfold __init__.
  destruct (existsb (fun c => Z.ltb c 0) ids); [discriminate|].
  intros [= <- <-].
  set (ths := match thresholds with
              | Some (t :: ts) => t :: ts
              | _ => default_iou_thresholds
              end).
  assert (Hne : List.length ths <> 0%nat).
  { unfold ths. destruct thresholds as [[|t ts]|]; discriminate. }
  assert (Hrows : Forall (fun row : list Z => List.length row = List.length ids)
                         (repeat (repeat 0%Z (List.length ids))
                                 (List.length ths))).
  { apply Forall_forall. intros row Hin. apply repeat_spec in Hin.
    subst. apply repeat_length. }
  unfold well_shaped, shaped, zeros.
  cbn [true_positives ground_truth_boxes iou_thresholds class_ids].
  rewrite !repeat_length.
  split; [split; [|split; assumption] | split; [split|]; auto].
  destruct (List.length ths); [congruence | discriminate].
Qed.

(** X12. [InGraphBoxRecall.update_state] keeps the shapes of the weights,
    whether it returns or raises: [true_positives] stays a table of [T]
    rows and [K] columns and [ground_truth_boxes] a vector of [K]
    entries. *)
Lemma in_graph_update_keeps_shape (C : collaborators) (self : config)
  (y_true y_pred : Boxes C) (st st' : metric_state) (r : outcome unit)
  (T K : nat) :
  shaped T K (true_positives st) -> List.length (ground_truth_boxes st) = K ->
  in_graph_update_state C self y_true y_pred st = (r, st') ->
  shaped T K (true_positives st') /\ List.length (ground_truth_boxes st') = K.
Proof.
  intros Hs Hl. unfold in_graph_update_state, mbind, lift, read,
    assign_add_true_positives, assign_add_ground_truth_boxes.
  destruct (validate_and_convert C self y_true y_pred) as [[yt yp]|e0];
    [|intros [= _ <-]; auto].
  simpl.
  destruct (dim0 (classes_shape C yt)) as [n|e0]; [|intros [= _ <-]; auto].
  destruct (image_loop C self (select_boxes_of_class C) yt yp n
              (zeros_like2 (true_positives st),
               zeros_like (ground_truth_boxes st))) as [[tpu gtu]|e0] eqn:E;
    [|intros [= _ <-]; auto].
  apply (image_loop_shaped _ _ _ _ _ _ T K) in E as [Hs' Hl'];
    [| now apply shaped_zeros_like2
     | unfold zeros_like; now rewrite length_map].
  intros [= _ <-]. simpl. split.
  - now apply shaped_zip_add2.
  - rewrite length_zip_add; congruence.
Qed.

(** C8 (the code at the failing inputs). When the boxes of [y_true] or of
    [y_pred] do not have rank 3, both variants raise at the rank check and
    leave the accumulators as they were; the exception is the
    [AttributeError] of reading [shape.ranks] while the message of the
    intended [ValueError] is being formatted. *)
Theorem unbatched_update_raises_attribute_error (C : collaborators)
  (self : config) (y_true y_pred tensors_true tensors_pred : Boxes C)
  (st : metric_state) :
  ensure_tensor C y_true = Ok tensors_true ->
  ensure_tensor C y_pred = Ok tensors_pred ->
  validate_format C tensors_true "y_true" = Ok tt ->
  validate_format C tensors_pred "y_pred" = Ok tt ->
  rank_is_3 (boxes_rank C tensors_true) = false \/
  rank_is_3 (boxes_rank C tensors_pred) = false ->
  update_state C self y_true y_pred st
  = (Raise (AttributeError "'TensorShape' object has no attribute 'ranks'"), st) /\
  in_graph_update_state C self y_true y_pred st
  = (Raise (AttributeError "'TensorShape' object has no attribute 'ranks'"), st).
Proof.
  intros Ht Hp Hvt Hvp Hrank.
  assert (Hv : validate_and_convert C self y_true y_pred
               = Raise (AttributeError
                          "'TensorShape' object has no attribute 'ranks'")).
  { unfold validate_and_convert. rewrite Ht, Hp. cbn [bind].
    rewrite Hvt, Hvp. cbn [bind].
    change (TensorShape_getattr (boxes_rank C tensors_true) "rank")
      with (Ok (boxes_rank C tensors_true)).
    change (TensorShape_getattr (boxes_rank C tensors_pred) "rank")
      with (Ok (boxes_rank C tensors_pred)).
    cbn [bind].
    assert (Hif : negb (rank_is_3 (boxes_rank C tensors_true))
                  || negb (rank_is_3 (boxes_rank C tensors_pred)) = true).
    { destruct Hrank as [-> | ->]; simpl; [reflexivity | apply orb_true_r]. }
    rewrite Hif. reflexivity. }
  unfold update_state, in_graph_update_state, mbind, lift.
  rewrite Hv. split; reflexivity.
Qed.

Lemma unbatched_update_raises_attribute_error_witness :
  in_graph_update_state Reference.instance Reference.example_config
    Reference.example_unbatched Reference.example_prediction (zeros 2 2)
  = (Raise (AttributeError "'TensorShape' object has no attribute 'ranks'"),
     zeros 2 2).
Proof.
  apply (unbatched_update_raises_attribute_error Reference.instance
           Reference.example_config Reference.example_unbatched
           Reference.example_prediction Reference.example_unbatched
           Reference.example_prediction (zeros 2 2));
    try reflexivity.
  left. reflexivity.
Defined.

(** The same batch in both variants: [_BoxRecall] raises and counts nothing,
    [InGraphBoxRecall] counts the ground truths of each category once per
    image (2 and 1) under both thresholds. *)
Lemma update_state_on_example_batch :
  update_state Reference.instance Reference.example_config
    Reference.example_truth Reference.example_prediction (zeros 2 2)
  = (Raise (ValueError
       "Attempt to convert a value with an unsupported type (<class 'dict'>) to a Tensor."),
     zeros 2 2) /\
  in_graph_update_state Reference.instance Reference.example_config
    Reference.example_truth Reference.example_prediction (zeros 2 2)
  = (Ok tt, Build_metric_state [[2; 1]; [1; 0]]%Z [2; 1]%Z).
Proof.
  split; vm_compute; reflexivity.
Qed.

(** ** delta_encoding.py *)

Import DeltaEncoding.

(** C1 (the code at the failing inputs). In the module as written,
    [convert_format], [anchor_format] and [box_format] are unbound: once the
    variance has passed its length check, encoding and decoding raise
    [NameError] on every input, so no encoding exists to decode. *)
Theorem encode_and_decode_raise_name_error (tf_log tf_exp : Q -> Q)
  (anchors boxes deltas : rows) (anchor_box_format bounding_box_format : string)
  (variance : option (list Q)) :
  encode_box_to_deltas tf_log module_globals anchors boxes anchor_box_format
    bounding_box_format variance
  = (_ <- check_variance variance ;; Raise (NameError "convert_format")) /\
  decode_deltas_to_boxes tf_exp module_globals (Leaf anchors) (Leaf deltas)
    anchor_box_format bounding_box_format variance
  = (_ <- check_variance variance ;; Raise (NameError "convert_format")).
Proof.
  unfold encode_box_to_deltas, decode_deltas_to_boxes.
  destruct (check_variance variance) as [[]|e]; split; reflexivity.
Qed.

Lemma in_graph_update_accumulates_example :
  exists st',
    in_graph_update_state Reference.instance Reference.example_config
      Reference.example_truth Reference.example_prediction (zeros 2 2)
    = (Ok tt, st') /\
    ground_truth_boxes st' = [2; 1]%Z /\
    (forall k, (k < 2)%nat ->
       nth k (ground_truth_boxes st') 0%Z
       = Int32.add 0
           (fold_left Int32.add
              (List.map (fun img => Int32.wrap (Reference.example_counts img k))
                        (seq 0 2)) 0%Z)).
Proof.
  destruct (in_graph_update_accumulates Reference.instance
              Reference.example_config Reference.example_truth
              Reference.example_prediction Reference.example_truth
              Reference.example_prediction 2
              Reference.example_per_image
              (fun img k => fst (Reference.example_category img k))
              (fun img k => snd (Reference.example_category img k))
              Reference.example_counts Reference.example_matches
              (zeros 2 2))
    as (st' & Hupd & Hgt & _).
  - split; [reflexivity | repeat constructor].
  - reflexivity.
  - reflexivity.
  - reflexivity.
  - intros [|[|img]] Himg; [reflexivity | reflexivity | lia].
  - intros [|[|img]] [|[|k]] Himg Hk; simpl in Hk; try lia; reflexivity.
  - intros [|[|img]] [|[|k]] Himg Hk; simpl in Hk; try lia; reflexivity.
  - intros [|[|img]] [|[|k]] t thr Himg Hk Hthr; simpl in Hk; try lia;
      destruct t as [|[|[|t]]]; simpl in Hthr; try discriminate Hthr;
      injection Hthr as <-; reflexivity.
  - exists st'. split; [exact Hupd|]. split.
    + assert (E : in_graph_update_state Reference.instance
                    Reference.example_config Reference.example_truth
                    Reference.example_prediction (zeros 2 2)
                  = (Ok tt, Build_metric_state [[2; 1]; [1; 0]]%Z [2; 1]%Z))
        by (vm_compute; reflexivity).
      rewrite E in Hupd. now injection Hupd as <-.
    + intros k Hk. rewrite (Hgt k Hk).
      destruct k as [|[|k]]; [reflexivity | reflexivity | lia].
Defined.

(** *** The round trip in a namespace that binds the names *)

Lemma elementwise_combine (f : Q -> Q -> Q) (a b : rows) :
  List.length a = List.length b ->
  elementwise f a b
  = Ok (List.map (fun '(r, s) => Tensor.zip_with f r s) (combine a b)).
Proof.
  intros Hlen. unfold elementwise.
  destruct a as [|r [|r' a]], b as [|s [|s' b]]; try discriminate;
    try reflexivity.
  now rewrite Hlen, Nat.eqb_refl.
Qed.

Lemma concat_last_combine (a b : rows) :
  List.length a = List.length b ->
  concat_last a b = Ok (List.map (fun '(r, s) => (r ++ s)%list) (combine a b)).
Proof.
  revert b. induction a as [|r a IH]; intros [|s b] Hlen; simpl in *;
    try discriminate; [reflexivity|].
  rewrite IH by lia. reflexivity.
Qed.

Section RoundTrip.

Variable tf_log : Q -> Q.
Variable tf_exp : Q -> Q.

Lemma encode_rows (la lb : list (Q * Q * Q * Q)) (af bf : string)
  (variance : option (list Q)) :
  List.length la = List.length lb ->
  check_variance variance = Ok tt ->
  encode_box_to_deltas tf_log intended_globals (List.map row_of la)
    (List.map row_of lb) af bf variance
  = Ok (List.map (fun '(a, b) => delta_row tf_log variance a b) (combine la lb)).
Proof.
  intros Hlen Hvar. unfold encode_box_to_deltas. rewrite Hvar.
  cbn [bind intended_globals ns_convert_format ns_anchor_format ns_box_format
       load_global same_format String.eqb Ascii.eqb Bool.eqb].
  unfold first2, from2.
  repeat (first [ rewrite elementwise_combine
                    by (repeat rewrite ?length_map, ?length_combine; lia)
                | rewrite concat_last_combine
                    by (repeat rewrite ?length_map, ?length_combine; lia) ];
          cbn [bind]).
  assert (E : forall post : list Q -> list Q,
    List.map post
      (List.map (fun '(r, s) => (r ++ s)%list)
         (combine
            (List.map (fun '(r, s) => Tensor.zip_with Qdiv r s)
               (combine
                  (List.map (fun '(r, s) => Tensor.zip_with Qminus r s)
                     (combine (List.map (firstn 2) (List.map row_of lb))
                              (List.map (firstn 2) (List.map row_of la))))
                  (List.map (List.map (fun d => Qmax d epsilon))
                     (List.map (skipn 2) (List.map row_of la)))))
            (List.map (List.map tf_log)
               (List.map (fun '(r, s) => Tensor.zip_with Qdiv r s)
                  (combine
                     (List.map (List.map (fun d => Qmax d epsilon))
                        (List.map (skipn 2) (List.map row_of lb)))
                     (List.map (List.map (fun d => Qmax d epsilon))
                        (List.map (skipn 2) (List.map row_of la))))))))
    = List.map (fun '(a, b) => post (delta_row tf_log None a b))
               (combine la lb)).
  { intros post. clear Hvar. revert lb Hlen.
    induction la as [|[[[cya cxa] ha] wa] la IH];
      intros [|[[[cy cx] h] w] lb] Hlen; simpl in *; try discriminate;
      [reflexivity|].
    f_equal. apply IH. lia. }
  destruct variance as [v|].
  - unfold per_row. rewrite E. f_equal. apply map_ext.
    intros [[[[cya cxa] ha] wa] [[[cy cx] h] w]]. reflexivity.
  - rewrite <- (map_id (List.map _ (combine _ _))) at 1.
    rewrite (E (fun x => x)). reflexivity.
Qed.

Lemma decode_rows (la : list (Q * Q * Q * Q)) (deltas : rows)
  (variance : option (list Q)) :
  List.length la = List.length deltas ->
  decode_single_level tf_exp intended_globals variance (List.map row_of la)
    deltas
  = Ok (List.map (fun '(a, d) => box_row tf_exp variance a d)
                 (combine la deltas)).
Proof.
  intros Hlen. unfold decode_single_level.
  cbn [bind intended_globals ns_convert_format ns_anchor_format ns_box_format
       load_global same_format String.eqb Ascii.eqb Bool.eqb].
  unfold first2, from2, per_row.
  assert (Hl : forall f : list Q -> list Q,
            List.length (List.map f deltas) = List.length la)
    by (intros; rewrite length_map; lia).
  destruct variance as [v|];
    repeat (first [ rewrite elementwise_combine
                      by (repeat rewrite ?length_map, ?length_combine; lia)
                  | rewrite concat_last_combine
                      by (repeat rewrite ?length_map, ?length_combine; lia) ];
            cbn [bind]);
    f_equal; clear Hl; revert deltas Hlen;
    (induction la as [|[[[cya cxa] ha] wa] la IH];
     intros [|d deltas] Hlen; simpl in *; try discriminate;
     [reflexivity|]; f_equal; apply IH; lia).
Qed.

Hypothesis exp_log : forall x, 0 < x -> tf_exp (tf_log x) == x.
Hypothesis exp_compat : forall x y, x == y -> tf_exp x == tf_exp y.

Lemma epsilon_positive : 0 < epsilon.
Proof. reflexivity. Qed.

Lemma exp_log_ratio (h ha scaled : Q) :
  epsilon <= h -> epsilon <= ha ->
  scaled == tf_log (Qmax h epsilon / Qmax ha epsilon) ->
  tf_exp scaled * ha == h.
Proof.
  intros Hh Hha Hs. pose proof epsilon_positive as He.
  rewrite (exp_compat _ _ Hs).
  assert (Ehh : Qmax h epsilon == h) by (apply Q.max_l; assumption).
  assert (Eha : Qmax ha epsilon == ha) by (apply Q.max_l; assumption).
  rewrite exp_log.
  - rewrite Ehh, Eha. field. lra.
  - rewrite Ehh, Eha. apply Qlt_shift_div_l; lra.
Qed.

Lemma offset_round_trip (c ca ha scaled : Q) :
  epsilon <= ha -> scaled == (c - ca) / Qmax ha epsilon ->
  scaled * ha + ca == c.
Proof.
  intros Hha Hs. pose proof epsilon_positive as He.
  assert (Eha : Qmax ha epsilon == ha) by (apply Q.max_l; assumption).
  rewrite Hs, Eha. field. lra.
Qed.

(** One box against one anchor: decoding its deltas gives the box back. *)
Lemma row_round_trip (variance : option (list Q)) (a b : Q * Q * Q * Q) :
  dims_at_least_epsilon a -> dims_at_least_epsilon b ->
  nonzero_variance variance ->
  Forall2 Qeq (box_row tf_exp variance a (delta_row tf_log variance a b))
          (row_of b).
Proof.
  destruct a as [[[cya cxa] ha] wa], b as [[[cy cx] h] w].
  intros [Hha Hwa] [Hh Hw] Hvar.
  destruct variance as [v|].
  - destruct Hvar as (v1 & v2 & v3 & v4 & -> & H1 & H2 & H3 & H4). simpl.
    repeat constructor.
    + apply offset_round_trip; [assumption|].
      generalize ((cy - cya) / Qmax ha epsilon). intros q. now field.
    + apply offset_round_trip; [assumption|].
      generalize ((cx - cxa) / Qmax wa epsilon). intros q. now field.
    + apply (exp_log_ratio h ha); [assumption | assumption |].
      generalize (tf_log (Qmax h epsilon / Qmax ha epsilon)). intros q.
      now field.
    + apply (exp_log_ratio w wa); [assumption | assumption |].
      generalize (tf_log (Qmax w epsilon / Qmax wa epsilon)). intros q.
      now field.
  - simpl. repeat constructor.
    + apply offset_round_trip; [assumption | reflexivity].
    + apply offset_round_trip; [assumption | reflexivity].
    + apply (exp_log_ratio h ha); [assumption | assumption | reflexivity].
    + apply (exp_log_ratio w wa); [assumption | assumption | reflexivity].
Qed.

(** With the three names bound, over exact arithmetic and for functions
    with [exp (log x) = x]: whenever the anchors and the boxes (as many
    boxes as anchors) have widths and heights of at least epsilon and the
    variance has no zero entry, decoding the encoding of the boxes returns
    the boxes. *)
Lemma round_trip_with_names_bound (la lb : list (Q * Q * Q * Q))
  (af bf : string) (variance : option (list Q)) :
  List.length la = List.length lb ->
  Forall dims_at_least_epsilon la -> Forall dims_at_least_epsilon lb ->
  nonzero_variance variance ->
  exists deltas decoded,
    encode_box_to_deltas tf_log intended_globals (List.map row_of la)
      (List.map row_of lb) af bf variance = Ok deltas /\
    decode_deltas_to_boxes tf_exp intended_globals (Leaf (List.map row_of la))
      (Leaf deltas) af bf variance = Ok (Leaf decoded) /\
    Forall2 (Forall2 Qeq) decoded (List.map row_of lb).
Proof.
  intros Hlen Ha Hb Hvar.
  assert (Hcheck : check_variance variance = Ok tt).
  { destruct variance as [v|]; [|reflexivity].
    destruct Hvar as (v1 & v2 & v3 & v4 & -> & _). reflexivity. }
  eexists _, _. split; [now apply encode_rows|]. split.
  - unfold decode_deltas_to_boxes. rewrite Hcheck. cbn [bind assert_same_structure].
    rewrite decode_rows; [reflexivity|].
    rewrite length_map, length_combine. lia.
  - clear Hcheck. revert lb Hlen Hb.
    induction Ha as [|a la Ha1 Ha IH]; intros [|b lb] Hlen Hb;
      simpl in *; try discriminate; [constructor|].
    inversion Hb; subst. constructor.
    + now apply row_round_trip.
    + apply IH; [lia | assumption].
Qed.

End RoundTrip.

(** With the names bound, an anchor of zero height and width still breaks
    the round trip: encoding divides by epsilon, decoding multiplies by 0,
    and the decoded centre is the anchor's. *)
Lemma degenerate_anchor_breaks_round_trip (tf_log tf_exp : Q -> Q) :
  exists deltas decoded,
    encode_box_to_deltas tf_log intended_globals [[0; 0; 0; 0]]
      [[1; 1; 1; 1]] "center_yxhw" "center_yxhw" None = Ok deltas /\
    decode_deltas_to_boxes tf_exp intended_globals (Leaf [[0; 0; 0; 0]])
      (Leaf deltas) "center_yxhw" "center_yxhw" None = Ok (Leaf decoded) /\
    ~ Forall2 (Forall2 Qeq) decoded [[1; 1; 1; 1]].
Proof.
  eexists _, _. split; [reflexivity|]. split; [reflexivity|].
  intros H. inversion H as [|? ? ? ? Hrow _]; subst.
  inversion Hrow as [|? ? ? ? Hcy _]; subst.
  vm_compute in Hcy. discriminate.
Qed.

(** The hypotheses of the round trip are satisfiable: any pair of mutually
    inverse functions on the positive rationals will do, here the identity. *)
Lemma round_trip_with_names_bound_example :
  exists deltas decoded,
    encode_box_to_deltas (fun x => x) intended_globals [[8; 8; 16; 16]]
      [[10; 6; 4; 32]] "yxyx" "yxyx" (Some [0.1; 0.1; 0.2; 0.2]) = Ok deltas /\
    decode_deltas_to_boxes (fun x => x) intended_globals (Leaf [[8; 8; 16; 16]])
      (Leaf deltas) "yxyx" "yxyx" (Some [0.1; 0.1; 0.2; 0.2])
    = Ok (Leaf decoded) /\
    Forall2 (Forall2 Qeq) decoded [[10; 6; 4; 32]].
Proof.
  apply (round_trip_with_names_bound (fun x => x) (fun x => x)
           (fun x _ => Qeq_refl x) (fun x y H => H)
           [(8, 8, 16, 16)] [(10, 6, 4, 32)] "yxyx" "yxyx"
           (Some [0.1; 0.1; 0.2; 0.2])).
  - reflexivity.
  - repeat constructor; discriminate.
  - repeat constructor; discriminate.
  - exists 0.1, 0.1, 0.2, 0.2. repeat split; discriminate.
Defined.

(** On the module as written the same call raises. *)
Lemma encode_on_example_raises :
  encode_box_to_deltas (fun x => x) module_globals [[8; 8; 16; 16]]
    [[10; 6; 4; 32]] "yxyx" "yxyx" (Some [0.1; 0.1; 0.2; 0.2])
  = Raise (NameError "convert_format").
Proof. reflexivity. Qed.

(** * Further properties *)

(** ** The generator of one level *)

Lemma Qle_bool_false (a b : Q) : b < a -> Qle_bool a b = false.
Proof.
  intros H. destruct (Qle_bool a b) eqn:E; [|reflexivity].
  apply Qle_bool_iff in E. lra.
Qed.

(** When [tf.range] accepts the single stride [s] on an axis of extent
    [dim]. *)
Lemma centers_returned_iff (g : _SingleAnchorGenerator) (s : Q) (dim : N) :
  stride g = Vector [s] \/ stride g = Scalar s ->
  (exists c, centers g (inject_Z (Z.of_N dim)) = Ok c) <->
  (0 < s /\ 0.5 * s <= inject_Z (Z.of_N dim)).
Proof.
  intros Hstride. split.
  - intros (c & Hc). unfold centers, Tensor.range in Hc.
    pose proof (inject_N_nonneg dim) as Hdim.
    assert (Hc' :
      (if Qeq_bool s 0 then Raise (InvalidArgumentError "Requires delta != 0")
       else if Qltb 0 s then
         if Qle_bool (0.5 * s) (inject_Z (Z.of_N dim))
         then Ok (range_values (0.5 * s) s
                    (range_size (0.5 * s) (inject_Z (Z.of_N dim)) s))
         else Raise (InvalidArgumentError
                       "Requires start <= limit when delta > 0")
       else
         if Qle_bool (inject_Z (Z.of_N dim)) (0.5 * s)
         then Ok (range_values (0.5 * s) s
                    (range_size (0.5 * s) (inject_Z (Z.of_N dim)) s))
         else Raise (InvalidArgumentError
                       "Requires start >= limit when delta < 0")) = Ok c)
      by (destruct Hstride as [E | E]; rewrite E in Hc; exact Hc).
    clear Hc. destruct (Qeq_bool s 0) eqn:Hz; [discriminate|].
    apply Qeq_bool_neq in Hz.
    destruct (Qltb 0 s) eqn:Hp.
    + unfold Qltb in Hp. apply negb_true_iff in Hp.
      assert (Hs : 0 < s).
      { apply Qnot_le_lt. intros Hle. apply Qle_bool_iff in Hle. congruence. }
      destruct (Qle_bool (0.5 * s) (inject_Z (Z.of_N dim))) eqn:Hl;
        [|discriminate].
      apply Qle_bool_iff in Hl. split; assumption.
    + unfold Qltb in Hp. apply negb_false_iff, Qle_bool_iff in Hp.
      assert (Hs : s < 0) by (apply Qle_lteq in Hp as [Hlt | Heq]; [exact Hlt | contradiction]).
      rewrite Qle_bool_false in Hc' by lra. discriminate.
  - intros (Hs & Hdim). eexists.
    apply (centers_single_stride g s dim Hstride Hs Hdim).
Qed.

Lemma length_zip_with (f : Q -> Q -> Q) (xs ys : list Q) :
  List.length xs = List.length ys ->
  List.length (Tensor.zip_with f xs ys) = List.length xs.
Proof.
  revert ys. induction xs as [|x xs IH]; intros [|y ys]; simpl;
    try discriminate; [reflexivity|].
  intros [= H]. now rewrite IH.
Qed.

Lemma extent_map (f : Q -> Q) (t : tensor) :
  extent (Tensor.map f t) = extent t.
Proof.
  destruct t; simpl; [reflexivity | apply length_map].
Qed.

(** When the broadcasting of two tensors returns, and the extent of what
    it returns. *)
Lemma broadcast_returns_iff (f : Q -> Q -> Q) (a b : tensor) :
  (exists t, broadcast f a b = Ok t) <->
  broadcastable (extent a) (extent b).
Proof.
  unfold broadcastable. destruct a as [x|xs], b as [y|ys]; simpl.
  - split; [now left | eexists; reflexivity].
  - split; [now left | eexists; reflexivity].
  - split; [now (right; left) | eexists; reflexivity].
  - destruct xs as [|x [|x' xs]], ys as [|y [|y' ys]]; simpl;
      try (split; [intros _; lia | intros _; eexists; reflexivity]).
    + split; [intros (t & H); discriminate | lia].
    + split; [intros (t & H); discriminate | lia].
    + destruct (Nat.eqb (List.length xs) (List.length ys)) eqn:E.
      * apply Nat.eqb_eq in E. split; [intros _; lia|].
        intros _. eexists. reflexivity.
      * apply Nat.eqb_neq in E. split; [intros (t & H); discriminate | lia].
Qed.

Lemma broadcast_extent_of (f : Q -> Q -> Q) (a b t : tensor) :
  broadcast f a b = Ok t ->
  extent t = broadcast_extent (extent a) (extent b).
Proof.
  unfold broadcast_extent.
  destruct a as [x|xs], b as [y|ys]; simpl.
  - now intros [= <-].
  - intros [= <-]. simpl. apply length_map.
  - intros [= <-]. simpl. rewrite length_map. now destruct (Nat.eqb _ 1) eqn:E;
      [apply Nat.eqb_eq in E|].
  - destruct xs as [|x [|x' xs]], ys as [|y [|y' ys]]; simpl;
      try (intros [= <-]; simpl; rewrite ?length_map; reflexivity);
      try discriminate.
    destruct (Nat.eqb (List.length xs) (List.length ys)) eqn:E;
      [|discriminate].
    apply Nat.eqb_eq in E. intros [= <-]. simpl.
    now rewrite length_zip_with.
Qed.

(** The sizes, the scale and the aspect ratios of a level combine when
    their extents can be broadcast together. *)
Lemma half_anchor_dims_returns_iff (tf_sqrt : Q -> Q)
  (g : _SingleAnchorGenerator) :
  (exists dims, half_anchor_dims tf_sqrt g = Ok dims) <->
  (broadcastable (extent (sizes g)) (extent (scale g)) /\
   broadcastable (broadcast_extent (extent (sizes g)) (extent (scale g)))
                 (extent (aspect_ratios g))).
Proof.
  unfold half_anchor_dims, Tensor.mul, Tensor.truediv.
  pose proof (broadcast_returns_iff Qmult (sizes g) (scale g)) as H1.
  destruct (broadcast Qmult (sizes g) (scale g)) as [t|e] eqn:Et.
  - apply broadcast_extent_of in Et. rewrite <- Et. cbn [bind].
    pose proof (broadcast_returns_iff Qdiv t
                  (Tensor.map tf_sqrt (aspect_ratios g))) as H2.
    pose proof (broadcast_returns_iff Qmult t
                  (Tensor.map tf_sqrt (aspect_ratios g))) as H3.
    rewrite extent_map in H2, H3.
    destruct (broadcast Qdiv t (Tensor.map tf_sqrt (aspect_ratios g)))
      as [hs|e].
    + cbn [bind].
      destruct (broadcast Qmult t (Tensor.map tf_sqrt (aspect_ratios g)))
        as [ws|e].
      * cbn [bind]. split; [|intros _; eexists; reflexivity].
        intros _. split; [apply H1; eauto | apply H2; eauto].
      * destruct (proj2 H3 (proj1 H2 (ex_intro _ hs eq_refl))) as (t' & Ht').
        discriminate.
    + cbn [bind]. split; [intros (dims & H); discriminate|].
      intros (_ & Hb). destruct (proj2 H2 Hb) as (t' & Ht'). discriminate.
  - cbn [bind]. split; [intros (dims & H); discriminate|].
    intros (Ha & _). destruct (proj2 H1 Ha) as (t' & Ht'). discriminate.
Qed.

(** X1. A level that holds one stride [s] returns anchors exactly when
    its sizes, its scale and its aspect ratios can be broadcast together
    (the numbers of sizes and of scales are equal or one of them is 1, and
    so are the number of their products and the number of aspect ratios),
    [s > 0] and the image is at least [s / 2] high and wide.  In every
    other case it raises: on a broadcasting error, on a zero or negative
    stride, and on an image smaller than half a stride along an axis, where
    [tf.range] raises. *)
Theorem anchors_returned_iff_stride_fits (tf_sqrt : Q -> Q)
  (g : _SingleAnchorGenerator) (s : Q) (h w : N) :
  stride g = Vector [s] \/ stride g = Scalar s ->
  (exists boxes, call tf_sqrt g (h, w) = Ok boxes) <->
  (broadcastable (extent (sizes g)) (extent (scale g)) /\
   broadcastable (broadcast_extent (extent (sizes g)) (extent (scale g)))
                 (extent (aspect_ratios g)) /\
   0 < s /\ 0.5 * s <= inject_Z (Z.of_N h) /\ 0.5 * s <= inject_Z (Z.of_N w)).
Proof.
  intros Hstride.
  pose proof (half_anchor_dims_returns_iff tf_sqrt g) as Hdims.
  pose proof (centers_returned_iff g s h Hstride) as Hh.
  pose proof (centers_returned_iff g s w Hstride) as Hw.
  unfold call. cbn [fst snd]. split.
  - intros (boxes & Hcall).
    destruct (half_anchor_dims tf_sqrt g) as [[hh hw]|e]; [|discriminate].
    cbn [bind] in Hcall.
    destruct (centers g (inject_Z (Z.of_N w))) as [cx|e]; [|discriminate].
    destruct (centers g (inject_Z (Z.of_N h))) as [cy|e]; [|discriminate].
    destruct (proj1 Hdims (ex_intro _ (hh, hw) eq_refl)) as [Hb1 Hb2].
    destruct (proj1 Hh (ex_intro _ cy eq_refl)) as [Hs Hh'].
    destruct (proj1 Hw (ex_intro _ cx eq_refl)) as [_ Hw'].
    auto.
  - intros (Hb1 & Hb2 & Hs & Hh' & Hw').
    destruct (proj2 Hdims (conj Hb1 Hb2)) as ([hh hw] & ->).
    destruct (proj2 Hh (conj Hs Hh')) as (cy & ->).
    destruct (proj2 Hw (conj Hs Hw')) as (cx & ->).
    cbn [bind]. destruct (clip_boxes g); eexists; reflexivity.
Qed.

(** The level of the examples on a 16 x 16 image; on an image that is only
    3 pixels high, where the first centre (4) already lies outside; and a
    level whose stride fits but whose two scales do not combine with three
    aspect ratios. *)
Lemma anchors_returned_iff_stride_fits_witness :
  (exists boxes, call sqrt_exact example_level (16%N, 16%N) = Ok boxes) /\
  ~ (exists boxes, call sqrt_exact example_level (3%N, 16%N) = Ok boxes) /\
  ~ (exists boxes,
        call sqrt_exact
          (Build_SingleAnchorGenerator (Vector [1; 2]) (Vector [32])
             (Vector [1; 4; 9]) (Vector [8]) false) (16%N, 16%N) = Ok boxes).
Proof.
  split; [|split].
  - apply (anchors_returned_iff_stride_fits sqrt_exact example_level 8 16 16
             (or_introl eq_refl)).
    split; [now left|]. split; [now left|].
    split; [reflexivity | split; discriminate].
  - intros H.
    apply (anchors_returned_iff_stride_fits sqrt_exact example_level 8 3 16
             (or_introl eq_refl)) in H.
    destruct H as (_ & _ & _ & H & _). apply H. reflexivity.
  - intros H.
    apply (anchors_returned_iff_stride_fits sqrt_exact
             (Build_SingleAnchorGenerator (Vector [1; 2]) (Vector [32])
                (Vector [1; 4; 9]) (Vector [8]) false) 8 16 16
             (or_introl eq_refl)) in H.
    destruct H as (_ & [H | [H | H]] & _); discriminate H.
Defined.

(** X2. [clip_boxes] changes nothing but the clamping: the level raises on
    the same inputs with and without it, and what it returns with
    [clip_boxes] set is what it returns without, each coordinate clamped
    to the image.  A box that already lies within the image is left as it
    is. *)
Theorem clipping_only_clamps (tf_sqrt : Q -> Q)
  (scale sizes aspect_ratios stride : tensor) (h w : N) :
  call tf_sqrt
    (Build_SingleAnchorGenerator scale sizes aspect_ratios stride true) (h, w)
  = match call tf_sqrt
            (Build_SingleAnchorGenerator scale sizes aspect_ratios stride false)
            (h, w) with
    | Ok boxes => Ok (List.map (clip_box h w) boxes)
    | Raise e => Raise e
    end /\
  forall b : box, within_image h w b -> box_eq (clip_box h w b) b.
Proof.
  split.
  - unfold call, centers, half_anchor_dims.
    cbn [ScaleBasedAnchorGenerator.scale ScaleBasedAnchorGenerator.sizes
         ScaleBasedAnchorGenerator.aspect_ratios
         ScaleBasedAnchorGenerator.stride clip_boxes fst snd].
    destruct (Tensor.mul sizes scale) as [t|e]; [|reflexivity]. cbn [bind].
    destruct (Tensor.truediv t (Tensor.map tf_sqrt aspect_ratios)) as [hs|e];
      [|reflexivity]. cbn [bind].
    destruct (Tensor.mul t (Tensor.map tf_sqrt aspect_ratios)) as [ws|e];
      [|reflexivity]. cbn [bind].
    destruct (Tensor.range (Tensor.map (Qmult 0.5) stride)
                (Scalar (inject_Z (Z.of_N w))) stride) as [cx|e];
      [|reflexivity]. cbn [bind].
    destruct (Tensor.range (Tensor.map (Qmult 0.5) stride)
                (Scalar (inject_Z (Z.of_N h))) stride) as [cy|e];
      [|reflexivity]. cbn [bind].
    now rewrite concat_columns_clip.
  - intros b ((H1 & H2) & (H3 & H4) & (H5 & H6) & (H7 & H8)).
    unfold box_eq, clip_box, clip. cbn [y_min x_min y_max x_max].
    repeat split; (rewrite Q.min_l by assumption); apply Q.max_l; assumption.
Qed.

(** ** Sorted keys *)

Lemma leb_trans (a b c : string) :
  String.leb a b = true -> String.leb b c = true -> String.leb a c = true.
Proof.
  unfold String.leb.
  destruct (String.compare a b) eqn:Eab; try discriminate; intros _;
    destruct (String.compare b c) eqn:Ebc; try discriminate; intros _.
  - apply OrderedTypeEx.String_as_OT.cmp_eq in Eab. subst. now rewrite Ebc.
  - apply OrderedTypeEx.String_as_OT.cmp_eq in Eab. subst. now rewrite Ebc.
  - apply OrderedTypeEx.String_as_OT.cmp_eq in Ebc. subst. now rewrite Eab.
  - apply OrderedTypeEx.String_as_OT.cmp_lt in Eab, Ebc.
    pose proof (OrderedTypeEx.String_as_OT.lt_trans _ _ _ Eab Ebc) as H.
    apply OrderedTypeEx.String_as_OT.cmp_lt in H.
    unfold OrderedTypeEx.String_as_OT.cmp in H. now rewrite H.
Qed.

Lemma insert_sorted_comm (a b : string) (l : list string) :
  Dict.insert_sorted a (Dict.insert_sorted b l)
  = Dict.insert_sorted b (Dict.insert_sorted a l).
Proof.
  induction l as [|y l IH]; simpl.
  - destruct (String.leb a b) eqn:Eab, (String.leb b a) eqn:Eba;
      try reflexivity.
    + now rewrite (String.leb_antisym a b Eab Eba).
    + destruct (String.leb_total a b); congruence.
  - destruct (String.leb b y) eqn:Eby, (String.leb a y) eqn:Eay; simpl.
    + destruct (String.leb a b) eqn:Eab, (String.leb b a) eqn:Eba;
        rewrite ?Eby, ?Eay; try reflexivity.
      * now rewrite (String.leb_antisym a b Eab Eba).
      * destruct (String.leb_total a b); congruence.
    + destruct (String.leb a b) eqn:Eab.
      * pose proof (leb_trans a b y Eab Eby). congruence.
      * now rewrite Eay, Eby.
    + destruct (String.leb b a) eqn:Eba.
      * pose proof (leb_trans b a y Eba Eay). congruence.
      * now rewrite Eay, Eby.
    + now rewrite Eay, Eby, IH.
Qed.

Lemma insert_sorted_permutation (k : string) (l : list string) :
  Permutation (Dict.insert_sorted k l) (k :: l).
Proof.
  induction l as [|y l IH]; simpl; [reflexivity|].
  destruct (String.leb k y); [reflexivity|].
  rewrite IH. apply perm_swap.
Qed.

Lemma sorted_permutation (l : list string) : Permutation (Dict.sorted l) l.
Proof.
  unfold Dict.sorted. induction l as [|x l IH]; simpl; [reflexivity|].
  rewrite insert_sorted_permutation. now rewrite IH.
Qed.

(** [sorted] gives the same list exactly on the rearrangements of a list. *)
Lemma sorted_eq_iff (l l' : list string) :
  Dict.sorted l = Dict.sorted l' <-> Permutation l l'.
Proof.
  split.
  - intros E. rewrite <- (sorted_permutation l), E. apply sorted_permutation.
  - intros H. unfold Dict.sorted.
    induction H as [|x l l' _ IH|x y l|l l' l'' _ IH1 _ IH2]; simpl.
    + reflexivity.
    + now rewrite IH.
    + apply insert_sorted_comm.
    + now rewrite IH1.
Qed.

(** ** The constructor of [AnchorGenerator] *)

Section ConstructorCases.

Variable repr_list : list Q -> string.
Variable repr_keys : list string -> string.
Variable repr_param : level_param -> string.

Lemma broadcast_dict (d : Dict.dict (list Q)) (name : string)
  (scales : Dict.dict tensor) :
  _broadcast_parameter_to_scales repr_keys repr_param (ParamDict d) name scales
  = if Dict.keys_eqb (Dict.sorted (Dict.keys scales)) (Dict.sorted (Dict.keys d))
    then Ok d
    else Raise (ValueError
           ("Expected `" ++ name ++ "` to contain the same keys as `scales`. "
            ++ "Received `scales.keys()=" ++ repr_keys (Dict.keys scales) ++ "`, "
            ++ "`" ++ name ++ ".keys()=" ++ repr_keys (Dict.keys d) ++ "`.")).
Proof.
  unfold _broadcast_parameter_to_scales.
  now destruct (Dict.keys_eqb (Dict.sorted (Dict.keys scales))
                              (Dict.sorted (Dict.keys d))).
Qed.

(** X3. What [_broadcast_parameter_to_scales] does with each kind of
    parameter: a value that is neither a list nor a dictionary is rejected
    with a [ValueError]; a flat list is given to every level of [scales],
    in the order of [scales]; a dictionary is returned as it is when its
    keys are those of [scales] in any order, and rejected with a
    [ValueError] otherwise. *)
Theorem broadcast_parameter_to_scales_cases (name : string)
  (scales : Dict.dict tensor) :
  NoDup (Dict.keys scales) ->
  (exists msg,
      _broadcast_parameter_to_scales repr_keys repr_param ParamOther name scales
      = Raise (ValueError msg)) /\
  (forall xs,
      _broadcast_parameter_to_scales repr_keys repr_param (ParamList xs) name
        scales
      = Ok (List.map (fun k => (k, xs)) (Dict.keys scales))) /\
  (forall d,
      Permutation (Dict.keys scales) (Dict.keys d) ->
      _broadcast_parameter_to_scales repr_keys repr_param (ParamDict d) name
        scales = Ok d) /\
  (forall d,
      ~ Permutation (Dict.keys scales) (Dict.keys d) ->
      exists msg,
        _broadcast_parameter_to_scales repr_keys repr_param (ParamDict d) name
          scales = Raise (ValueError msg)).
Proof.
  intros Hnd. split; [eexists; reflexivity|].
  split; [intros xs; now apply broadcast_list|].
  split; intros d H; rewrite broadcast_dict.
  - apply sorted_eq_iff in H. rewrite H, keys_eqb_refl. reflexivity.
  - destruct (Dict.keys_eqb (Dict.sorted (Dict.keys scales))
                            (Dict.sorted (Dict.keys d))) eqn:E.
    + apply keys_eqb_eq, sorted_eq_iff in E. contradiction.
    + eexists. reflexivity.
Qed.

Lemma broadcast_outcome (param : level_param) (name : string)
  (scales : Dict.dict tensor) :
  (exists d,
      _broadcast_parameter_to_scales repr_keys repr_param param name scales
      = Ok d) \/
  (exists msg,
      _broadcast_parameter_to_scales repr_keys repr_param param name scales
      = Raise (ValueError msg)).
Proof.
  unfold _broadcast_parameter_to_scales.
  destruct param as [xs|d|]; [| |right; eexists; reflexivity].
  - destruct (Dict.keys_eqb _ _); simpl; [left | right]; eexists; reflexivity.
  - destruct (Dict.keys_eqb _ _); simpl; [left | right]; eexists; reflexivity.
Qed.

Lemma pack_outcome (scales : scales_param) (name : string) :
  (exists d, _pack_parameter_to_dict scales name = Ok d) \/
  (scales = ScalesOther /\
   _pack_parameter_to_dict scales name = Raise (NameError "sizes")).
Proof.
  destruct scales as [xs|xs|d|].
  - left. eexists. apply pack_list.
  - left. eexists. exact (pack_list xs name).
  - left. eexists. reflexivity.
  - right. split; reflexivity.
Qed.

Lemma validate_outcome (sizes strides : Dict.dict (list Q)) :
  (forall k, In k (Dict.keys sizes) -> In k (Dict.keys strides)) ->
  _validate_sizes_and_strides repr_list sizes strides = Ok tt \/
  exists msg,
    _validate_sizes_and_strides repr_list sizes strides
    = Raise (ValueError msg).
Proof.
  intros Hsub. unfold _validate_sizes_and_strides.
  assert (Hself : forall k, In k (Dict.keys sizes) -> In k (Dict.keys sizes))
    by auto.
  revert Hself. generalize (Dict.keys sizes) at 1 3 4 as todo.
  induction todo as [|k todo IH]; intros Hself; [now left|].
  simpl for_each. unfold Dict.getitem.
  destruct (get_in_keys sizes k (Hself k (or_introl eq_refl))) as (a & ->).
  destruct (get_in_keys strides k (Hsub k (Hself k (or_introl eq_refl))))
    as (b & ->).
  cbn [bind].
  destruct (Nat.eqb (List.length a) (List.length b)); cbn [negb bind].
  - apply IH. intros; apply Hself; now right.
  - right. eexists. reflexivity.
Qed.

Lemma validate_matching (sizes strides : Dict.dict (list Q)) :
  (forall level, In level (Dict.keys sizes) ->
     exists a b,
       Dict.get sizes level = Some a /\ Dict.get strides level = Some b /\
       List.length a = List.length b) ->
  _validate_sizes_and_strides repr_list sizes strides = Ok tt.
Proof.
  unfold _validate_sizes_and_strides.
  generalize (Dict.keys sizes) at 1 2 as todo.
  induction todo as [|k todo IH]; intros Hall; [reflexivity|].
  simpl for_each. unfold Dict.getitem.
  destruct (Hall k (or_introl eq_refl)) as (a & b & -> & -> & Hlen).
  cbn [bind]. rewrite Hlen, Nat.eqb_refl. cbn [negb bind].
  apply IH. intros; apply Hall; now right.
Qed.

End ConstructorCases.

Lemma get_map_values {V W : Type} (f : string -> V -> W) (d : Dict.dict V)
  (k : string) :
  Dict.get (List.map (fun '(k', v) => (k', f k' v)) d) k
  = option_map (f k) (Dict.get d k).
Proof.
  induction d as [|[k' v] d IH]; simpl; [reflexivity|].
  destruct (String.eqb k k') eqn:E; [|exact IH].
  apply String.eqb_eq in E. now subst.
Qed.

Lemma keys_map_values {V W : Type} (f : string -> V -> W) (d : Dict.dict V) :
  Dict.keys (List.map (fun '(k, v) => (k, f k v)) d) = Dict.keys d.
Proof.
  unfold Dict.keys. rewrite map_map. apply map_ext. now intros [k v].
Qed.

(** The loop of [__init__] that builds one generator per level. *)
Lemma build_levels (scales : Dict.dict tensor)
  (sizes ars strides : Dict.dict (list Q)) (sz ar st : string -> list Q)
  (clip : bool) (todo done : Dict.dict tensor) :
  let F := fun '(k, s) =>
    (k, Build_SingleAnchorGenerator s (Vector (sz k)) (Vector (ar k))
          (Vector (st k)) clip) in
  scales = (done ++ todo)%list -> NoDup (Dict.keys scales) ->
  (forall k, In k (Dict.keys scales) ->
     Dict.get sizes k = Some (sz k) /\ Dict.get ars k = Some (ar k) /\
     Dict.get strides k = Some (st k)) ->
  for_each (Dict.keys todo)
    (fun level anchor_generators =>
       scale <- Dict.getitem scales level ;;
       sizes_at_level <- Dict.getitem sizes level ;;
       aspect_ratios_at_level <- Dict.getitem ars level ;;
       strides_at_level <- Dict.getitem strides level ;;
       Ok (Dict.set anchor_generators level
             (Build_SingleAnchorGenerator scale (Vector sizes_at_level)
                (Vector aspect_ratios_at_level) (Vector strides_at_level) clip)))
    (List.map F done)
  = Ok (List.map F scales).
Proof.
  intros F. revert done. induction todo as [|[k s] todo IH];
    intros done Heq Hnd Hget.
  - simpl. rewrite app_nil_r in Heq. now subst.
  - simpl for_each.
    assert (Hkeys : Dict.keys scales
                    = (Dict.keys done ++ k :: Dict.keys todo)%list).
    { subst scales. unfold Dict.keys. now rewrite map_app. }
    assert (Hfresh : ~ In k (Dict.keys done)).
    { rewrite Hkeys in Hnd. apply NoDup_remove_2 in Hnd.
      rewrite in_app_iff in Hnd. tauto. }
    assert (Hin : In k (Dict.keys scales)).
    { rewrite Hkeys, in_app_iff. right. now left. }
    destruct (Hget k Hin) as (Hsz & Har & Hst).
    assert (Hs : Dict.get scales k = Some s).
    { subst scales. rewrite get_app_fresh by exact Hfresh.
      simpl. now rewrite String.eqb_refl. }
    unfold Dict.getitem. rewrite Hs, Hsz, Har, Hst. cbn [bind].
    rewrite set_fresh.
    + replace (List.map F done
               ++ [(k, Build_SingleAnchorGenerator s (Vector (sz k))
                         (Vector (ar k)) (Vector (st k)) clip)])%list
        with (List.map F (done ++ [(k, s)])%list)
        by (now rewrite map_app).
      apply IH; [|exact Hnd|exact Hget]. rewrite <- app_assoc. exact Heq.
    + unfold Dict.keys. rewrite map_map.
      assert (E : List.map (fun x => fst (F x)) done = List.map fst done).
      { apply map_ext. now intros [? ?]. }
      rewrite E. exact Hfresh.
Qed.

(** The same loop never raises when every level has its three entries. *)
Lemma build_levels_returns (scales : Dict.dict tensor)
  (sizes ars strides : Dict.dict (list Q)) (clip : bool)
  (todo : list string) (acc : Dict.dict _SingleAnchorGenerator) :
  (forall k, In k todo ->
     In k (Dict.keys scales) /\ In k (Dict.keys sizes) /\
     In k (Dict.keys ars) /\ In k (Dict.keys strides)) ->
  exists gens,
    for_each todo
      (fun level anchor_generators =>
         scale <- Dict.getitem scales level ;;
         sizes_at_level <- Dict.getitem sizes level ;;
         aspect_ratios_at_level <- Dict.getitem ars level ;;
         strides_at_level <- Dict.getitem strides level ;;
         Ok (Dict.set anchor_generators level
               (Build_SingleAnchorGenerator scale (Vector sizes_at_level)
                  (Vector aspect_ratios_at_level) (Vector strides_at_level)
                  clip)))
      acc
    = Ok gens.
Proof.
  revert acc. induction todo as [|k todo IH]; intros acc Hin.
  - eexists. reflexivity.
  - simpl for_each. unfold Dict.getitem.
    destruct (Hin k (or_introl eq_refl)) as (H1 & H2 & H3 & H4).
    destruct (get_in_keys scales k H1) as (s & ->).
    destruct (get_in_keys sizes k H2) as (a & ->).
    destruct (get_in_keys ars k H3) as (b & ->).
    destruct (get_in_keys strides k H4) as (c & ->).
    cbn [bind]. apply IH. intros; apply Hin; now right.
Qed.

Section ConstructorOutcomes.

Variable repr_list : list Q -> string.
Variable repr_keys : list string -> string.
Variable repr_param : level_param -> string.

(** X4. When [scales] packs to a dictionary, the three other parameters
    broadcast to its levels and at every level [sizes] and [strides] have
    the same length, the constructor returns: the layer has the levels of
    [scales] in their order, and the generator of a level holds that
    level's scale, sizes, aspect ratios and strides. *)
Theorem constructor_builds_every_level (fmt : string)
  (sizes : level_param) (scales : scales_param)
  (aspect_ratios strides : level_param) (clip : bool)
  (scales_d : Dict.dict tensor) (sizes_d ars_d strides_d : Dict.dict (list Q)) :
  _pack_parameter_to_dict scales "scales" = Ok scales_d ->
  NoDup (Dict.keys scales_d) ->
  _broadcast_parameter_to_scales repr_keys repr_param sizes "sizes" scales_d
  = Ok sizes_d ->
  _broadcast_parameter_to_scales repr_keys repr_param strides "strides" scales_d
  = Ok strides_d ->
  _broadcast_parameter_to_scales repr_keys repr_param aspect_ratios
    "aspect_ratios" scales_d = Ok ars_d ->
  (forall level a b,
      Dict.get sizes_d level = Some a -> Dict.get strides_d level = Some b ->
      List.length a = List.length b) ->
  exists ag,
    ScaleBasedAnchorGenerator.__init__ repr_list repr_keys repr_param fmt
      sizes scales aspect_ratios strides clip = Ok ag /\
    ScaleBasedAnchorGenerator.bounding_box_format ag = fmt /\
    Dict.keys (anchor_generators ag) = Dict.keys scales_d /\
    forall level sc,
      Dict.get scales_d level = Some sc ->
      exists sz ar st,
        Dict.get sizes_d level = Some sz /\ Dict.get ars_d level = Some ar /\
        Dict.get strides_d level = Some st /\
        Dict.get (anchor_generators ag) level
        = Some (Build_SingleAnchorGenerator sc (Vector sz) (Vector ar)
                  (Vector st) clip).
Proof.
  intros Hpack Hnd Hsizes Hstrides Hars Hlen.
  set (lookup := fun (d : Dict.dict (list Q)) (k : string) =>
                   match Dict.get d k with Some v => v | None => [] end).
  assert (Hall : forall k, In k (Dict.keys scales_d) ->
            Dict.get sizes_d k = Some (lookup sizes_d k) /\
            Dict.get ars_d k = Some (lookup ars_d k) /\
            Dict.get strides_d k = Some (lookup strides_d k)).
  { intros k Hk. unfold lookup.
    destruct (get_in_keys sizes_d k) as (a & ->);
      [now apply (broadcast_keys _ _ _ _ _ _ k Hsizes)|].
    destruct (get_in_keys ars_d k) as (b & ->);
      [now apply (broadcast_keys _ _ _ _ _ _ k Hars)|].
    destruct (get_in_keys strides_d k) as (c & ->);
      [now apply (broadcast_keys _ _ _ _ _ _ k Hstrides)|].
    auto. }
  eexists. split.
  - unfold ScaleBasedAnchorGenerator.__init__.
    rewrite Hpack. cbn [bind]. rewrite Hsizes. cbn [bind].
    rewrite Hstrides. cbn [bind].
    rewrite validate_matching; cbn [bind].
    + rewrite Hars. cbn [bind].
      pose proof (build_levels scales_d sizes_d ars_d strides_d
                    (lookup sizes_d) (lookup ars_d) (lookup strides_d) clip
                    scales_d [] eq_refl Hnd Hall) as Hbuild.
      cbv zeta in Hbuild.
      change (@List.map (string * tensor) _ _ []) with
        (@nil (string * _SingleAnchorGenerator)) in Hbuild.
      rewrite Hbuild. cbn [bind]. reflexivity.
    + intros level Hin.
      apply (broadcast_keys _ _ _ _ _ _ level Hsizes) in Hin.
      destruct (Hall level Hin) as (Ha & _ & Hb).
      eexists _, _. split; [exact Ha|]. split; [exact Hb|].
      apply (Hlen level); assumption.
  - cbn [ScaleBasedAnchorGenerator.bounding_box_format anchor_generators].
    split; [reflexivity|]. split.
    + apply (keys_map_values
               (fun k s => Build_SingleAnchorGenerator s
                  (Vector (lookup sizes_d k)) (Vector (lookup ars_d k))
                  (Vector (lookup strides_d k)) clip)).
    + intros level sc Hsc.
      destruct (Hall level (get_some_in_keys _ _ _ Hsc)) as (Ha & Hb & Hc).
      eexists _, _, _. split; [exact Ha|]. split; [exact Hb|].
      split; [exact Hc|].
      rewrite (get_map_values
                 (fun k s => Build_SingleAnchorGenerator s
                    (Vector (lookup sizes_d k)) (Vector (lookup ars_d k))
                    (Vector (lookup strides_d k)) clip)).
      rewrite Hsc. reflexivity.
Qed.

(** X5. On arguments of the types of the class docstring ([sizes],
    [strides] and [aspect_ratios] each a flat list, a dictionary from level
    names to lists, or a value that is neither a list nor a dictionary;
    [scales] a dictionary from level names to scales, a list, a tuple or
    any other value), the constructor lets no [KeyError] or [IndexError] of
    its dictionary and list accesses escape: it returns a layer or raises a
    [ValueError], except for a [scales] that is neither a dictionary, a
    list nor a tuple, on which formatting the error message raises a
    [NameError].  (A dictionary whose entries are not lists is outside
    these types.) *)
Theorem constructor_raises_only_value_or_name_error (fmt : string)
  (sizes : level_param) (scales : scales_param)
  (aspect_ratios strides : level_param) (clip : bool) :
  match ScaleBasedAnchorGenerator.__init__ repr_list repr_keys repr_param fmt
          sizes scales aspect_ratios strides clip with
  | Ok _ => True
  | Raise (ValueError _) => True
  | Raise (NameError _) => scales = ScalesOther
  | Raise _ => False
  end.
Proof.
  unfold ScaleBasedAnchorGenerator.__init__.
  destruct (pack_outcome scales "scales") as [(scales_d & ->) | (-> & ->)];
    [|reflexivity].
  cbn [bind].
  destruct (broadcast_outcome repr_keys repr_param sizes "sizes" scales_d)
    as [(sizes_d & Hsizes) | (msg & ->)]; [|exact I].
  rewrite Hsizes. cbn [bind].
  destruct (broadcast_outcome repr_keys repr_param strides "strides" scales_d)
    as [(strides_d & Hstrides) | (msg & ->)]; [|exact I].
  rewrite Hstrides. cbn [bind].
  destruct (validate_outcome repr_list sizes_d strides_d) as [-> | (msg & ->)];
    [| |exact I].
  { intros k Hk.
    apply (broadcast_keys _ _ _ _ _ _ k Hstrides).
    now apply (broadcast_keys _ _ _ _ _ _ k Hsizes). }
  cbn [bind].
  destruct (broadcast_outcome repr_keys repr_param aspect_ratios
              "aspect_ratios" scales_d)
    as [(ars_d & Hars) | (msg & ->)]; [|exact I].
  rewrite Hars. cbn [bind].
  destruct (build_levels_returns scales_d sizes_d ars_d strides_d clip
              (Dict.keys scales_d) []) as (gens & ->); [|exact I].
  intros k Hk. split; [exact Hk|].
  split; [now apply (broadcast_keys _ _ _ _ _ _ k Hsizes)|].
  split; [now apply (broadcast_keys _ _ _ _ _ _ k Hars)|].
  now apply (broadcast_keys _ _ _ _ _ _ k Hstrides).
Qed.

End ConstructorOutcomes.

Lemma broadcast_parameter_to_scales_cases_witness :
  (exists msg,
      _broadcast_parameter_to_scales show_keys show_param
        (ParamDict [("l2", [32; 64; 128])]) "sizes" [("l1", Scalar 1)]
      = Raise (ValueError msg)) /\
  _broadcast_parameter_to_scales show_keys show_param
    (ParamList [32; 64; 128]) "sizes" [("l1", Scalar 1)]
  = Ok [("l1", [32; 64; 128])].
Proof.
  destruct (broadcast_parameter_to_scales_cases show_keys show_param "sizes"
              [("l1", Scalar 1)]) as (_ & Hlist & _ & Hbad).
  - repeat constructor. simpl. tauto.
  - split.
    + apply Hbad. simpl. intros H.
      apply Permutation_length_1 in H. discriminate.
    + apply Hlist.
Defined.

(** Two explicit levels, with the sizes given in another order than the
    scales. *)
Lemma constructor_builds_every_level_witness :
  exists ag,
    ScaleBasedAnchorGenerator.__init__ show_list show_keys show_param "yxyx"
      (ParamDict [("l2", [64]); ("l1", [32])])
      (ScalesDict [("l1", Scalar 1); ("l2", Scalar 2)])
      (ParamList [1; 4]) (ParamList [8]) false = Ok ag /\
    Dict.keys (anchor_generators ag) = ["l1"; "l2"] /\
    Dict.get (anchor_generators ag) "l2"
    = Some (Build_SingleAnchorGenerator (Scalar 2) (Vector [64])
              (Vector [1; 4]) (Vector [8]) false).
Proof.
  destruct (constructor_builds_every_level show_list show_keys show_param
              "yxyx"
              (ParamDict [("l2", [64]); ("l1", [32])])
              (ScalesDict [("l1", Scalar 1); ("l2", Scalar 2)])
              (ParamList [1; 4]) (ParamList [8]) false
              [("l1", Scalar 1); ("l2", Scalar 2)]
              [("l2", [64]); ("l1", [32])]
              [("l1", [1; 4]); ("l2", [1; 4])]
              [("l1", [8]); ("l2", [8])])
    as (ag & Hinit & _ & Hkeys & Hlevels).
  - reflexivity.
  - repeat constructor; simpl; intuition discriminate.
  - reflexivity.
  - reflexivity.
  - reflexivity.
  - intros level a b. simpl.
    destruct (String.eqb level "l2"), (String.eqb level "l1");
      intros Ha Hb; try discriminate;
      injection Ha as <-; injection Hb as <-; reflexivity.
  - exists ag. split; [exact Hinit|]. split; [exact Hkeys|].
    destruct (Hlevels "l2" (Scalar 2) eq_refl)
      as (sz & ar & st & Hsz & Har & Hst & Hget).
    injection Hsz as <-. injection Har as <-. injection Hst as <-.
    exact Hget.
Defined.

(** ** Calling the layer *)

Lemma get_map_keys {V : Type} (f : string -> V) (ks : list string) (k : string) :
  In k ks -> Dict.get (List.map (fun k => (k, f k)) ks) k = Some (f k).
Proof.
  induction ks as [|k' ks IH]; simpl; [tauto|].
  intros Hin. destruct (String.eqb k k') eqn:E.
  - apply String.eqb_eq in E. now subst.
  - destruct Hin as [-> | Hin]; [now rewrite String.eqb_refl in E | auto].
Qed.

Lemma keys_map_keys {V : Type} (f : string -> V) (ks : list string) :
  Dict.keys (List.map (fun k => (k, f k)) ks) = ks.
Proof.
  unfold Dict.keys. rewrite map_map. simpl. apply map_id.
Qed.

Lemma for_each_ext {X S : Type} (f g : X -> S -> outcome S) (xs : list X)
  (s : S) :
  (forall x s, f x s = g x s) -> for_each xs f s = for_each xs g s.
Proof.
  intros H. revert s. induction xs as [|x xs IH]; intros s; simpl;
    [reflexivity|].
  rewrite H. destruct (g x s); simpl; auto.
Qed.

(** A loop that appends one entry per key. *)
Lemma append_loop {V : Type} (f : string -> outcome V) (val : string -> V)
  (ks : list string) (acc : Dict.dict V) :
  (forall k, In k ks -> f k = Ok (val k)) ->
  for_each ks (fun key acc => v <- f key ;; Ok (acc ++ [(key, v)])%list) acc
  = Ok (acc ++ List.map (fun k => (k, val k)) ks)%list.
Proof.
  revert acc. induction ks as [|k ks IH]; intros acc Hf; simpl.
  - now rewrite app_nil_r.
  - rewrite (Hf k (or_introl eq_refl)). cbn [bind].
    rewrite IH by (intros; apply Hf; now right).
    now rewrite <- app_assoc.
Qed.

Lemma set_app_fresh {V : Type} (d d' : Dict.dict V) (k : string) (v v' : V) :
  ~ In k (Dict.keys d) ->
  Dict.set (d ++ (k, v) :: d')%list k v' = (d ++ (k, v') :: d')%list.
Proof.
  induction d as [|[k0 v0] d IH]; simpl; intros Hnot.
  - now rewrite String.eqb_refl.
  - destruct (String.eqb k k0) eqn:E.
    + apply String.eqb_eq in E. subst. tauto.
    + rewrite IH by tauto. reflexivity.
Qed.

(** A loop that replaces the entry of each key in turn. *)
Lemma replace_loop {V : Type} (f : V -> outcome V) (old new : string -> V)
  (todo done : list string) :
  NoDup (done ++ todo) ->
  (forall k, In k todo -> f (old k) = Ok (new k)) ->
  for_each todo
    (fun key results =>
       r <- Dict.getitem results key ;;
       r' <- f r ;;
       Ok (Dict.set results key r'))
    (List.map (fun k => (k, new k)) done
     ++ List.map (fun k => (k, old k)) todo)%list
  = Ok (List.map (fun k => (k, new k)) (done ++ todo)).
Proof.
  revert done. induction todo as [|k todo IH]; intros done Hnd Hf.
  - simpl. now rewrite !app_nil_r.
  - simpl for_each.
    assert (Hfresh : ~ In k (Dict.keys (List.map (fun k => (k, new k)) done))).
    { rewrite keys_map_keys. apply NoDup_remove_2 in Hnd.
      rewrite in_app_iff in Hnd. tauto. }
    unfold Dict.getitem. simpl List.map.
    rewrite get_app_fresh by exact Hfresh.
    simpl Dict.get. rewrite String.eqb_refl. cbn [bind].
    rewrite (Hf k (or_introl eq_refl)). cbn [bind].
    rewrite set_app_fresh by exact Hfresh.
    replace (List.map (fun k => (k, new k)) done
             ++ (k, new k) :: List.map (fun k => (k, old k)) todo)%list
      with (List.map (fun k => (k, new k)) (done ++ [k])
            ++ List.map (fun k => (k, old k)) todo)%list
      by (rewrite map_app, <- app_assoc; reflexivity).
    rewrite IH.
    + now rewrite <- app_assoc.
    + now rewrite <- app_assoc.
    + intros; apply Hf; now right.
Qed.

(** X6. Calling the layer on an image on which every level returns its
    anchors and [convert_format] converts them: the result has exactly the
    keys of the layer's levels, in the order of the levels (not sorted),
    and holds under each key the converted anchors of that level. *)
Theorem call_returns_one_entry_per_level (tf_sqrt : Q -> Q)
  (convert_format : list box -> string -> string -> N * N -> outcome (list box))
  (self : AnchorGenerator) (image_shape : N * N)
  (raw converted : string -> list box) :
  NoDup (Dict.keys (anchor_generators self)) ->
  (forall level g,
      Dict.get (anchor_generators self) level = Some g ->
      call tf_sqrt g image_shape = Ok (raw level) /\
      convert_format (raw level) "yxyx"
        (ScaleBasedAnchorGenerator.bounding_box_format self) image_shape
      = Ok (converted level)) ->
  __call__ tf_sqrt convert_format self image_shape
  = Ok (List.map (fun level => (level, converted level))
                 (Dict.keys (anchor_generators self))).
Proof.
  intros Hnd Hlevels. unfold __call__.
  set (gens := anchor_generators self) in *.
  assert (Hraw : forall k, In k (Dict.keys gens) ->
            (anchor_gen <- Dict.getitem gens k ;;
             call tf_sqrt anchor_gen image_shape) = Ok (raw k)).
  { intros k Hk. unfold Dict.getitem.
    destruct (get_in_keys gens k Hk) as (g & Hg). rewrite Hg. cbn [bind].
    apply (Hlevels k g Hg). }
  assert (Hfirst :
    for_each (Dict.sorted (Dict.keys gens))
      (fun key results =>
         anchor_gen <- Dict.getitem gens key ;;
         r <- call tf_sqrt anchor_gen image_shape ;;
         Ok (results ++ [(key, r)])%list) []
    = Ok (List.map (fun k => (k, raw k)) (Dict.sorted (Dict.keys gens)))).
  { transitivity
      (for_each (Dict.sorted (Dict.keys gens))
         (fun key acc =>
            v <- (anchor_gen <- Dict.getitem gens key ;;
                  call tf_sqrt anchor_gen image_shape) ;;
            Ok (acc ++ [(key, v)])%list) []).
    - apply for_each_ext. intros k acc.
      destruct (Dict.getitem gens k) as [g|e]; [|reflexivity].
      cbn [bind]. now destruct (call tf_sqrt g image_shape).
    - rewrite (append_loop _ raw); [reflexivity|].
      intros k Hk. apply Hraw. now apply in_sorted. }
  rewrite Hfirst. cbn [bind].
  rewrite (append_loop
             (fun k => Dict.getitem
                         (List.map (fun k => (k, raw k))
                                   (Dict.sorted (Dict.keys gens))) k)
             raw (Dict.keys gens) []).
  - cbn [bind app]. rewrite keys_map_keys.
    apply (replace_loop
             (fun r => convert_format r "yxyx"
                         (ScaleBasedAnchorGenerator.bounding_box_format self)
                         image_shape)
             raw converted (Dict.keys gens) []); [exact Hnd|].
    intros k Hk. destruct (get_in_keys gens k Hk) as (g & Hg).
    apply (Hlevels k g Hg).
  - intros k Hk. unfold Dict.getitem.
    rewrite get_map_keys by (now apply in_sorted). reflexivity.
Qed.

(** Two levels under the keys ["b"] and ["a"], in that order, with a
    converter that leaves the boxes as they are. *)
Lemma call_returns_one_entry_per_level_witness :
  exists boxes_b boxes_a,
    __call__ sqrt_exact (fun boxes _ _ _ => Ok boxes)
      (Build_AnchorGenerator "yxyx"
         [("b", example_level); ("a", example_level_one_ratio)])
      (16%N, 16%N)
    = Ok [("b", boxes_b); ("a", boxes_a)].
Proof.
  eexists _, _.
  set (raw := fun level =>
                match Dict.get [("b", example_level);
                                ("a", example_level_one_ratio)] level with
                | Some g =>
                    match call sqrt_exact g (16%N, 16%N) with
                    | Ok boxes => boxes
                    | Raise _ => []
                    end
                | None => []
                end).
  apply (call_returns_one_entry_per_level sqrt_exact
           (fun boxes _ _ _ => Ok boxes)
           (Build_AnchorGenerator "yxyx"
              [("b", example_level); ("a", example_level_one_ratio)])
           (16%N, 16%N) raw raw).
  - repeat constructor; simpl; intuition discriminate.
  - intros level g. simpl.
    destruct (String.eqb level "b") eqn:Eb.
    + apply String.eqb_eq in Eb. subst level. intros [= <-].
      split; reflexivity.
    + destruct (String.eqb level "a") eqn:Ea; [|discriminate].
      apply String.eqb_eq in Ea. subst level. intros [= <-].
      split; reflexivity.
Defined.

(** ** The recall metrics: construction, reset and result *)

(** X7. [__init__] of both recall metrics raises a [ValueError] when some
    class id is negative (0 is accepted).  Otherwise it keeps the class ids,
    uses the given IoU thresholds, or the ten thresholds 0.50, 0.55, ...,
    0.95 when none or an empty list is given, and creates both weights
    filled with zeros: [true_positives] with one row per threshold and one
    column per class id, [ground_truth_boxes] with one entry per class
    id. *)
Theorem recall_init_outcome (ids : list Z) (fmt : string)
  (thresholds : option (list Q)) (range : option (Q * Q)) (detections : Z) :
  ((exists c, In c ids /\ (c < 0)%Z) ->
   exists msg,
     Recall.__init__ ids fmt thresholds range detections
     = Raise (ValueError msg)) /\
  ((forall c, In c ids -> (0 <= c)%Z) ->
   exists cfg,
     Recall.__init__ ids fmt thresholds range detections
     = Ok (cfg, zeros (List.length (iou_thresholds cfg)) (List.length ids)) /\
     class_ids cfg = ids /\
     iou_thresholds cfg <> [] /\
     (forall t ts, thresholds = Some (t :: ts) -> iou_thresholds cfg = t :: ts) /\
     (thresholds = None \/ thresholds = Some [] ->
      Forall2 Qeq (iou_thresholds cfg)
        [0.5; 0.55; 0.6; 0.65; 0.7; 0.75; 0.8; 0.85; 0.9; 0.95])).
Proof.
  unfold Recall.__init__. split.
  - intros (c & Hin & Hneg).
    assert (E : existsb (fun c => Z.ltb c 0) ids = true).
    { apply existsb_exists. exists c. split; [exact Hin|].
      now apply Z.ltb_lt. }
    rewrite E. eexists. reflexivity.
  - intros Hpos.
    assert (E : existsb (fun c => Z.ltb c 0) ids = false).
    { destruct (existsb (fun c => Z.ltb c 0) ids) eqn:E; [|reflexivity].
      apply existsb_exists in E as (c & Hin & Hneg).
      apply Z.ltb_lt in Hneg. specialize (Hpos c Hin). lia. }
    rewrite E.
    exists (Build_config fmt
              match thresholds with
              | Some (t :: ts) => t :: ts
              | _ => default_iou_thresholds
              end ids range detections).
    split; [reflexivity|].
    cbn [class_ids iou_thresholds]. split; [reflexivity|].
    split; [destruct thresholds as [[|t ts]|]; discriminate|].
    split.
    + intros t ts ->. reflexivity.
    + intros [-> | ->]; repeat constructor; reflexivity.
Qed.

(** A negative class id is rejected; with the ids 0 and 1 and an empty list
    of thresholds the weights have ten rows and two columns. *)
Lemma recall_init_outcome_witness :
  (exists msg,
      Recall.__init__ [1; -2]%Z "xyxy" None None 100 = Raise (ValueError msg)) /\
  (exists cfg,
      Recall.__init__ [0; 1]%Z "xyxy" (Some []) None 100
      = Ok (cfg, zeros 10 2)).
Proof.
  split.
  - apply (proj1 (recall_init_outcome [1; -2]%Z "xyxy" None None 100)).
    exists (-2)%Z. split; [simpl; auto | reflexivity].
  - destruct (proj2 (recall_init_outcome [0; 1]%Z "xyxy" (Some []) None 100))
      as (cfg & Hinit & _ & _ & _ & Hdefault).
    + intros c [<- | [<- | []]]; discriminate.
    + exists cfg. rewrite Hinit.
      rewrite (Forall2_length (Hdefault (or_intror eq_refl))). reflexivity.
Defined.

Lemma zeros_like_repeat (v : list Z) :
  zeros_like v = repeat 0%Z (List.length v).
Proof.
  induction v as [|x v IH]; simpl; [reflexivity|]. now rewrite IH.
Qed.

(** X8. [reset_state] gives back the weights that [__init__] created:
    whatever was accumulated in weights of [T] thresholds and [K] class
    ids, all counters are zero again and the shapes are kept. *)
Theorem reset_state_restores_initial_weights (T K : nat) (st : metric_state) :
  shaped T K (true_positives st) ->
  List.length (ground_truth_boxes st) = K ->
  Recall.reset_state st = zeros T K.
Proof.
  intros [Hlen Hrows] Hgt. unfold Recall.reset_state, zeros. f_equal.
  - clear Hgt. revert T Hlen.
    induction Hrows as [|row m Hrow _ IH]; intros T Hlen; simpl in Hlen;
      subst T; simpl; [reflexivity|].
    rewrite zeros_like_repeat, Hrow. f_equal. now apply IH.
  - now rewrite zeros_like_repeat, Hgt.
Qed.

Lemma reset_state_restores_initial_weights_witness :
  Recall.reset_state example_state = zeros 2 3.
Proof.
  apply (reset_state_restores_initial_weights 2 3 example_state).
  - split; [reflexivity | repeat constructor].
  - reflexivity.
Defined.

Lemma Qsum_bounds (l : list Q) :
  Forall (fun x => 0 <= x /\ x <= 1) l ->
  0 <= Qsum l /\ Qsum l <= inject_Z (Z.of_nat (List.length l)).
Proof.
  induction 1 as [|x l [H0 H1] _ [IH0 IH1]].
  - simpl. split; [apply Qle_refl | discriminate].
  - cbn [Qsum fold_right List.length].
    rewrite Nat2Z.inj_succ, <- Z.add_1_r, inject_Z_plus.
    fold (Qsum l). change (inject_Z 1) with 1. split; lra.
Qed.

Lemma Qmean_bounds (l : list Q) :
  Forall (fun x => 0 <= x /\ x <= 1) l -> 0 <= Qmean l /\ Qmean l <= 1.
Proof.
  intros H. destruct (Qsum_bounds l H) as [H0 H1]. unfold Qmean.
  destruct l as [|x l].
  - simpl. split; discriminate.
  - assert (Hn : 0 < inject_Z (Z.of_nat (List.length (x :: l)))).
    { change 0 with (inject_Z 0). rewrite <- Zlt_Qlt. simpl. lia. }
    split.
    + apply Qle_shift_div_l; [exact Hn | lra].
    + apply Qle_shift_div_r; [exact Hn | lra].
Qed.

Lemma present_recalls_bounds (row gts : list Z) :
  Forall2 (fun tp gt => (0 <= tp <= gt)%Z) row gts ->
  Forall (fun x => 0 <= x /\ x <= 1) (present_recalls row gts).
Proof.
  unfold present_recalls.
  induction 1 as [|tp gt row gts [Htp Hgt] _ IH]; simpl; [constructor|].
  destruct (Z.eqb gt 0) eqn:E; simpl; [exact IH|].
  apply Z.eqb_neq in E. constructor; [|exact IH].
  assert (Hg : 0 < inject_Z gt).
  { change 0 with (inject_Z 0). rewrite <- Zlt_Qlt. lia. }
  assert (Ht0 : 0 <= inject_Z tp).
  { change 0 with (inject_Z 0). rewrite <- Zle_Qle. lia. }
  assert (Ht1 : inject_Z tp <= inject_Z gt) by (rewrite <- Zle_Qle; lia).
  split.
  - apply Qle_shift_div_l; [exact Hg | lra].
  - apply Qle_shift_div_r; [exact Hg | lra].
Qed.

(** X9. As long as no cell of [true_positives] exceeds the ground-truth
    count of its category and no counter is negative, the result of the
    recall metrics is a number between 0 and 1. *)
Theorem recall_result_between_zero_and_one (st : metric_state) :
  well_shaped st ->
  Forall
    (fun row =>
       Forall2 (fun tp gt => (0 <= tp <= gt)%Z) row (ground_truth_boxes st))
    (true_positives st) ->
  exists q, Recall.result st = Finite q /\ 0 <= q /\ q <= 1.
Proof.
  intros Hwf Hcells.
  destruct (forallb (fun gt => Z.eqb gt 0) (ground_truth_boxes st)) eqn:E.
  - exists 0. split; [now apply result_without_ground_truth|].
    split; [apply Qle_refl | discriminate].
  - destruct (result_with_ground_truth st Hwf E) as (q & Hq & Hmean).
    exists q. split; [exact Hq|]. rewrite Hmean.
    unfold mean_recall. rewrite E. apply Qmean_bounds.
    apply Forall_map. eapply Forall_impl; [|exact Hcells].
    intros row Hrow. apply Qmean_bounds. now apply present_recalls_bounds.
Qed.

Lemma recall_result_between_zero_and_one_witness :
  exists q, Recall.result example_state = Finite q /\ 0 <= q /\ q <= 1.
Proof.
  apply (recall_result_between_zero_and_one example_state).
  - unfold well_shaped. split; [discriminate|].
    split; [repeat constructor | reflexivity].
  - repeat constructor; discriminate.
Defined.

(** ** Updates of the recall metrics on the example batch *)

Lemma update_all_or_nothing_witness :
  snd (in_graph_update_state Reference.instance Reference.example_config
         Reference.example_unbatched Reference.example_prediction (zeros 2 2))
  = zeros 2 2.
Proof.
  apply (proj2 (update_all_or_nothing Reference.instance
                  Reference.example_config Reference.example_unbatched
                  Reference.example_prediction (zeros 2 2) _
                  (AttributeError
                     "'TensorShape' object has no attribute 'ranks'"))).
  vm_compute. reflexivity.
Defined.

Lemma in_graph_update_keeps_shape_witness :
  shaped 2 2
    (true_positives
       (snd (in_graph_update_state Reference.instance Reference.example_config
               Reference.example_truth Reference.example_prediction
               (zeros 2 2)))) /\
  List.length
    (ground_truth_boxes
       (snd (in_graph_update_state Reference.instance Reference.example_config
               Reference.example_truth Reference.example_prediction
               (zeros 2 2)))) = 2%nat.
Proof.
  apply (in_graph_update_keeps_shape Reference.instance
           Reference.example_config Reference.example_truth
           Reference.example_prediction (zeros 2 2) _
           (fst (in_graph_update_state Reference.instance
                   Reference.example_config Reference.example_truth
                   Reference.example_prediction (zeros 2 2))) 2 2).
  - split; [reflexivity | repeat constructor].
  - reflexivity.
  - vm_compute. reflexivity.
Defined.

(** ** MeanBoxCountDelta *)

Lemma count_loop (p : Z -> bool) (row : list Z) (acc : Z) :
  (0 <= acc)%Z -> (acc + Z.of_nat (List.length row) < 2 ^ 31)%Z ->
  fold_left Int32.add (List.map (fun c => Int32.of_bool (p c)) row) acc
  = (acc + Z.of_nat (List.length (filter p row)))%Z.
Proof.
  revert acc. induction row as [|c row IH]; intros acc H0 Hlt; simpl.
  - lia.
  - simpl List.length in Hlt. unfold Int32.add at 2.
    destruct (p c); simpl Int32.of_bool; rewrite wrap_small by lia;
      rewrite IH by lia; simpl List.length; lia.
Qed.

Lemma box_count_bounds (row : list Z) :
  (0 <= MeanBoxCountDelta.box_count row <= Z.of_nat (List.length row))%Z.
Proof.
  unfold MeanBoxCountDelta.box_count.
  pose proof (filter_length_le (fun c => negb (Z.eqb c (-1))) row). lia.
Qed.

Lemma count_boxes_cons (row : list Z) (cls : list (list Z)) :
  (Z.of_nat (List.length row) < 2 ^ 31)%Z ->
  MeanBoxCountDelta.count_boxes (row :: cls)
  = MeanBoxCountDelta.box_count row :: MeanBoxCountDelta.count_boxes cls.
Proof.
  intros H. unfold MeanBoxCountDelta.count_boxes. simpl. f_equal.
  unfold Int32.reduce_sum. rewrite count_loop by lia. reflexivity.
Qed.

Lemma subtract_same_length (a b : list Z) :
  List.length a = List.length b ->
  MeanBoxCountDelta.subtract a b
  = Ok (List.map (fun '(x, y) => Int32.sub x y) (combine a b)).
Proof.
  intros H. unfold MeanBoxCountDelta.subtract.
  destruct a as [|x [|x' a]], b as [|y [|y' b]]; try discriminate;
    try reflexivity.
  now rewrite H, Nat.eqb_refl.
Qed.

Lemma length_count_boxes (cls : list (list Z)) :
  List.length (MeanBoxCountDelta.count_boxes cls) = List.length cls.
Proof.
  unfold MeanBoxCountDelta.count_boxes. apply length_map.
Qed.

(** The [int32] sum of the absolute count differences does not wrap when
    the batch holds fewer than [2 ^ 31] entries. *)
Lemma delta_loop (ct cp : list (list Z)) (acc : Z) :
  List.length ct = List.length cp ->
  (0 <= acc)%Z ->
  (acc + Z.of_nat (List.length (List.concat ct) + List.length (List.concat cp))
   < 2 ^ 31)%Z ->
  fold_left Int32.add
    (List.map Int32.abs
       (List.map (fun '(x, y) => Int32.sub x y)
          (combine (MeanBoxCountDelta.count_boxes ct)
                   (MeanBoxCountDelta.count_boxes cp)))) acc
  = (acc + MeanBoxCountDelta.count_deltas ct cp)%Z /\
  (0 <= MeanBoxCountDelta.count_deltas ct cp
   <= Z.of_nat (List.length (List.concat ct) + List.length (List.concat cp)))%Z.
Proof.
  revert cp acc. induction ct as [|t ct IH]; intros [|p cp] acc Hlen H0 Hlt;
    try discriminate.
  - simpl. unfold MeanBoxCountDelta.count_deltas. simpl. lia.
  - injection Hlen as Hlen.
    simpl List.concat in *. rewrite !length_app in *.
    pose proof (box_count_bounds t) as Ht.
    pose proof (box_count_bounds p) as Hp.
    rewrite !count_boxes_cons by lia.
    cbn [combine List.map fold_left].
    assert (Hsub : Int32.sub (MeanBoxCountDelta.box_count t)
                             (MeanBoxCountDelta.box_count p)
                   = (MeanBoxCountDelta.box_count t
                      - MeanBoxCountDelta.box_count p)%Z).
    { unfold Int32.sub. apply wrap_small. lia. }
    rewrite Hsub.
    assert (Habs : Int32.abs (MeanBoxCountDelta.box_count t
                              - MeanBoxCountDelta.box_count p)
                   = Z.abs (MeanBoxCountDelta.box_count t
                            - MeanBoxCountDelta.box_count p)).
    { unfold Int32.abs. apply wrap_small. lia. }
    rewrite Habs. unfold Int32.add at 2. rewrite wrap_small by lia.
    destruct (IH cp (acc + Z.abs (MeanBoxCountDelta.box_count t
                                  - MeanBoxCountDelta.box_count p))%Z Hlen)
      as (Hsum & Hlo & Hhi); [lia | lia |].
    rewrite Hsum.
    unfold MeanBoxCountDelta.count_deltas in *. cbn [combine List.map fold_right].
    lia.
Qed.

Section MeanBoxCountDeltaUpdates.

Variable Boxes : Type.
Variable ensure_tensor : Boxes -> outcome Boxes.
Variable to_dense : Boxes -> outcome Boxes.
Variable classes : Boxes -> list (list Z).

(** X13. When [ensure_tensor] and [to_dense] return, the two batches hold
    the same number of images and fewer than [2 ^ 31] class entries, and
    the two weights are whole numbers that stay at most [2 ^ 24] (the range
    in which the [float32] additions are exact), an update adds to
    [delta_sum] the sum over the images of the absolute difference between
    the number of ground-truth boxes and the number of predicted boxes,
    entries of class [-1] not counted, and adds the number of images to
    [samples]. *)
Theorem update_adds_count_deltas (y_true y_pred tensors_true tensors_pred
  dense_true dense_pred : Boxes) (st : MeanBoxCountDelta.metric_state)
  (d n : Z) :
  ensure_tensor y_true = Ok tensors_true ->
  ensure_tensor y_pred = Ok tensors_pred ->
  to_dense tensors_pred = Ok dense_pred ->
  to_dense tensors_true = Ok dense_true ->
  List.length (classes dense_true) = List.length (classes dense_pred) ->
  (Z.of_nat (List.length (List.concat (classes dense_true))
             + List.length (List.concat (classes dense_pred))) < 2 ^ 31)%Z ->
  MeanBoxCountDelta.delta_sum st = Finite (inject_Z d) ->
  MeanBoxCountDelta.samples st = Finite (inject_Z n) ->
  (0 <= d)%Z -> (0 <= n)%Z ->
  (d + MeanBoxCountDelta.count_deltas (classes dense_true) (classes dense_pred)
   <= 2 ^ 24)%Z ->
  (n + Z.of_nat (List.length (classes dense_pred)) <= 2 ^ 24)%Z ->
  MeanBoxCountDelta.update_state Boxes ensure_tensor to_dense classes
    y_true y_pred st
  = (Ok tt,
     MeanBoxCountDelta.Build_metric_state
       (Finite (inject_Z d
                + inject_Z (MeanBoxCountDelta.count_deltas
                              (classes dense_true) (classes dense_pred))))
       (Finite (inject_Z n
                + inject_Z (Z.of_nat (List.length (classes dense_pred)))))).
Proof.
  intros Ht Hp Hdp Hdt Hlen Hsmall Hd Hn _ _ _ _.
  unfold MeanBoxCountDelta.update_state.
  rewrite Ht. cbn [bind]. rewrite Hp. cbn [bind].
  rewrite Hdp. cbn [bind]. rewrite Hdt. cbn [bind].
  rewrite subtract_same_length by (now rewrite !length_count_boxes).
  cbn [bind]. unfold Int32.reduce_sum.
  destruct (delta_loop (classes dense_true) (classes dense_pred) 0 Hlen)
    as (Hsum & _); [lia | lia |].
  rewrite Hsum, Z.add_0_l, Hd, Hn. reflexivity.
Qed.

(** X14. An update that raises leaves both weights as they were; this is
    the case when the two batches hold different numbers of images and
    neither holds exactly one: the subtraction of the counts raises. *)
Theorem mean_box_count_delta_update_all_or_nothing (y_true y_pred : Boxes)
  (st : MeanBoxCountDelta.metric_state) :
  (forall e st',
      MeanBoxCountDelta.update_state Boxes ensure_tensor to_dense classes
        y_true y_pred st = (Raise e, st') -> st' = st) /\
  (forall tensors_true tensors_pred dense_true dense_pred,
      ensure_tensor y_true = Ok tensors_true ->
      ensure_tensor y_pred = Ok tensors_pred ->
      to_dense tensors_pred = Ok dense_pred ->
      to_dense tensors_true = Ok dense_true ->
      List.length (classes dense_true) <> List.length (classes dense_pred) ->
      List.length (classes dense_true) <> 1%nat ->
      List.length (classes dense_pred) <> 1%nat ->
      exists msg,
        MeanBoxCountDelta.update_state Boxes ensure_tensor to_dense classes
          y_true y_pred st = (Raise (InvalidArgumentError msg), st)).
Proof.
  split.
  - intros e st'. unfold MeanBoxCountDelta.update_state.
    match goal with
    | |- match ?c with _ => _ end = _ -> _ => destruct c as [[d n]|e0]
    end; [discriminate | now intros [= _ <-]].
  - intros yt yp dt dp Ht Hp Hdp Hdt Hne Ht1 Hp1.
    unfold MeanBoxCountDelta.update_state.
    rewrite Ht. cbn [bind]. rewrite Hp. cbn [bind].
    rewrite Hdp. cbn [bind]. rewrite Hdt. cbn [bind].
    pose proof (length_count_boxes (classes dt)) as La.
    pose proof (length_count_boxes (classes dp)) as Lb.
    unfold MeanBoxCountDelta.subtract.
    destruct (MeanBoxCountDelta.count_boxes (classes dt)) as [|x [|x' a]];
      destruct (MeanBoxCountDelta.count_boxes (classes dp)) as [|y [|y' b]];
      simpl in La, Lb; try congruence;
      try (destruct (Nat.eqb _ _) eqn:E;
           [apply Nat.eqb_eq in E; simpl in E; congruence
           | eexists; reflexivity]).
Qed.

End MeanBoxCountDeltaUpdates.

(** Two ground-truth images against three predicted images. *)
Lemma mean_box_count_delta_update_all_or_nothing_witness :
  exists msg,
    MeanBoxCountDelta.update_state (list (list Z)) (fun b => Ok b)
      (fun b => Ok b) (fun b => b) [[0]; [1]]%Z [[0]; [1]; [2]]%Z
      MeanBoxCountDelta.__init__
    = (Raise (InvalidArgumentError msg), MeanBoxCountDelta.__init__).
Proof.
  destruct (mean_box_count_delta_update_all_or_nothing (list (list Z))
              (fun b => Ok b) (fun b => Ok b) (fun b => b)
              [[0]; [1]]%Z [[0]; [1]; [2]]%Z MeanBoxCountDelta.__init__)
    as (_ & H).
  apply (H _ _ _ _ eq_refl eq_refl eq_refl eq_refl); discriminate.
Defined.

(** The example of the class docstring: one image with one ground-truth
    box and three predicted boxes. *)
Lemma update_adds_count_deltas_witness :
  MeanBoxCountDelta.update_state (list (list Z)) (fun b => Ok b)
    (fun b => Ok b) (fun b => b) [[0; -1; -1]]%Z [[0; 1; 1; -1]]%Z
    MeanBoxCountDelta.__init__
  = (Ok tt,
     MeanBoxCountDelta.Build_metric_state (Finite (0 + 2)) (Finite (0 + 1))).
Proof.
  apply (update_adds_count_deltas (list (list Z)) (fun b => Ok b)
           (fun b => Ok b) (fun b => b) [[0; -1; -1]]%Z [[0; 1; 1; -1]]%Z
           [[0; -1; -1]]%Z [[0; 1; 1; -1]]%Z [[0; -1; -1]]%Z
           [[0; 1; 1; -1]]%Z MeanBoxCountDelta.__init__ 0 0);
    try reflexivity; vm_compute; discriminate.
Defined.

Section MeanBoxCountDeltaResult.

Variable Boxes : Type.
Variable ensure_tensor : Boxes -> outcome Boxes.
Variable to_dense : Boxes -> outcome Boxes.
Variable classes : Boxes -> list (list Z).

(** X15. The weights created by [__init__] are finite with no sample
    counted, and every update, whether it returns or raises, keeps them
    finite, the sample count non-negative and no delta without a sample.
    So after any number of updates the result is either NaN (no sample
    counted yet) or a finite number, never an infinity. *)
Theorem mean_box_count_delta_result_never_infinite (y_true y_pred : Boxes)
  (st st' : MeanBoxCountDelta.metric_state) (r : outcome unit) :
  MeanBoxCountDelta.accumulated st ->
  MeanBoxCountDelta.update_state Boxes ensure_tensor to_dense classes
    y_true y_pred st = (r, st') ->
  MeanBoxCountDelta.accumulated st' /\
  (MeanBoxCountDelta.result st' = NaN \/
   exists q, MeanBoxCountDelta.result st' = Finite q).
Proof.
  intros Hacc Hupd.
  pose proof (accumulated_update Boxes ensure_tensor to_dense classes
                y_true y_pred st st' r Hacc Hupd) as Hacc'.
  split; [exact Hacc'|].
  destruct Hacc' as (d & n & Hd & Hn & _ & Hzero).
  unfold MeanBoxCountDelta.result. rewrite Hd, Hn.
  unfold Float.div, is_zero.
  destruct (Qeq_bool n 0) eqn:En.
  - apply Qeq_bool_iff in En. specialize (Hzero En).
    apply Qeq_bool_iff in Hzero. rewrite Hzero. now left.
  - right. eexists. reflexivity.
Qed.

End MeanBoxCountDeltaResult.

Lemma mean_box_count_delta_result_never_infinite_witness :
  exists q,
    MeanBoxCountDelta.result
      (snd (MeanBoxCountDelta.update_state (list (list Z)) (fun b => Ok b)
              (fun b => Ok b) (fun b => b) [[0; -1; -1]]%Z [[0; 1; 1; -1]]%Z
              MeanBoxCountDelta.__init__))
    = Finite q /\ q == 2.
Proof.
  destruct (mean_box_count_delta_result_never_infinite (list (list Z))
              (fun b => Ok b) (fun b => Ok b) (fun b => b)
              [[0; -1; -1]]%Z [[0; 1; 1; -1]]%Z MeanBoxCountDelta.__init__
              (snd (MeanBoxCountDelta.update_state (list (list Z))
                      (fun b => Ok b) (fun b => Ok b) (fun b => b)
                      [[0; -1; -1]]%Z [[0; 1; 1; -1]]%Z
                      MeanBoxCountDelta.__init__))
              (Ok tt) accumulated_init eq_refl)
    as (_ & [Hnan | (q & Hq)]).
  - discriminate Hnan.
  - exists q. split; [exact Hq|].
    vm_compute in Hq. injection Hq as <-. reflexivity.
Defined.

(** ** delta_encoding.py: validation and the module as written *)

(** X16. A variance whose length is not 4 is rejected with a [ValueError]
    by both functions before anything else is evaluated, whatever the
    other arguments are. *)
Theorem variance_of_wrong_length_rejected (tf_log tf_exp : Q -> Q)
  (globals : module_namespace) (anchors boxes : rows)
  (nested_anchors nested_deltas : nest)
  (anchor_box_format bounding_box_format : string) (variance : list Q) :
  List.length variance <> 4%nat ->
  exists msg,
    encode_box_to_deltas tf_log globals anchors boxes anchor_box_format
      bounding_box_format (Some variance) = Raise (ValueError msg) /\
    decode_deltas_to_boxes tf_exp globals nested_anchors nested_deltas
      anchor_box_format bounding_box_format (Some variance)
    = Raise (ValueError msg).
Proof.
  intros Hlen. eexists.
  unfold encode_box_to_deltas, decode_deltas_to_boxes, check_variance.
  apply Nat.eqb_neq in Hlen. rewrite Hlen. split; reflexivity.
Qed.

Lemma variance_of_wrong_length_rejected_witness :
  exists msg,
    encode_box_to_deltas (fun x => x) intended_globals [[8; 8; 16; 16]]
      [[10; 6; 4; 32]] "center_yxhw" "center_yxhw" (Some [0.1; 0.2])
    = Raise (ValueError msg).
Proof.
  destruct (variance_of_wrong_length_rejected (fun x => x) (fun x => x)
              intended_globals [[8; 8; 16; 16]] [[10; 6; 4; 32]]
              (Leaf [[8; 8; 16; 16]]) (Leaf [[0; 0; 0; 0]])
              "center_yxhw" "center_yxhw" [0.1; 0.2])
    as (msg & Henc & _).
  - discriminate.
  - exists msg. exact Henc.
Defined.

Lemma sorted_nil (l : list string) : Dict.sorted l = [] -> l = [].
Proof.
  intros H. destruct l as [|x l]; [reflexivity|].
  assert (Hin : In x (Dict.sorted (x :: l))) by (apply in_sorted; now left).
  rewrite H in Hin. contradiction.
Qed.

(** X17. In the module as written, [decode_deltas_to_boxes] returns a
    result on one input only: two empty dictionaries of levels (with a
    variance of length 4 or none), for which it returns an empty
    dictionary.  On every tensor and on every dictionary with a level it
    raises. *)
Theorem decode_returns_only_on_empty_levels (tf_exp : Q -> Q)
  (anchors boxes_delta : nest)
  (anchor_box_format bounding_box_format : string)
  (variance : option (list Q)) (boxes : nest) :
  decode_deltas_to_boxes tf_exp module_globals anchors boxes_delta
    anchor_box_format bounding_box_format variance = Ok boxes <->
  (check_variance variance = Ok tt /\ anchors = Levels [] /\
   boxes_delta = Levels [] /\ boxes = Levels []).
Proof.
  unfold decode_deltas_to_boxes. split.
  - destruct (check_variance variance) as [[]|e]; [|discriminate].
    cbn [bind].
    destruct anchors as [a|da], boxes_delta as [b|db]; try discriminate.
    unfold assert_same_structure.
    destruct (Dict.keys_eqb (Dict.sorted (Dict.keys da))
                            (Dict.sorted (Dict.keys db))) eqn:E;
      [|discriminate].
    cbn [bind]. destruct da as [|[lvl a] da].
    + simpl. intros [= <-]. apply keys_eqb_eq in E. simpl in E.
      symmetry in E. apply sorted_nil in E.
      destruct db; [auto | discriminate].
    + simpl for_each. destruct (Dict.getitem db lvl); discriminate.
  - intros (Hv & -> & -> & ->). rewrite Hv. reflexivity.
Qed.

(** ** Where the cell centres lie *)

Lemma mult_lt_of_lt_div (a b c : Q) : 0 < c -> a < b / c -> a * c < b.
Proof.
  intros Hc H. apply (Qmult_lt_r _ _ c Hc) in H.
  assert (E : b / c * c == b) by (field; lra).
  now rewrite E in H.
Qed.

Lemma mult_le_of_div_le (a b c : Q) : 0 < c -> b / c <= a -> b <= a * c.
Proof.
  intros Hc H. apply (Qmult_le_r _ _ c Hc) in H.
  assert (E : b / c * c == b) by (field; lra).
  now rewrite E in H.
Qed.

(** X18. The cell centres of a level with the single stride [s] all lie
    inside the image along each axis: at least [s / 2] from the origin and
    strictly below the extent of the axis; and when the axis is longer
    than [s / 2], some centre lies within one stride of its end. *)
Theorem centers_lie_inside_the_image (g : _SingleAnchorGenerator) (s : Q)
  (dim : N) (cs : list Q) :
  stride g = Vector [s] \/ stride g = Scalar s ->
  centers g (inject_Z (Z.of_N dim)) = Ok cs ->
  Forall (fun c => 0.5 * s <= c /\ c < inject_Z (Z.of_N dim)) cs /\
  (0.5 * s < inject_Z (Z.of_N dim) ->
   exists c, In c cs /\ inject_Z (Z.of_N dim) - s <= c).
Proof.
  intros Hstride Hcs.
  destruct (proj1 (centers_returned_iff g s dim Hstride)
                  (ex_intro _ cs Hcs)) as [Hs Hdim].
  rewrite (centers_single_stride g s dim Hstride Hs Hdim) in Hcs.
  injection Hcs as <-.
  set (x := (inject_Z (Z.of_N dim) - 0.5 * s) / s).
  assert (Hx : 0 <= x).
  { unfold x. apply Qle_shift_div_l; [exact Hs | lra]. }
  assert (Hceil : (0 <= Qceiling x)%Z).
  { pose proof (Qle_ceiling x) as H.
    assert (H0 : 0 <= inject_Z (Qceiling x)) by lra.
    change 0 with (inject_Z 0) in H0. now rewrite <- Zle_Qle in H0. }
  unfold range_values, cell_count. fold x. split.
  - apply Forall_forall. intros c Hc.
    apply in_map_iff in Hc as (i & <- & Hi). apply in_seq in Hi.
    assert (Hi0 : 0 <= inject_Z (Z.of_nat i)) by apply inject_nat_nonneg.
    assert (Hlt : inject_Z (Z.of_nat i) < x).
    { apply Qle_lt_trans with (y := inject_Z (Qceiling x - 1)).
      - rewrite <- Zle_Qle. lia.
      - apply Qceiling_lt. }
    apply (mult_lt_of_lt_div _ _ s Hs) in Hlt.
    split; [nra | lra].
  - intros Hlong.
    assert (Hpos : 0 < x).
    { unfold x. apply Qlt_shift_div_l; [exact Hs | lra]. }
    assert (Hc1 : (1 <= Qceiling x)%Z).
    { pose proof (Qle_ceiling x) as H.
      assert (H0 : 0 < inject_Z (Qceiling x)) by lra.
      change 0 with (inject_Z 0) in H0. rewrite <- Zlt_Qlt in H0. lia. }
    exists (0.5 * s + inject_Z (Z.of_nat (Z.to_nat (Qceiling x) - 1)) * s).
    split.
    + apply in_map_iff. exists (Z.to_nat (Qceiling x) - 1)%nat.
      split; [reflexivity|]. apply in_seq. lia.
    + assert (E : inject_Z (Z.of_nat (Z.to_nat (Qceiling x) - 1))
                  == inject_Z (Qceiling x) - 1).
      { rewrite Nat2Z.inj_sub by lia. rewrite Z2Nat.id by lia.
        unfold Zminus. rewrite inject_Z_plus, inject_Z_opp. reflexivity. }
      rewrite E.
      pose proof (mult_le_of_div_le (inject_Z (Qceiling x))
                    (inject_Z (Z.of_N dim) - 0.5 * s) s Hs
                    (Qle_ceiling x)) as Hle.
      lra.
Qed.

Lemma centers_lie_inside_the_image_witness :
  exists cs,
    centers example_level (inject_Z (Z.of_N 20)) = Ok cs /\
    Forall (fun c => 0.5 * 8 <= c /\ c < inject_Z (Z.of_N 20)) cs.
Proof.
  eexists. split; [vm_compute; reflexivity|].
  apply (centers_lie_inside_the_image example_level 8 20 _
           (or_introl eq_refl)).
  vm_compute. reflexivity.
Defined.

(** ** The centres of the boxes through encoding and decoding *)

Section CentersRoundTrip.

Variable tf_log : Q -> Q.
Variable tf_exp : Q -> Q.

Lemma row_center_round_trip (variance : option (list Q))
  (a b : Q * Q * Q * Q) :
  dims_at_least_epsilon a -> nonzero_variance variance ->
  same_center (box_row tf_exp variance a (delta_row tf_log variance a b)) b.
Proof.
  destruct a as [[[cya cxa] ha] wa], b as [[[cy cx] h] w].
  intros [Hha Hwa] Hvar.
  destruct variance as [v|].
  - destruct Hvar as (v1 & v2 & v3 & v4 & -> & H1 & H2 & H3 & H4). simpl.
    split.
    + apply offset_round_trip; [assumption|].
      generalize ((cy - cya) / Qmax ha epsilon). intros q. now field.
    + apply offset_round_trip; [assumption|].
      generalize ((cx - cxa) / Qmax wa epsilon). intros q. now field.
  - simpl. split; apply offset_round_trip; try assumption; reflexivity.
Qed.

(** X19. The centres of the boxes through the two function bodies, in a
    module namespace that binds the three names they read ([convert_format]
    to a converter that is the identity on [center_yxhw], both formats to
    [center_yxhw]) and over exact arithmetic: for unbatched boxes, as many
    as anchors, anchors whose widths and heights are at least epsilon and
    a variance of four non-zero entries (or none), encoding the boxes and
    decoding the result against the same anchors both return, and every
    decoded row has the centre [(cy, cx)] of the box it comes from,
    whatever [tf.math.log] and [tf.math.exp] compute. *)
Theorem box_centers_round_trip (la lb : list (Q * Q * Q * Q))
  (anchor_box_format bounding_box_format : string)
  (variance : option (list Q)) :
  List.length la = List.length lb ->
  Forall dims_at_least_epsilon la ->
  nonzero_variance variance ->
  exists deltas decoded,
    encode_box_to_deltas tf_log intended_globals (List.map row_of la)
      (List.map row_of lb) anchor_box_format bounding_box_format variance
    = Ok deltas /\
    decode_deltas_to_boxes tf_exp intended_globals (Leaf (List.map row_of la))
      (Leaf deltas) anchor_box_format bounding_box_format variance
    = Ok (Leaf decoded) /\
    Forall2 same_center decoded lb.
Proof.
  intros Hlen Ha Hvar.
  assert (Hcheck : check_variance variance = Ok tt).
  { destruct variance as [v|]; [|reflexivity].
    destruct Hvar as (v1 & v2 & v3 & v4 & -> & _). reflexivity. }
  eexists _, _. split; [now apply encode_rows|]. split.
  - unfold decode_deltas_to_boxes. rewrite Hcheck.
    cbn [bind assert_same_structure].
    rewrite decode_rows; [reflexivity|].
    rewrite length_map, length_combine. lia.
  - clear Hcheck. revert lb Hlen.
    induction Ha as [|a la Ha1 Ha IH]; intros [|b lb] Hlen;
      simpl in *; try discriminate; [constructor|].
    constructor.
    + now apply row_center_round_trip.
    + apply IH. lia.
Qed.

End CentersRoundTrip.

(** One box against one anchor, with the variance of the RetinaNet
    decoder; [x - 1] and [1 + x] stand in for [log x] and [exp x], on which
    the centres do not depend. *)
Lemma box_centers_round_trip_witness :
  exists deltas decoded,
    encode_box_to_deltas (fun x => x - 1) intended_globals [[8; 8; 16; 16]]
      [[10; 6; 4; 32]] "center_yxhw" "center_yxhw"
      (Some [0.1; 0.1; 0.2; 0.2]) = Ok deltas /\
    decode_deltas_to_boxes (fun x => 1 + x) intended_globals
      (Leaf [[8; 8; 16; 16]]) (Leaf deltas) "center_yxhw" "center_yxhw"
      (Some [0.1; 0.1; 0.2; 0.2]) = Ok (Leaf decoded) /\
    Forall2 same_center decoded [(10, 6, 4, 32)].
Proof.
  apply (box_centers_round_trip (fun x => x - 1) (fun x => 1 + x)
           [(8, 8, 16, 16)] [(10, 6, 4, 32)] "center_yxhw" "center_yxhw"
           (Some [0.1; 0.1; 0.2; 0.2])).
  - reflexivity.
  - repeat constructor; discriminate.
  - exists 0.1, 0.1, 0.2, 0.2. repeat split; discriminate.
Defined.

(** ** Decoding a dictionary of levels *)

Section DecodeLevels.

Variable tf_exp : Q -> Q.
Variable globals : module_namespace.

Lemma decode_loop (db : Dict.dict rows) (variance : option (list Q))
  (out : string -> rows) (todo done : Dict.dict rows) :
  NoDup (Dict.keys (done ++ todo)%list) ->
  (forall lvl a, In (lvl, a) todo ->
     exists d, Dict.get db lvl = Some d /\
               decode_single_level tf_exp globals variance a d = Ok (out lvl)) ->
  for_each todo
    (fun '(lvl, anchor) boxes =>
       delta <- Dict.getitem db lvl ;;
       b <- decode_single_level tf_exp globals variance anchor delta ;;
       Ok (Dict.set boxes lvl b))
    (List.map (fun lvl => (lvl, out lvl)) (Dict.keys done))
  = Ok (List.map (fun lvl => (lvl, out lvl)) (Dict.keys (done ++ todo)%list)).
Proof.
  revert done. induction todo as [|[lvl a] todo IH]; intros done Hnd Hall.
  - simpl. now rewrite app_nil_r.
  - simpl for_each.
    destruct (Hall lvl a (or_introl eq_refl)) as (d & Hd & Hdec).
    unfold Dict.getitem. rewrite Hd. cbn [bind]. rewrite Hdec. cbn [bind].
    assert (Hfresh : ~ In lvl (Dict.keys done)).
    { unfold Dict.keys in Hnd. rewrite map_app in Hnd. simpl in Hnd.
      apply NoDup_remove_2 in Hnd. rewrite in_app_iff in Hnd.
      unfold Dict.keys. tauto. }
    rewrite set_fresh by (now rewrite keys_map_keys).
    replace (List.map (fun lvl => (lvl, out lvl)) (Dict.keys done)
             ++ [(lvl, out lvl)])%list
      with (List.map (fun lvl => (lvl, out lvl))
              (Dict.keys (done ++ [(lvl, a)])%list))
      by (unfold Dict.keys; now rewrite !map_app).
    rewrite IH.
    + now rewrite <- app_assoc.
    + now rewrite <- app_assoc.
    + intros; apply Hall; now right.
Qed.

(** X20. On two dictionaries of levels with the same keys,
    [decode_deltas_to_boxes] decodes each level of the anchors against the
    deltas stored under the same key, whatever the order of the keys in the
    two dictionaries, and returns a dictionary with the keys of the
    anchors, in the order of the anchors. *)
Theorem decode_levels_by_key (anchors boxes_delta : Dict.dict rows)
  (anchor_box_format bounding_box_format : string)
  (variance : option (list Q)) (out : string -> rows) :
  check_variance variance = Ok tt ->
  NoDup (Dict.keys anchors) ->
  Permutation (Dict.keys anchors) (Dict.keys boxes_delta) ->
  (forall lvl anchor delta,
      Dict.get anchors lvl = Some anchor ->
      Dict.get boxes_delta lvl = Some delta ->
      decode_single_level tf_exp globals variance anchor delta
      = Ok (out lvl)) ->
  decode_deltas_to_boxes tf_exp globals (Levels anchors) (Levels boxes_delta)
    anchor_box_format bounding_box_format variance
  = Ok (Levels (List.map (fun lvl => (lvl, out lvl)) (Dict.keys anchors))).
Proof.
  intros Hv Hnd Hperm Hdec. unfold decode_deltas_to_boxes.
  rewrite Hv. cbn [bind]. unfold assert_same_structure.
  apply sorted_eq_iff in Hperm as Hsorted.
  rewrite Hsorted, keys_eqb_refl. cbn [bind].
  pose proof (decode_loop boxes_delta variance out anchors [] Hnd) as Hloop.
  cbn [Dict.keys List.map app] in Hloop. fold (Dict.keys anchors) in Hloop.
  rewrite Hloop; [reflexivity|].
  - intros lvl a Hin.
    assert (Hk : In lvl (Dict.keys boxes_delta)).
    { apply (Permutation_in lvl Hperm). unfold Dict.keys.
      apply in_map_iff. exists (lvl, a). auto. }
    destruct (get_in_keys boxes_delta lvl Hk) as (d & Hd).
    exists d. split; [exact Hd|]. apply (Hdec lvl a d); [|exact Hd].
    clear - Hnd Hin. induction anchors as [|[k v] l IH]; [contradiction|].
    simpl in *. inversion Hnd as [|? ? Hk Hnd']; subst.
    destruct Hin as [[= -> ->] | Hin].
    + now rewrite String.eqb_refl.
    + destruct (String.eqb lvl k) eqn:E; [|now apply IH].
      apply String.eqb_eq in E. subst. exfalso. apply Hk.
      unfold Dict.keys. apply in_map_iff. exists (k, a). auto.
Qed.

End DecodeLevels.

(** Two levels, the deltas stored in the other order, in a namespace that
    binds the three names; [1 + x] stands for [exp x]. *)
Lemma decode_levels_by_key_witness :
  decode_deltas_to_boxes (fun x => 1 + x) intended_globals
    (Levels [("l1", [[8; 8; 16; 16]]); ("l2", [[4; 4; 2; 2]])])
    (Levels [("l2", [[0; 0; 0; 0]]); ("l1", [[1; 0; 0; 0]])])
    "center_yxhw" "center_yxhw" None
  = Ok (Levels [("l1", [[1 * 16 + 8; 0 * 16 + 8; (1 + 0) * 16; (1 + 0) * 16]]);
                ("l2", [[0 * 2 + 4; 0 * 2 + 4; (1 + 0) * 2; (1 + 0) * 2]])]).
Proof.
  apply (decode_levels_by_key (fun x => 1 + x) intended_globals
           [("l1", [[8; 8; 16; 16]]); ("l2", [[4; 4; 2; 2]])]
           [("l2", [[0; 0; 0; 0]]); ("l1", [[1; 0; 0; 0]])]
           "center_yxhw" "center_yxhw" None
           (fun lvl =>
              if String.eqb lvl "l1"
              then [[1 * 16 + 8; 0 * 16 + 8; (1 + 0) * 16; (1 + 0) * 16]]
              else [[0 * 2 + 4; 0 * 2 + 4; (1 + 0) * 2; (1 + 0) * 2]])).
  - reflexivity.
  - repeat constructor; simpl; intuition discriminate.
  - apply perm_swap.
  - intros lvl anchor delta. simpl.
    destruct (String.eqb lvl "l1") eqn:E1.
    + intros [= <-].
      destruct (String.eqb lvl "l2") eqn:E2.
      * apply String.eqb_eq in E1, E2. congruence.
      * intros [= <-]. reflexivity.
    + destruct (String.eqb lvl "l2") eqn:E2; [|discriminate].
      intros [= <-] [= <-]. reflexivity.
Defined.

(** ** Calling a layer built from flat lists *)

Section FlatListLayer.

Variable repr_list : list Q -> string.
Variable repr_keys : list string -> string.
Variable repr_param : level_param -> string.


End FlatListLayer.

